(** * pkitool: the certificate manager (pkg/certmgr), embedded and verified

    The development follows the Go package [certmgr]:
    - [certmgr.go]: alias storage ([aliasToFile], [doesAliasFileExist],
      [Delete], [List]), the pair loader/saver ([load], [save]) and the
      issuance engine ([NewRootCA], [NewIntermediateCA], [NewLeaf], [create]);
    - the validation rules ([requireAlias], [requireSubject],
      [requireParentAlias], [validAtLeastYears], [check]);
    - the sentinel errors of package [common].

    Go's standard library and the operating system are outside the
    repository.  The operating system is a small executable model (a store
    of paths with injected faults and a log of the calls made); the codecs
    and the cryptography ([encoding/pem], [crypto/x509], [crypto/rsa],
    [pkix.Name.String]) are an interface, [GoLib], over which every
    definition and theorem is generic. *)

From Stdlib Require Import ZArith NArith Lia List Bool.
From Stdlib Require Import Strings.String Strings.Ascii Strings.Byte.
From stdpp Require Import gmap strings list.

Local Open Scope string_scope.
Local Open Scope Z_scope.

(** ** Go strings: byte sequences *)

(** [strings.HasSuffix(s, suffix)]:
    [len(s) >= len(suffix) && s[len(s)-len(suffix):] == suffix]. *)
Definition strings_HasSuffix (s suffix : string) : bool :=
  (String.length suffix <=? String.length s)%nat &&
  String.eqb
    (substring (String.length s - String.length suffix)
               (String.length suffix) s)
    suffix.

(** [strings.HasPrefix], used by the model of the directory reader. *)
Definition strings_HasPrefix (s pre : string) : bool :=
  String.eqb (substring 0 (String.length pre) s) pre.

(** Does the byte [c] occur in [s]? *)
Fixpoint string_contains (c : ascii) (s : string) : bool :=
  match s with
  | EmptyString => false
  | String a r => Ascii.eqb a c || string_contains c r
  end.

(** ** Errors *)

(** The error numbers the model of the operating system can return. *)
Inductive Errno := ENOENT | EACCES | EISDIR | ENOTDIR | ENOTEMPTY | EIO.

(** The values of Go's [error] type that reach this package: the sentinel
    errors of package [common], the three [fmt.Errorf] values (kept with
    their arguments instead of the rendered message), [*fs.PathError] from
    package [os], and the errors of the codecs and of the cryptography. *)
Inductive error :=
| ErrIssuerMissing        (* "value for issuer is required" *)
| ErrAliasMissing         (* "certificate alias is required" *)
| ErrSubjectMissing       (* "certificate subject is required" *)
| ErrParentAliasMissing   (* "parent certificate alias is required" *)
| ErrInvalidValidYears (got atLeast : Z)
    (* "invalid ValidYears: %d, should be at least %d" *)
| ErrCantLoadCert (name : string)  (* "can't load CA certificate from %s" *)
| ErrCantLoadKey (name : string)   (* "can't load CA private key from %s" *)
| PathError (op path : string) (errno : Errno)
| LibError (pkg msg : string)
| RuntimePanic (msg : string).   (* a Go panic, not an [error] value *)

(** [os.IsNotExist(err)]. *)
Definition os_IsNotExist (err : error) : bool :=
  match err with
  | PathError _ _ ENOENT => true
  | _ => false
  end.

(** The spec's [MissingFieldError]: what the validation rules return. *)
Definition isMissingFieldError (err : error) : bool :=
  match err with
  | ErrAliasMissing | ErrSubjectMissing | ErrParentAliasMissing
  | ErrInvalidValidYears _ _ => true
  | _ => false
  end.

(** A Go result [(T, error)]: [Ok v] is [(v, nil)], [Err e] is [(_, e)]. *)
Inductive res (A : Type) :=
| Ok (v : A)
| Err (e : error).
Arguments Ok {A} v.
Arguments Err {A} e.

Definition isOk {A} (r : res A) : bool :=
  match r with Ok _ => true | Err _ => false end.

(** ** The data of [crypto/x509], [crypto/rsa], [encoding/pem] *)

Module pkix.
(** [pkix.Name]: the fields the command line fills. *)
Record Name := mkName {
  Country : list string;
  Organization : list string;
  OrganizationalUnit : list string;
  Locality : list string;
  Province : list string;
  StreetAddress : list string;
  PostalCode : list string;
  CommonName : string;
}.
Definition empty : Name := mkName [] [] [] [] [] [] [] "".
End pkix.

Module x509.
(** [x509.KeyUsage] is a bit set; the constants are [1 << iota]. *)
Definition KeyUsageDigitalSignature : Z := Z.shiftl 1 0.
Definition KeyUsageContentCommitment : Z := Z.shiftl 1 1.
Definition KeyUsageKeyEncipherment : Z := Z.shiftl 1 2.
Definition KeyUsageDataEncipherment : Z := Z.shiftl 1 3.
Definition KeyUsageKeyAgreement : Z := Z.shiftl 1 4.
Definition KeyUsageCertSign : Z := Z.shiftl 1 5.
Definition KeyUsageCRLSign : Z := Z.shiftl 1 6.
Definition KeyUsageEncipherOnly : Z := Z.shiftl 1 7.
Definition KeyUsageDecipherOnly : Z := Z.shiftl 1 8.

(** [x509.ExtKeyUsage] is an enumeration. *)
Inductive ExtKeyUsage :=
| ExtKeyUsageAny
| ExtKeyUsageServerAuth
| ExtKeyUsageClientAuth
| ExtKeyUsageCodeSigning
| ExtKeyUsageEmailProtection
| ExtKeyUsageTimeStamping.

(** [x509.Certificate]: the fields [create] sets; a field the code leaves
    out has Go's zero value ([nil] slice is the empty list). *)
Record Certificate := mkCertificate {
  Subject : pkix.Name;
  Issuer : pkix.Name;
  NotBefore : Z;
  NotAfter : Z;
  IsCA : bool;
  KeyUsage : Z;
  BasicConstraintsValid : bool;
  SerialNumber : option Z;             (* [*big.Int]; [None] is nil *)
  ExtKeyUsages : list ExtKeyUsage;      (* field [ExtKeyUsage] *)
  DNSNames : list string;
  IPAddresses : list (list byte);
}.
End x509.

Module rsa.
Record PublicKey := mkPublicKey { N : Z; E : Z }.
Record PrivateKey := mkPrivateKey { Public : PublicKey; D : Z }.
End rsa.

Module pem.
(** [pem.Block] (the code sets no headers). *)
Record Block := mkBlock { Type_ : string; Bytes : list byte }.
End pem.

Definition typeCert : string := "CERTIFICATE".
Definition typeRsaPrivateKey : string := "RSA PRIVATE KEY".

(** [PairHolder] wraps a certificate and the corresponding private key. *)
Record PairHolder := mkPairHolder {
  Cert : x509.Certificate;
  Key : rsa.PrivateKey;
}.

(** [CertData]: the request descriptor. *)
Record CertData := mkCertData {
  KeySize : Z;
  ValidYears : Z;
  IPSan : list (list byte);
  DNSSan : list string;
  Alias : string;
  ParentAlias : string;
  SelfSigned : bool;
  IsCA : bool;
  Issuer : pkix.Name;
  Subject : pkix.Name;
  Serial : Z;
}.

(** The two assignments [cd.SelfSigned = s; cd.IsCA = c] through the
    pointer [cd]. *)
Definition setFlags (s c : bool) (cd : CertData) : CertData :=
  mkCertData (KeySize cd) (ValidYears cd) (IPSan cd) (DNSSan cd) (Alias cd)
             (ParentAlias cd) s c (Issuer cd) (Subject cd) (Serial cd).

(** ** The library interface *)

(** The functions of Go's standard library the package calls.  The random
    source [rand.Reader] is a state of type [N] that the two functions
    reading it thread through. *)
Class GoLib := {
  pkix_Name_String : pkix.Name -> string;
  pem_Decode : list byte -> option pem.Block;
  pem_Encode : pem.Block -> res (list byte);
  x509_ParseCertificate : list byte -> res x509.Certificate;
  x509_ParsePKCS1PrivateKey : list byte -> res rsa.PrivateKey;
  x509_MarshalPKCS1PrivateKey : rsa.PrivateKey -> list byte;
  rsa_GenerateKey : N -> Z -> res rsa.PrivateKey * N;
  x509_CreateCertificate :
    N -> x509.Certificate -> x509.Certificate -> rsa.PublicKey ->
    rsa.PrivateKey -> res (list byte) * N;
  time_AddDate : Z -> Z -> Z -> Z -> Z;
}.

(** ** The operating system: a store of paths, faults, and a call log *)

(** What a path names: a regular file with its permission bits and
    content, a directory, or a node on which every call fails with the
    given error number (permission denied, an I/O error, ...). *)
Inductive Node :=
| NFile (mode : Z) (data : list byte)
| NDir
| NFault (e : Errno).

(** [os.DirEntry], as far as the package reads it. *)
Record DirEntry := mkDirEntry { Name : string; IsDir : bool }.

(** One entry of the call log per call that leaves the process. *)
Inductive Event :=
| EvStat (name : string)
| EvRemove (name : string)
| EvReadDir (name : string)
| EvReadFile (name : string)
| EvWriteFile (name : string) (data : list byte) (perm : Z)
| EvNow
| EvGenerateKey (bits : Z)
| EvCreateCertificate (template parent : x509.Certificate)
    (pub : rsa.PublicKey) (priv : rsa.PrivateKey).

(** The world a call runs in.  [w_trace] is the call log, most recent call
    first; [w_clock] gives the successive readings of the wall clock and
    [w_ticks] counts the readings taken; [w_rand] is the state of
    [rand.Reader]; [w_umask] is the file mode creation mask. *)
Record World := mkWorld {
  w_files : gmap string Node;
  w_umask : Z;
  w_rand : N;
  w_clock : nat -> Z;
  w_ticks : nat;
  w_trace : list Event;
}.

Definition log (ev : Event) (w : World) : World :=
  mkWorld (w_files w) (w_umask w) (w_rand w) (w_clock w) (w_ticks w)
          (ev :: w_trace w).

Definition set_files (f : gmap string Node) (w : World) : World :=
  mkWorld f (w_umask w) (w_rand w) (w_clock w) (w_ticks w) (w_trace w).

Definition set_rand (r : N) (w : World) : World :=
  mkWorld (w_files w) (w_umask w) r (w_clock w) (w_ticks w) (w_trace w).

Definition tick (w : World) : World :=
  mkWorld (w_files w) (w_umask w) (w_rand w) (w_clock w) (S (w_ticks w))
          (w_trace w).

(** *** The monad of the embedding: state and Go's error return *)

Definition M (A : Type) : Type := World -> res A * World.

Definition ret {A} (v : A) : M A := fun w => (Ok v, w).
Definition fail {A} (e : error) : M A := fun w => (Err e, w).

(** [bind c k]: run [c]; [if err != nil { return err }]; continue with [k]. *)
Definition bind {A B} (c : M A) (k : A -> M B) : M B :=
  fun w =>
    match c w with
    | (Ok v, w') => k v w'
    | (Err e, w') => (Err e, w')
    end.

(** A pure result lifted into the monad. *)
Definition lift {A} (r : res A) : M A := fun w => (r, w).

Declare Scope go_scope.
Delimit Scope go_scope with go.
Notation "'let*' x ':=' c 'in' k" := (bind c (fun x => k))
  (at level 10, x name, c at level 100, k at level 200) : go_scope.
Notation "'run' c 'in' k" := (bind c (fun _ => k))
  (at level 10, c at level 100, k at level 200) : go_scope.
Local Open Scope go_scope.

(** *** Paths below a directory *)

(** The name of [p] inside [dir] when [p] is [dir/name] and [name] is a
    single non-empty path element. *)
Definition child_of (dir p : string) : option string :=
  let pre := dir ++ "/" in
  if strings_HasPrefix p pre then
    let n := substring (String.length pre)
                       (String.length p - String.length pre) p in
    if string_contains "/" n || String.eqb n "" then None else Some n
  else None.

Definition node_is_dir (nd : Node) : bool :=
  match nd with NDir => true | _ => false end.

Fixpoint insert_entry (e : DirEntry) (l : list DirEntry) : list DirEntry :=
  match l with
  | [] => [e]
  | x :: r => if String.leb (Name e) (Name x) then e :: l
              else x :: insert_entry e r
  end.

(** The entries of [dir], sorted by file name as [os.ReadDir] returns
    them. *)
Definition dir_entries (files : gmap string Node) (dir : string)
  : list DirEntry :=
  foldr insert_entry []
    (omap (fun pn : string * Node =>
             match child_of dir (fst pn) with
             | Some n => Some (mkDirEntry n (node_is_dir (snd pn)))
             | None => None
             end)
          (map_to_list files)).

(** Does the directory [dir] have an entry? *)
Definition has_children (files : gmap string Node) (dir : string) : bool :=
  match dir_entries files dir with [] => false | _ => true end.

(** *** The calls of package [os] *)

(** [os.Stat(name)], reduced to its error. *)
Definition os_Stat (name : string) : M unit :=
  fun w =>
    let w := log (EvStat name) w in
    match w_files w !! name with
    | None => (Err (PathError "stat" name ENOENT), w)
    | Some (NFault e) => (Err (PathError "stat" name e), w)
    | Some _ => (Ok tt, w)
    end.

(** [os.Remove(name)]: removes a file or an empty directory. *)
Definition os_Remove (name : string) : M unit :=
  fun w =>
    let w := log (EvRemove name) w in
    match w_files w !! name with
    | None => (Err (PathError "remove" name ENOENT), w)
    | Some (NFault e) => (Err (PathError "remove" name e), w)
    | Some NDir =>
        if has_children (w_files w) name
        then (Err (PathError "remove" name ENOTEMPTY), w)
        else (Ok tt, set_files (delete name (w_files w)) w)
    | Some (NFile _ _) => (Ok tt, set_files (delete name (w_files w)) w)
    end.

(** [os.ReadDir(name)]. *)
Definition os_ReadDir (name : string) : M (list DirEntry) :=
  fun w =>
    let w := log (EvReadDir name) w in
    match w_files w !! name with
    | None => (Err (PathError "open" name ENOENT), w)
    | Some (NFault e) => (Err (PathError "open" name e), w)
    | Some (NFile _ _) => (Err (PathError "readdirent" name ENOTDIR), w)
    | Some NDir => (Ok (dir_entries (w_files w) name), w)
    end.

(** [os.ReadFile(name)]. *)
Definition os_ReadFile (name : string) : M (list byte) :=
  fun w =>
    let w := log (EvReadFile name) w in
    match w_files w !! name with
    | None => (Err (PathError "open" name ENOENT), w)
    | Some (NFault e) => (Err (PathError "open" name e), w)
    | Some NDir => (Err (PathError "read" name EISDIR), w)
    | Some (NFile _ data) => (Ok data, w)
    end.

(** [os.WriteFile(name, data, perm)]: "If the file does not exist,
    WriteFile creates it with permissions perm (before umask); otherwise
    WriteFile truncates it before writing, without changing
    permissions." *)
Definition os_WriteFile (name : string) (data : list byte) (perm : Z)
  : M unit :=
  fun w =>
    let w := log (EvWriteFile name data perm) w in
    match w_files w !! name with
    | None =>
        (Ok tt,
         set_files (<[name := NFile (Z.ldiff perm (w_umask w)) data]>
                      (w_files w)) w)
    | Some (NFault e) => (Err (PathError "open" name e), w)
    | Some NDir => (Err (PathError "open" name EISDIR), w)
    | Some (NFile mode _) =>
        (Ok tt, set_files (<[name := NFile mode data]> (w_files w)) w)
    end.

(** [time.Now()]: the next reading of the clock. *)
Definition time_Now : M Z :=
  fun w => (Ok (w_clock w (w_ticks w)), tick (log EvNow w)).

(** *** The two calls that read [rand.Reader] *)

Section Certmgr.
Context {lib : GoLib}.

(** [rsa.GenerateKey(rand.Reader, bits)]. *)
Definition call_GenerateKey (bits : Z) : M rsa.PrivateKey :=
  fun w =>
    let w := log (EvGenerateKey bits) w in
    let '(r, rnd) := rsa_GenerateKey (w_rand w) bits in
    (r, set_rand rnd w).

(** [x509.CreateCertificate(rand.Reader, template, parent, pub, priv)]. *)
Definition call_CreateCertificate (template parent : x509.Certificate)
    (pub : rsa.PublicKey) (priv : rsa.PrivateKey) : M (list byte) :=
  fun w =>
    let w := log (EvCreateCertificate template parent pub priv) w in
    let '(r, rnd) := x509_CreateCertificate (w_rand w) template parent pub priv in
    (r, set_rand rnd w).

(** ** github.com/samber/lo *)

(** [lo.Filter(collection, predicate)]; the predicate also receives the
    index. *)
Fixpoint lo_Filter_from {A} (i : nat) (predicate : A -> nat -> bool)
    (collection : list A) : list A :=
  match collection with
  | [] => []
  | x :: r =>
      if predicate x i then x :: lo_Filter_from (S i) predicate r
      else lo_Filter_from (S i) predicate r
  end.
Definition lo_Filter {A} (collection : list A) (predicate : A -> nat -> bool)
  : list A := lo_Filter_from 0 predicate collection.

(** [lo.Map(collection, iteratee)]; an iteratee that panics stops the
    loop. *)
Fixpoint lo_Map_from {A B} (i : nat) (iteratee : A -> nat -> res B)
    (collection : list A) : res (list B) :=
  match collection with
  | [] => Ok []
  | x :: r =>
      match iteratee x i with
      | Err e => Err e
      | Ok y =>
          match lo_Map_from (S i) iteratee r with
          | Err e => Err e
          | Ok ys => Ok (y :: ys)
          end
      end
  end.
Definition lo_Map {A B} (collection : list A) (iteratee : A -> nat -> res B)
  : res (list B) := lo_Map_from 0 iteratee collection.

(** [lo.Uniq(collection)]: keeps the first occurrence of each value, with
    the values seen so far in a hash set. *)
Fixpoint lo_Uniq_from (seen : gset string) (collection : list string)
  : list string :=
  match collection with
  | [] => []
  | x :: r =>
      if decide (x ∈ seen) then lo_Uniq_from seen r
      else x :: lo_Uniq_from ({[x]} ∪ seen) r
  end.
Definition lo_Uniq (collection : list string) : list string :=
  lo_Uniq_from ∅ collection.

(** ** certmgr.go: alias storage *)

Record certMgr := mkCertMgr {
  dir : string;  (* root directory where certificates and keys are stored *)
}.

(** [fmt.Sprintf("%s/%s.%s", cm.dir, alias, suffix)]. *)
Definition aliasToFile (cm : certMgr) (alias : string) (private : bool)
  : string :=
  let suffix := if private then "key" else "pem" in
  dir cm ++ "/" ++ alias ++ "." ++ suffix.

(** [doesAliasFileExist] checks if given alias resolves into existing
    file. *)
Definition doesAliasFileExist (cm : certMgr) (alias : string)
    (private : bool) : World -> bool * World :=
  fun w =>
    match os_Stat (aliasToFile cm alias private) w with
    | (Err err, w') => (negb (os_IsNotExist err), w')
    | (Ok _, w') => (true, w')
    end.

(** [isAliasFilename]: a private key file (.key) or a certificate file
    (.pem). *)
Definition isAliasFilename (file : string) : bool :=
  strings_HasSuffix file ".pem" || strings_HasSuffix file ".key".

(** [fileToAlias]: [file[0 : len(file)-4]]; the slice expression panics
    when [len(file) < 4]. *)
Definition fileToAlias (file : string) : res string :=
  if (String.length file <? 4)%nat
  then Err (RuntimePanic "slice bounds out of range")
  else Ok (substring 0 (String.length file - 4) file).

(** [err := c; if err != nil && !os.IsNotExist(err) { return err }]. *)
Definition unlessNotExist (c : M unit) : M unit :=
  fun w =>
    match c w with
    | (Err err, w') =>
        if negb (os_IsNotExist err) then (Err err, w') else (Ok tt, w')
    | (Ok _, w') => (Ok tt, w')
    end.

Definition Delete (cm : certMgr) (alias : string) : M unit :=
  run unlessNotExist (os_Remove (aliasToFile cm alias true)) in
  run unlessNotExist (os_Remove (aliasToFile cm alias false)) in
  ret tt.

Definition List (cm : certMgr) : M (list string) :=
  let* entries := os_ReadDir (dir cm) in
  let* names :=
    lift (lo_Map
            (lo_Filter entries (fun entry _ => isAliasFilename (Name entry)))
            (fun item _ => fileToAlias (Name item))) in
  ret (lo_Uniq names).

(** ** The validation rules *)

(** [checkFunc]: validates one aspect of [CertData]; [Ok tt] is nil. *)
Definition checkFunc : Type := CertData -> res unit.

Definition requireAlias : checkFunc :=
  fun data =>
    if (String.length (Alias data) =? 0)%nat then Err ErrAliasMissing
    else Ok tt.

Definition requireSubject : checkFunc :=
  fun data =>
    if (String.length (pkix_Name_String (Subject data)) =? 0)%nat
    then Err ErrSubjectMissing
    else Ok tt.

Definition requireParentAlias : checkFunc :=
  fun data =>
    if (String.length (ParentAlias data) =? 0)%nat
    then Err ErrParentAliasMissing
    else Ok tt.

Definition validAtLeastYears (years : Z) : checkFunc :=
  fun data =>
    if ValidYears data <? years
    then Err (ErrInvalidValidYears (ValidYears data) years)
    else Ok tt.

Fixpoint check (data : CertData) (checks : list checkFunc) : res unit :=
  match checks with
  | [] => Ok tt
  | checkFn :: rest =>
      match checkFn data with
      | Err err => Err err
      | Ok _ => check data rest
      end
  end.

(** ** certmgr.go: the pair saver and loader *)

(** A permission mode written in octal, [0oabc]. *)
Definition octal (a b c : Z) : Z := a * 64 + b * 8 + c.

Definition save (cm : certMgr) (cert key : list byte) (alias : string)
  : M unit :=
  let* certPem := lift (pem_Encode (pem.mkBlock typeCert cert)) in
  let* keyPem := lift (pem_Encode (pem.mkBlock typeRsaPrivateKey key)) in
  run os_WriteFile (aliasToFile cm alias false) certPem (octal 6 4 0) in
  os_WriteFile (aliasToFile cm alias true) keyPem (octal 4 0 0).

(** [block, _ := pem.Decode(data);
     if block == nil || block.Type != ty { return nil, err }]. *)
Definition decodeBlock (data : list byte) (ty : string) (err : error)
  : M pem.Block :=
  match pem_Decode data with
  | None => fail err
  | Some block =>
      if negb (String.eqb (pem.Type_ block) ty) then fail err
      else ret block
  end.

(** [load] loads both certificate and private key for given alias. *)
Definition load (cm : certMgr) (alias : string) : M PairHolder :=
  let name := dir cm ++ "/" ++ alias ++ ".pem" in
  let* data := os_ReadFile name in
  let* block := decodeBlock data typeCert (ErrCantLoadCert name) in
  let* cert := lift (x509_ParseCertificate (pem.Bytes block)) in
  let name := dir cm ++ "/" ++ alias ++ ".key" in
  let* data := os_ReadFile name in
  let* block := decodeBlock data typeRsaPrivateKey (ErrCantLoadKey name) in
  let* pKey := lift (x509_ParsePKCS1PrivateKey (pem.Bytes block)) in
  ret (mkPairHolder cert pKey).

Definition Get (cm : certMgr) (alias : string) : M PairHolder :=
  load cm alias.

(** ** certmgr.go: the issuance engine *)

Definition getKeyUsage (cd : CertData) : Z :=
  if IsCA cd
  then Z.lor x509.KeyUsageCertSign x509.KeyUsageCRLSign
  else Z.lor x509.KeyUsageDataEncipherment x509.KeyUsageDigitalSignature.

(** Assignments to fields of [newCert]. *)
Definition withIssuer (i : pkix.Name) (c : x509.Certificate)
  : x509.Certificate :=
  x509.mkCertificate (x509.Subject c) i (x509.NotBefore c) (x509.NotAfter c)
    (x509.IsCA c) (x509.KeyUsage c) (x509.BasicConstraintsValid c)
    (x509.SerialNumber c) (x509.ExtKeyUsages c) (x509.DNSNames c)
    (x509.IPAddresses c).

Definition withSerialNumber (n : Z) (c : x509.Certificate)
  : x509.Certificate :=
  x509.mkCertificate (x509.Subject c) (x509.Issuer c) (x509.NotBefore c)
    (x509.NotAfter c) (x509.IsCA c) (x509.KeyUsage c)
    (x509.BasicConstraintsValid c) (Some n) (x509.ExtKeyUsages c)
    (x509.DNSNames c) (x509.IPAddresses c).

Definition withLeafExtensions (eku : list x509.ExtKeyUsage)
    (dns : list string) (ips : list (list byte)) (c : x509.Certificate)
  : x509.Certificate :=
  x509.mkCertificate (x509.Subject c) (x509.Issuer c) (x509.NotBefore c)
    (x509.NotAfter c) (x509.IsCA c) (x509.KeyUsage c)
    (x509.BasicConstraintsValid c) (x509.SerialNumber c) eku dns ips.

(** [create] creates new certificate based on input data.  [ch] is the
    pointer to the parent's pair, nil ([None]) on the self-signed path. *)
Definition create (cm : certMgr) (cd : CertData) : M unit :=
  let* notBefore := time_Now in
  let* now := time_Now in
  let newCert :=
    x509.mkCertificate (Subject cd) pkix.empty notBefore
      (time_AddDate now (ValidYears cd) 0 0) (IsCA cd) (getKeyUsage cd)
      true None [] [] [] in
  let* chCert :=
    (if negb (SelfSigned cd) then
       let* ch := load cm (ParentAlias cd) in
       ret (Some ch, withIssuer (x509.Subject (Cert ch)) newCert)
     else
       ret (None, withIssuer (Issuer cd) newCert)) in
  let ch : option PairHolder := fst chCert in
  let newCert := snd chCert in
  let newCert :=
    if negb (Serial cd =? 0) then withSerialNumber (Serial cd) newCert
    else withSerialNumber 0 newCert in
  let newCert :=
    if negb (IsCA cd) then
      withLeafExtensions
        [x509.ExtKeyUsageClientAuth; x509.ExtKeyUsageServerAuth]
        (DNSSan cd) (IPSan cd) newCert
    else newCert in
  let* newKey := call_GenerateKey (KeySize cd) in
  let* signer :=
    (if SelfSigned cd then ret (newCert, newKey)
     else
       match ch with
       | Some h => ret (Cert h, Key h)
       | None => fail (RuntimePanic "nil pointer dereference")
       end) in
  let parentCert := fst signer in
  let privateKey := snd signer in
  let* certBytes :=
    call_CreateCertificate newCert parentCert (rsa.Public newKey)
      privateKey in
  save cm certBytes (x509_MarshalPKCS1PrivateKey newKey) (Alias cd).

(** The three operations change [cd.SelfSigned] and [cd.IsCA] through the
    pointer before [create] reads them. *)
Definition NewRootCA (cm : certMgr) (cd : CertData) : M unit :=
  run lift (check cd [requireSubject; requireAlias; validAtLeastYears 1]) in
  create cm (setFlags true true cd).

Definition NewIntermediateCA (cm : certMgr) (cd : CertData) : M unit :=
  run lift (check cd [requireSubject; requireAlias; requireParentAlias;
                      validAtLeastYears 1]) in
  create cm (setFlags false true cd).

Definition NewLeaf (cm : certMgr) (cd : CertData) : M unit :=
  run lift (check cd [requireSubject; requireAlias; requireParentAlias;
                      validAtLeastYears 1]) in
  create cm (setFlags false false cd).

End Certmgr.

(** ** Reading the call log *)

(** The signing calls in a log, most recent first:
    [(template, parent, pub, priv)]. *)
Fixpoint signings (t : list Event)
  : list (x509.Certificate * x509.Certificate * rsa.PublicKey
          * rsa.PrivateKey) :=
  match t with
  | [] => []
  | EvCreateCertificate template parent pub priv :: r =>
      (template, parent, pub, priv) :: signings r
  | _ :: r => signings r
  end.

(** The certificate templates that were signed, most recent first. *)
Definition signed_templates (t : list Event) : list x509.Certificate :=
  map (fun s => fst (fst (fst s))) (signings t).

(** The file writes in a log, most recent first: [(name, data, perm)]. *)
Fixpoint writes (t : list Event) : list (string * list byte * Z) :=
  match t with
  | [] => []
  | EvWriteFile name data perm :: r => (name, data, perm) :: writes r
  | _ :: r => writes r
  end.

(** The three issuance operations of [Interface], as one family. *)
Inductive Operation := OpRootCA | OpIntermediateCA | OpLeaf.

Definition issue {lib : GoLib} (op : Operation) (cm : certMgr) (cd : CertData)
  : M unit :=
  match op with
  | OpRootCA => NewRootCA cm cd
  | OpIntermediateCA => NewIntermediateCA cm cd
  | OpLeaf => NewLeaf cm cd
  end.

(** Which operations issue a CA certificate, and which are chained to a
    parent. *)
Definition issuesCA (op : Operation) : bool :=
  match op with OpLeaf => false | _ => true end.

Definition chained (op : Operation) : bool :=
  match op with OpRootCA => false | _ => true end.

(** The result of a read, without the log entry. *)
Definition readFile (name : string) (w : World) : res (list byte) :=
  fst (os_ReadFile name w).

(** [block == nil || block.Type != ty] after [pem.Decode(data)]. *)
Definition badBlock {lib : GoLib} (data : list byte) (ty : string) : bool :=
  match pem_Decode data with
  | None => true
  | Some block => negb (String.eqb (pem.Type_ block) ty)
  end.

(** The bytes of the block [pem.Decode(data)] returns (empty when nil). *)
Definition blockBytes {lib : GoLib} (data : list byte) : list byte :=
  match pem_Decode data with
  | None => []
  | Some block => pem.Bytes block
  end.

(** [err == nil || os.IsNotExist(err)]: a removal [Delete] lets pass. *)
Definition tolerated (r : res unit) : bool :=
  match r with
  | Ok _ => true
  | Err err => os_IsNotExist err
  end.

(** Nothing to remove at [name]: the path is absent, or resolves to
    nothing. *)
Definition gone (files : gmap string Node) (name : string) : Prop :=
  files !! name = None \/ files !! name = Some (NFault ENOENT).

(** A computation that makes no signing call, and one that leaves the
    store as it is. *)
Definition silent {A} (c : M A) : Prop :=
  forall w, signings (w_trace (snd (c w))) = signings (w_trace w).

Definition readonly {A} (c : M A) : Prop :=
  forall w, w_files (snd (c w)) = w_files w.

(** Every certificate a computation has signed, whatever its outcome,
    satisfies [P]. *)
Definition signs_only {A} (P : x509.Certificate -> Prop) (c : M A) : Prop :=
  forall w, exists new,
    signed_templates (w_trace (snd (c w)))
      = (new ++ signed_templates (w_trace w))%list /\
    Forall P new.

(** The serial number [create] gives the certificate of [cd]. *)
Definition serialOf (cd : CertData) : Z :=
  if Serial cd =? 0 then 0 else Serial cd.


(** ** certmgr.go: the constructor *)

(** [certmgr.New(dir)]. *)
Definition New (dir : string) : certMgr := mkCertMgr dir.

(** ** More of the call log, and frames *)

(** The key generations in a log, most recent first: the bit sizes. *)
Fixpoint keygens (t : list Event) : list Z :=
  match t with
  | [] => []
  | EvGenerateKey bits :: r => bits :: keygens r
  | _ :: r => keygens r
  end.

(** The removals attempted, most recent first. *)
Fixpoint removals (t : list Event) : list string :=
  match t with
  | [] => []
  | EvRemove name :: r => name :: removals r
  | _ :: r => removals r
  end.

(** A computation that leaves the observation [f] of the world as it
    is. *)
Definition keeps {A X} (f : World -> X) (c : M A) : Prop :=
  forall w, f (snd (c w)) = f w.

(** [w'] differs from [w] by reads only: the same store, mask and random
    state, and no write, removal, key generation or signing logged. *)
Definition only_read (w w' : World) : Prop :=
  w_files w' = w_files w /\
  w_umask w' = w_umask w /\
  w_rand w' = w_rand w /\
  writes (w_trace w') = writes (w_trace w) /\
  removals (w_trace w') = removals (w_trace w) /\
  keygens (w_trace w') = keygens (w_trace w) /\
  signings (w_trace w') = signings (w_trace w).

(** A function on the world that only reads it. *)
Definition inert {X} (c : World -> X * World) : Prop :=
  forall w, only_read w (snd (c w)).

(** A computation that changes the store at the paths of [paths] only. *)
Definition touches_only {A} (paths : list string) (c : M A) : Prop :=
  forall w name, name ∉ paths ->
    w_files (snd (c w)) !! name = w_files w !! name.

(** The law of the armor this package relies on: what [pem.Encode] writes
    for a block of type [ty], [pem.Decode] reads back. *)
Definition pem_roundtrip {lib : GoLib} (ty : string) : Prop :=
  forall bytes data,
    pem_Encode (pem.mkBlock ty bytes) = Ok data ->
    pem_Decode data = Some (pem.mkBlock ty bytes).

(** The first error of a list of results, or all the values. *)
Fixpoint sequence_res {A} (l : list (res A)) : res (list A) :=
  match l with
  | [] => Ok []
  | Err e :: _ => Err e
  | Ok v :: r =>
      match sequence_res r with
      | Err e => Err e
      | Ok vs => Ok (v :: vs)
      end
  end.

(** ** github.com/spf13/cobra, as far as the commands use it *)

(** A command over the data [D] its flags fill: the two hooks.  [PreRunE]
    may change the data (the hooks share a pointer); a command without
    [PreRunE] has the hook that does nothing. *)
Record Command (D : Type) := mkCommand {
  PreRunE : D -> D * res unit;
  RunE : D -> M unit;
}.
Arguments mkCommand {D} _ _.
Arguments PreRunE {D} _ _.
Arguments RunE {D} _ _.

Definition noPreRunE {D} (d : D) : D * res unit := (d, Ok tt).

(** Running a command on the data its flags gave: [PreRunE], and [RunE]
    unless [PreRunE] returned an error. *)
Definition cobra_Execute {D} (c : Command D) (d : D) : M unit :=
  let '(d', r) := PreRunE c d in
  match r with
  | Err err => fail err
  | Ok _ => RunE c d'
  end.

(** ** pkg/create *)

Module CreateCmd.

(** [commonCreateData] (the writer [w] is not used by the functions
    below). *)
Record commonCreateData := mkCommonCreateData {
  alias : string;
  parent : string;
  validYears : Z;
  subject : pkix.Name;
  issuer : pkix.Name;
  bits : Z;
  dir : string;
  serial : Z;
}.

Record createLeafData := mkCreateLeafData {
  leafCommon : commonCreateData;   (* the embedded [commonCreateData] *)
  ipSan : list (list byte);
  dnsSan : list string;
}.


Section Create.
Context {lib : GoLib}.


Definition createLeaf (d : createLeafData) : M unit :=
  let cm := New (dir (leafCommon d)) in
  let cd :=
    mkCertData (bits (leafCommon d)) (validYears (leafCommon d)) (ipSan d)
               (dnsSan d) (alias (leafCommon d)) (parent (leafCommon d))
               false false (issuer (leafCommon d)) (subject (leafCommon d))
               (serial (leafCommon d)) in
  NewLeaf cm cd.




Definition newLeafSubCommand : Command createLeafData :=
  mkCommand noPreRunE createLeaf.

End Create.
End CreateCmd.

(** ** pkg/remove *)

Module RemoveCmd.

Record removeData := mkRemoveData {
  dir : string;
  alias : string;
}.

Definition remove (d : removeData) : M unit :=
  let cm := New (dir d) in
  Delete cm (alias d).

Definition validate (d : removeData) : removeData * res unit :=
  if (String.length (alias d) =? 0)%nat then (d, Err ErrAliasMissing)
  else (d, Ok tt).

Definition NewCommand : Command removeData := mkCommand validate remove.

End RemoveCmd.

(** ** More of github.com/samber/lo, and [strings.Join] *)

(** [lo.FilterMap(collection, callback)]: the values [callback] returns
    with [true], in order. *)
Fixpoint lo_FilterMap_from {A B} (i : nat) (callback : A -> nat -> B * bool)
    (collection : list A) : list B :=
  match collection with
  | [] => []
  | x :: r =>
      let '(y, ok) := callback x i in
      if ok then y :: lo_FilterMap_from (S i) callback r
      else lo_FilterMap_from (S i) callback r
  end.
Definition lo_FilterMap {A B} (collection : list A)
    (callback : A -> nat -> B * bool) : list B :=
  lo_FilterMap_from 0 callback collection.

(** [lo.Contains(collection, element)]. *)
Fixpoint lo_Contains {A} `{EqDecision A} (collection : list A) (element : A)
  : bool :=
  match collection with
  | [] => false
  | x :: r => if decide (x = element) then true else lo_Contains r element
  end.

(** [lo.Keys(m)] returns the keys of the map in the order Go iterates it,
    which is not specified: [keys] is a possible result. *)
Definition lo_Keys {K V} `{Countable K} (m : gmap K V) (keys : list K)
  : Prop :=
  keys ≡ₚ (map_to_list m).*1.

(** [strings.Join(elems, sep)]. *)
Fixpoint strings_Join (elems : list string) (sep : string) : string :=
  match elems with
  | [] => ""
  | [x] => x
  | x :: r => x ++ sep ++ strings_Join r sep
  end.

(** ** pkg/show *)

#[global] Instance ExtKeyUsage_eq_dec : EqDecision x509.ExtKeyUsage.
Proof. solve_decision. Defined.

Definition ExtKeyUsage_to_nat (u : x509.ExtKeyUsage) : nat :=
  match u with
  | x509.ExtKeyUsageAny => 0
  | x509.ExtKeyUsageServerAuth => 1
  | x509.ExtKeyUsageClientAuth => 2
  | x509.ExtKeyUsageCodeSigning => 3
  | x509.ExtKeyUsageEmailProtection => 4
  | x509.ExtKeyUsageTimeStamping => 5
  end.

Definition ExtKeyUsage_of_nat (n : nat) : x509.ExtKeyUsage :=
  match n with
  | 1 => x509.ExtKeyUsageServerAuth
  | 2 => x509.ExtKeyUsageClientAuth
  | 3 => x509.ExtKeyUsageCodeSigning
  | 4 => x509.ExtKeyUsageEmailProtection
  | 5 => x509.ExtKeyUsageTimeStamping
  | _ => x509.ExtKeyUsageAny
  end%nat.

#[global] Instance ExtKeyUsage_countable : Countable x509.ExtKeyUsage.
Proof.
  refine (inj_countable' ExtKeyUsage_to_nat ExtKeyUsage_of_nat _).
  intros []; reflexivity.
Defined.

Module ShowCmd.

Record showData := mkShowData {
  alias : string;
  dir : string;
  tree : bool;
}.

Definition kuMap : gmap Z string :=
  {[ x509.KeyUsageDigitalSignature := "KeyUsageDigitalSignature";
     x509.KeyUsageDataEncipherment := "KeyUsageDataEncipherment";
     x509.KeyUsageCertSign := "KeyUsageCertSign";
     x509.KeyUsageCRLSign := "KeyUsageCRLSign" ]}.

Definition ekuMap : gmap x509.ExtKeyUsage string :=
  {[ x509.ExtKeyUsageClientAuth := "ExtKeyUsageClientAuth";
     x509.ExtKeyUsageServerAuth := "ExtKeyUsageServerAuth";
     x509.ExtKeyUsageCodeSigning := "ExtKeyUsageCodeSigning";
     x509.ExtKeyUsageTimeStamping := "ExtKeyUsageTimeStamping";
     x509.ExtKeyUsageEmailProtection := "ExtKeyUsageEmailProtection";
     x509.ExtKeyUsageAny := "ExtKeyUsageAny" ]}.

(** The labels [props["Key usage"]] joins; [keys] is what
    [lo.Keys(kuMap)] returned.  [kuMap[item]] is the empty string for a
    key that is not in the map. *)
Definition keyUsageLabels (keys : list Z) (holder : PairHolder)
  : list string :=
  lo_FilterMap keys
    (fun item _ =>
       if Z.land item (x509.KeyUsage (Cert holder)) =? item
       then (default "" (kuMap !! item), true)
       else ("", false)).

(** [props["Key usage"]]. *)
Definition props_KeyUsage (keys : list Z) (holder : PairHolder) : string :=
  strings_Join (keyUsageLabels keys holder) ",".

(** The labels [props["Ext. key usage"]] joins; [keys] is what
    [lo.Keys(ekuMap)] returned. *)
Definition extKeyUsageLabels (keys : list x509.ExtKeyUsage)
    (holder : PairHolder) : list string :=
  lo_FilterMap keys
    (fun item _ =>
       if lo_Contains (x509.ExtKeyUsages (Cert holder)) item
       then (default "" (ekuMap !! item), true)
       else ("", false)).

(** [props["Ext. key usage"]]. *)
Definition props_ExtKeyUsage (keys : list x509.ExtKeyUsage)
    (holder : PairHolder) : string :=
  strings_Join (extKeyUsageLabels keys holder) ",".

Definition validate (d : showData) : showData * res unit :=
  if (String.length (alias d) =? 0)%nat then (d, Err ErrAliasMissing)
  else (d, Ok tt).

(** [show]: [showTable] writes the table to [d.w], which is no part of
    the world, and returns nothing; the error of [show] is that of
    [Get]. *)
Definition show {lib : GoLib} (d : showData) : M unit :=
  let cm := New (dir d) in
  let* ph := Get cm (alias d) in
  ret tt.

Definition NewCommand {lib : GoLib} : Command showData :=
  mkCommand validate show.

End ShowCmd.

(** ** pkg/list *)

(** A table of [tablewriter]: the header and the rows appended. *)
Record Table := mkTable {
  tableHeader : list string;
  tableRows : list (list string);
}.

(** What [list] needs beside [GoLib]: the text of a time, and the
    rendering of the table to the writer (which is no part of the world)
    with the error it returns. *)
Class GoText := {
  time_Time_String : Z -> string;
  tablewriter_Render : Table -> res unit;
}.

Module ListCmd.

Record listData := mkListData {
  dir : string;
}.

Section ListCommand.
Context {lib : GoLib} {text : GoText}.

(** [tbl.Append(row)]. *)
Definition tableAppend (tbl : Table) (row : list string) : Table :=
  mkTable (tableHeader tbl) (tableRows tbl ++ [row])%list.

(** The row of a pair. *)
Definition pairRow (ch : PairHolder) : list string :=
  [ pkix_Name_String (x509.Subject (Cert ch));
    pkix_Name_String (x509.Issuer (Cert ch));
    time_Time_String (x509.NotAfter (Cert ch)) ].

(** The loop [for _, ent := range ents] of [list]. *)
Fixpoint listLoop (cm : certMgr) (ents : list string) (tbl : Table)
  : M Table :=
  match ents with
  | [] => ret tbl
  | ent :: rest =>
      let* ch := Get cm ent in
      listLoop cm rest (tableAppend tbl (pairRow ch))
  end.

Definition list (d : listData) : M unit :=
  let cm := New (dir d) in
  let* ents := List cm in
  let tbl := mkTable ["Subject"; "Issuer"; "Valid to"] [] in
  let* tbl := listLoop cm ents tbl in
  lift (tablewriter_Render tbl).

Definition NewCommand : Command listData := mkCommand noPreRunE list.

End ListCommand.
End ListCmd.

(** ** A stand-in for the library, to run the code on examples *)

Module Standin.

(** One relative distinguished name, [TYPE=v1+TYPE=v2]. *)
Fixpoint rdn (ty : string) (values : list string) : string :=
  match values with
  | [] => ""
  | [v] => ty ++ "=" ++ v
  | v :: r => ty ++ "=" ++ v ++ "+" ++ rdn ty r
  end.

Fixpoint joinNonEmpty (l : list string) : string :=
  match l with
  | [] => ""
  | x :: r =>
      let rest := joinNonEmpty r in
      if String.eqb x "" then rest
      else if String.eqb rest "" then x
      else x ++ "," ++ rest
  end.

(** [pkix.Name.String()] without the escaping of special characters: the
    attributes in reverse order of [ToRDNSequence]. *)
Definition Name_String (n : pkix.Name) : string :=
  joinNonEmpty
    [ rdn "CN" (if String.eqb (pkix.CommonName n) "" then []
                else [pkix.CommonName n]);
      rdn "OU" (pkix.OrganizationalUnit n);
      rdn "O" (pkix.Organization n);
      rdn "POSTALCODE" (pkix.PostalCode n);
      rdn "STREET" (pkix.StreetAddress n);
      rdn "L" (pkix.Locality n);
      rdn "ST" (pkix.Province n);
      rdn "C" (pkix.Country n) ].

(** A one-line armor: the block type, a line feed, the bytes. *)
Definition Encode (b : pem.Block) : res (list byte) :=
  Ok (list_byte_of_string (pem.Type_ b) ++ [x0a] ++ pem.Bytes b)%list.

Fixpoint splitLine (data : list byte) : option (list byte * list byte) :=
  match data with
  | [] => None
  | c :: r =>
      if Byte.eqb c x0a then Some ([], r)
      else match splitLine r with
           | Some (l, rest) => Some (c :: l, rest)
           | None => None
           end
  end.

Definition Decode (data : list byte) : option pem.Block :=
  match splitLine data with
  | Some (ty, bytes) => Some (pem.mkBlock (string_of_list_byte ty) bytes)
  | None => None
  end.

(** The encoding of a certificate keeps the subject's common name only. *)
Definition ParseCertificate (der : list byte) : res x509.Certificate :=
  match der with
  | [] => Err (LibError "x509" "malformed certificate")
  | _ =>
      Ok (x509.mkCertificate
            (pkix.mkName [] [] [] [] [] [] [] (string_of_list_byte der))
            pkix.empty 0 0 false 0 false None [] [] [])
  end.

Definition ParsePKCS1PrivateKey (der : list byte) : res rsa.PrivateKey :=
  match der with
  | [] => Err (LibError "x509" "failed to parse private key")
  | _ =>
      Ok (rsa.mkPrivateKey
            (rsa.mkPublicKey (Z.of_nat (List.length der)) 65537) 1)
  end.

Definition MarshalPKCS1PrivateKey (k : rsa.PrivateKey) : list byte :=
  list_byte_of_string "key".

Definition GenerateKey (rnd : N) (bits : Z) : res rsa.PrivateKey * N :=
  if bits <? 2
  then (Err (LibError "rsa" "too few primes of given length"), rnd)
  else (Ok (rsa.mkPrivateKey (rsa.mkPublicKey (Z.of_N rnd + 3) 65537) 1),
        (rnd + 1)%N).

Definition CreateCertificate (rnd : N) (template parent : x509.Certificate)
    (pub : rsa.PublicKey) (priv : rsa.PrivateKey) : res (list byte) * N :=
  (Ok (list_byte_of_string (pkix.CommonName (x509.Subject template))), rnd).

Definition AddDate (t years months days : Z) : Z :=
  t + ((years * 12 + months) * 30 + days) * 86400.

Definition lib : GoLib :=
  Build_GoLib Name_String Decode Encode ParseCertificate
    ParsePKCS1PrivateKey MarshalPKCS1PrivateKey GenerateKey
    CreateCertificate AddDate.

(** The scenario: a store directory, a root CA, an intermediate CA, a
    leaf. *)
Definition cm : certMgr := mkCertMgr "/pki".

Definition cn (s : string) : pkix.Name := pkix.mkName [] [] [] [] [] [] [] s.

Definition w0 : World :=
  mkWorld {[ "/pki" := NDir ]} (octal 0 2 2) 7%N
          (fun n => 1700000000 + Z.of_nat n) 0 [].

Definition cdRoot : CertData :=
  mkCertData 4096 10 [] [] "root" "" false false (cn "Root") (cn "Root") 0.

Definition cdIm : CertData :=
  mkCertData 4096 5 [] [] "im" "root" true false (cn "Somebody else")
             (cn "Intermediate") 42.

Definition cdLeaf : CertData :=
  mkCertData 2048 1 [[x7f; x00; x00; x01]] ["srv.example.com"] "srv" "im"
             true true (cn "Somebody else") (cn "srv") 0.

Definition w1 : World := snd (NewRootCA (lib := lib) cm cdRoot w0).
Definition w2 : World := snd (NewIntermediateCA (lib := lib) cm cdIm w1).
Definition w3 : World := snd (NewLeaf (lib := lib) cm cdLeaf w2).

(** A descriptor with neither subject nor alias. *)
Definition cdBlank : CertData :=
  mkCertData 2048 1 [] [] "" "root" false false pkix.empty pkix.empty 0.

(** A descriptor with a subject and no alias. *)
Definition cdNoAlias : CertData :=
  mkCertData 2048 1 [] [] "" "root" false false pkix.empty (cn "srv") 0.

(** A store where the certificate file of [bad] holds no block and its
    key file is missing. *)
Definition wBad : World :=
  mkWorld {[ "/pki" := NDir;
             "/pki/bad.pem" := NFile (octal 6 4 0)
                                (list_byte_of_string "garbage") ]}
          (octal 0 2 2) 0%N (fun _ => 0) 0 [].

(** A store where the certificate file of [locked] cannot be touched. *)
Definition wLocked : World :=
  mkWorld {[ "/pki" := NDir;
             "/pki/locked.pem" := NFault EACCES;
             "/pki/locked.key" := NFile (octal 4 0 0) [] ]}
          (octal 0 2 2) 0%N (fun _ => 0) 0 [].

(** A text of a time and a renderer that fails on a table without
    rows. *)
Definition text : GoText :=
  Build_GoText (fun t => if t =? 0 then "never" else "later")
    (fun tbl => match tableRows tbl with
                | [] => Err (LibError "tablewriter" "no rows")
                | _ => Ok tt
                end).

(** The store of the scenario with a stray key file. *)
Definition wStray : World :=
  set_files (<["/pki/stray.key" := NFile (octal 4 0 0) [x30]]> (w_files w3))
            w3.


(** A leaf request whose parent does not exist. *)
Definition cdOrphan : CertData :=
  mkCertData 2048 1 [] [] "orphan" "nobody" false false pkix.empty
             (cn "orphan") 0.

(** The command line of the scenario's leaf. *)
Definition leafFlags : CreateCmd.createLeafData :=
  CreateCmd.mkCreateLeafData
    (CreateCmd.mkCommonCreateData "srv" "im" 1 (cn "srv") pkix.empty 2048
                                  "/pki" 0)
    [[x7f; x00; x00; x01]] ["srv.example.com"].

(** What the parsers of the stand-in make of a stored pair. *)
Definition stored (name : string) : PairHolder :=
  mkPairHolder
    (x509.mkCertificate (cn name) pkix.empty 0 0 false 0 false None [] [] [])
    (rsa.mkPrivateKey (rsa.mkPublicKey 3 65537) 1).


End Standin.

Example scenario_runs :
  fst (NewRootCA (lib := Standin.lib) Standin.cm Standin.cdRoot Standin.w0) = Ok tt /\
  fst (NewIntermediateCA (lib := Standin.lib) Standin.cm Standin.cdIm Standin.w1) = Ok tt /\
  fst (NewLeaf (lib := Standin.lib) Standin.cm Standin.cdLeaf Standin.w2) = Ok tt /\
  fst (List Standin.cm Standin.w3) = Ok ["im"; "root"; "srv"].
Proof. vm_compute. repeat split; reflexivity. Qed.

(** ** Go strings: slicing and suffixes *)

Section Strings.

Lemma string_length_app (a b : string) :
  String.length (a ++ b) = (String.length a + String.length b)%nat.
Proof. induction a as [|c a IH]; simpl; [reflexivity | now rewrite IH]. Qed.

Lemma substring_all (s : string) : substring 0 (String.length s) s = s.
Proof. induction s as [|c s IH]; simpl; [reflexivity | now rewrite IH]. Qed.

Lemma substring_app_l (a b : string) :
  substring 0 (String.length a) (a ++ b) = a.
Proof.
  induction a as [|c a IH]; simpl.
  - destruct b; reflexivity.
  - now rewrite IH.
Qed.

Lemma substring_app_r (a b : string) :
  substring (String.length a) (String.length b) (a ++ b) = b.
Proof. induction a as [|c a IH]; simpl; [apply substring_all | exact IH]. Qed.

(** A string is its slice [s[0:n]] followed by [s[n:]]. *)
Lemma substring_split (s : string) (n : nat) :
  (n <= String.length s)%nat ->
  s = substring 0 n s ++ substring n (String.length s - n) s.
Proof.
  revert n; induction s as [|c s IH]; intros [|n] Hn; simpl in *.
  - reflexivity.
  - lia.
  - now rewrite substring_all.
  - change (String c s =
            String c (substring 0 n s ++ substring n (String.length s - n) s)).
    f_equal. apply IH. lia.
Qed.

(** [strings.HasSuffix] holds exactly of the strings [a ++ suffix], and
    then [a] is the slice [s[0 : len(s)-len(suffix)]]. *)
Lemma strings_HasSuffix_spec (s suffix : string) :
  strings_HasSuffix s suffix = true <-> exists a, s = a ++ suffix.
Proof.
  unfold strings_HasSuffix. rewrite andb_true_iff, Nat.leb_le, String.eqb_eq.
  split.
  - intros [Hle Hsub].
    exists (substring 0 (String.length s - String.length suffix) s).
    pose proof (substring_split s (String.length s - String.length suffix)
                  ltac:(lia)) as Hs.
    replace (String.length s - (String.length s - String.length suffix))%nat
      with (String.length suffix) in Hs by lia.
    rewrite Hsub in Hs. exact Hs.
  - intros [a ->]. rewrite string_length_app. split; [lia|].
    replace (String.length a + String.length suffix - String.length suffix)%nat
      with (String.length a) by lia.
    apply substring_app_r.
Qed.

Lemma strip_suffix (a suffix : string) :
  substring 0 (String.length (a ++ suffix) - String.length suffix)
            (a ++ suffix) = a.
Proof.
  rewrite string_length_app.
  replace (String.length a + String.length suffix - String.length suffix)%nat
    with (String.length a) by lia.
  apply substring_app_l.
Qed.

Lemma string_app_assoc_r (a b c : string) : a ++ b ++ c = (a ++ b) ++ c.
Proof.
  induction a as [|x a IH]; [reflexivity|].
  change (String x (a ++ b ++ c) = String x ((a ++ b) ++ c)). now rewrite IH.
Qed.

End Strings.

(** ** The monad *)

Section MonadLemmas.
Context {A B : Type}.

Lemma bind_inv (c : M A) (k : A -> M B) w r w' :
  bind c k w = (r, w') ->
  (exists v w1, c w = (Ok v, w1) /\ k v w1 = (r, w')) \/
  (exists e, c w = (Err e, w') /\ r = Err e).
Proof.
  unfold bind. destruct (c w) as [[v|e] w1]; intros H.
  - left. eauto.
  - right. inversion H; subst. eauto.
Qed.

Lemma bind_Ok_inv (c : M A) (k : A -> M B) w v' w' :
  bind c k w = (Ok v', w') ->
  exists v w1, c w = (Ok v, w1) /\ k v w1 = (Ok v', w').
Proof.
  intros H. apply bind_inv in H as [H | (e & _ & He)]; [exact H | discriminate].
Qed.

Lemma run_Ok_tt (c : M unit) w : fst (c w) = Ok tt -> c w = (Ok tt, snd (c w)).
Proof. destruct (c w) as [r w1]. cbn. now intros ->. Qed.

End MonadLemmas.

(** ** Alias storage *)

Section Storage.

(** C9: [doesAliasFileExist] answers false exactly when the stat of the
    alias's path fails with a not-found error; it answers true when the stat
    succeeds and also when it fails with any other error. *)
Theorem doesAliasFileExist_collapses cm alias private w :
  let name := aliasToFile cm alias private in
  (fst (doesAliasFileExist cm alias private w) = false <->
   exists err, fst (os_Stat name w) = Err err /\ os_IsNotExist err = true) /\
  (fst (os_Stat name w) = Ok tt ->
   fst (doesAliasFileExist cm alias private w) = true) /\
  (forall err, fst (os_Stat name w) = Err err -> os_IsNotExist err = false ->
   fst (doesAliasFileExist cm alias private w) = true).
Proof.
  intros name. unfold doesAliasFileExist. fold name.
  destruct (os_Stat name w) as [[[]|e] w'] eqn:Hs; cbn.
  - split; [|split].
    + split; [discriminate | intros (err & H & _); discriminate].
    + reflexivity.
    + intros err H; discriminate.
  - split; [|split].
    + split.
      * intros H. exists e. split; [reflexivity|].
        now apply negb_false_iff.
      * intros (err & [= <-] & H). now rewrite H.
    + discriminate.
    + intros err [= <-] H. now rewrite H.
Qed.

(** The three answers on a store: a missing file, a file, a path that
    cannot be examined. *)
Example doesAliasFileExist_examples :
  fst (doesAliasFileExist Standin.cm "nobody" true Standin.wLocked) = false /\
  fst (doesAliasFileExist Standin.cm "locked" true Standin.wLocked) = true /\
  fst (os_Stat "/pki/locked.pem" Standin.wLocked)
    = Err (PathError "stat" "/pki/locked.pem" EACCES) /\
  fst (doesAliasFileExist Standin.cm "locked" false Standin.wLocked) = true.
Proof. vm_compute. repeat split; reflexivity. Qed.

(** *** Delete *)

Lemma aliasToFile_key_ne_cert cm alias :
  aliasToFile cm alias true <> aliasToFile cm alias false.
Proof.
  unfold aliasToFile. intros H.
  do 3 apply String.app_inj in H. discriminate.
Qed.

Lemma os_Remove_snd_files name w :
  w_files (snd (os_Remove name w)) =
  if isOk (fst (os_Remove name w)) then delete name (w_files w)
  else w_files w.
Proof.
  unfold os_Remove. cbn.
  destruct (w_files w !! name) as [[| |]|]; try reflexivity.
  destruct (has_children (w_files w) name); reflexivity.
Qed.

Lemma os_Remove_tolerated name w :
  tolerated (fst (os_Remove name w)) = true ->
  gone (w_files (snd (os_Remove name w))) name.
Proof.
  rewrite os_Remove_snd_files. unfold os_Remove, gone. cbn.
  destruct (w_files w !! name) as [[| |[]]|] eqn:Hl; cbn;
    try discriminate; try (intros _; left; apply lookup_delete_eq);
    try (intros _; now auto).
  destruct (has_children (w_files w) name); cbn; [discriminate|].
  intros _; left; apply lookup_delete_eq.
Qed.

Lemma os_Remove_keeps_gone name name' w :
  gone (w_files w) name' -> gone (w_files (snd (os_Remove name w))) name'.
Proof.
  rewrite os_Remove_snd_files. unfold gone.
  destruct (isOk (fst (os_Remove name w))); [|tauto].
  destruct (decide (name = name')) as [->|Hne].
  - intros _. left. apply lookup_delete_eq.
  - now rewrite lookup_delete_ne.
Qed.

Lemma os_Remove_gone name w :
  gone (w_files w) name ->
  fst (os_Remove name w) = Err (PathError "remove" name ENOENT).
Proof.
  unfold gone, os_Remove. cbn. intros [-> | ->]; reflexivity.
Qed.

Lemma Delete_unfold cm alias w :
  Delete cm alias w =
  let s1 := os_Remove (aliasToFile cm alias true) w in
  if tolerated (fst s1) then
    let s2 := os_Remove (aliasToFile cm alias false) (snd s1) in
    if tolerated (fst s2) then (Ok tt, snd s2) else s2
  else s1.
Proof.
  unfold Delete, bind, unlessNotExist, ret. cbn zeta.
  destruct (os_Remove (aliasToFile cm alias true) w) as [[[]|e1] w1]; cbn.
  - destruct (os_Remove (aliasToFile cm alias false) w1) as [[[]|e2] w2];
      cbn; [reflexivity|]. destruct (os_IsNotExist e2); reflexivity.
  - destruct (os_IsNotExist e1); cbn; [|reflexivity].
    destruct (os_Remove (aliasToFile cm alias false) w1) as [[[]|e2] w2];
      cbn; [reflexivity|]. destruct (os_IsNotExist e2); reflexivity.
Qed.

Lemma Delete_gone cm alias w :
  gone (w_files w) (aliasToFile cm alias true) ->
  gone (w_files w) (aliasToFile cm alias false) ->
  fst (Delete cm alias w) = Ok tt /\
  w_files (snd (Delete cm alias w)) = w_files w.
Proof.
  intros Hk Hc. rewrite Delete_unfold. cbn zeta.
  pose proof (os_Remove_snd_files (aliasToFile cm alias true) w) as Hf1.
  rewrite (os_Remove_gone _ _ Hk) in *. cbn in Hf1 |- *.
  assert (Hc' : gone (w_files (snd (os_Remove (aliasToFile cm alias true) w)))
                     (aliasToFile cm alias false)) by now rewrite Hf1.
  pose proof (os_Remove_snd_files (aliasToFile cm alias false)
                (snd (os_Remove (aliasToFile cm alias true) w))) as Hf2.
  rewrite (os_Remove_gone _ _ Hc') in *. cbn in Hf2 |- *.
  split; [reflexivity | congruence].
Qed.

(** C6: [Delete] returns nil whenever each of the two removals succeeds or
    fails with not-found, and a second [Delete] then returns nil again, as
    does any [Delete] of an alias that never existed; a removal that fails
    otherwise has its error returned at once: by the first removal with the
    certificate file untouched, by the second with the key file already
    removed. *)
Theorem Delete_ignores_not_found cm alias w :
  let key := aliasToFile cm alias true in
  let cert := aliasToFile cm alias false in
  let r1 := fst (os_Remove key w) in
  let w1 := snd (os_Remove key w) in
  let r2 := fst (os_Remove cert w1) in
  let w2 := snd (os_Remove cert w1) in
  (tolerated r1 = true -> tolerated r2 = true ->
   Delete cm alias w = (Ok tt, w2) /\ fst (Delete cm alias w2) = Ok tt) /\
  (w_files w !! key = None -> w_files w !! cert = None ->
   fst (Delete cm alias w) = Ok tt /\
   fst (Delete cm alias (snd (Delete cm alias w))) = Ok tt) /\
  (tolerated r1 = false ->
   Delete cm alias w = (r1, w1) /\ w_files w1 = w_files w) /\
  (tolerated r1 = true -> tolerated r2 = false ->
   Delete cm alias w = (r2, w2) /\
   w_files w2 = if isOk r1 then delete key (w_files w) else w_files w).
Proof.
  intros key cert r1 w1 r2 w2.
  assert (Hfirst : tolerated r1 = true -> tolerated r2 = true ->
            Delete cm alias w = (Ok tt, w2) /\ fst (Delete cm alias w2) = Ok tt).
  { intros H1 H2. split.
    - rewrite Delete_unfold. cbn zeta. fold key cert r1 w1. rewrite H1.
      fold r2 w2. now rewrite H2.
    - apply Delete_gone; fold key cert.
      + apply os_Remove_keeps_gone. now apply os_Remove_tolerated.
      + now apply os_Remove_tolerated. }
  split; [exact Hfirst|]. split; [|split].
  - intros Hk Hc.
    assert (Hg : gone (w_files w) key /\ gone (w_files w) cert)
      by (split; left; assumption).
    destruct Hg as [Hgk Hgc].
    destruct (Delete_gone cm alias w Hgk Hgc) as [Hd Hf]. split; [exact Hd|].
    apply Delete_gone; rewrite Hf; assumption.
  - intros H1. split.
    + rewrite Delete_unfold. cbn zeta. fold key r1. rewrite H1.
      subst r1 w1. now destruct (os_Remove key w).
    + subst w1. rewrite os_Remove_snd_files. fold r1.
      destruct r1 as [[]|e]; [discriminate | reflexivity].
  - intros H1 H2. split.
    + rewrite Delete_unfold. cbn zeta. fold key cert r1 w1. rewrite H1.
      fold r2. rewrite H2. subst r2 w2.
      now destruct (os_Remove cert w1).
    + subst w2. rewrite os_Remove_snd_files. fold r2.
      destruct r2 as [[]|e]; [discriminate|]. cbn.
      subst w1. apply os_Remove_snd_files.
Qed.

(** A partial deletion: the key file of [locked] goes, the error of the
    certificate file comes back. *)
Example Delete_examples :
  fst (Delete Standin.cm "locked" Standin.wLocked)
    = Err (PathError "remove" "/pki/locked.pem" EACCES) /\
  w_files (snd (Delete Standin.cm "locked" Standin.wLocked))
    !! "/pki/locked.key" = None /\
  w_trace (snd (Delete Standin.cm "locked" Standin.wLocked))
    = [EvRemove "/pki/locked.pem"; EvRemove "/pki/locked.key"] /\
  fst (Delete Standin.cm "srv" Standin.w3) = Ok tt /\
  fst (Delete Standin.cm "srv" (snd (Delete Standin.cm "srv" Standin.w3)))
    = Ok tt /\
  fst (List Standin.cm (snd (Delete Standin.cm "srv" Standin.w3)))
    = Ok ["im"; "root"].
Proof. vm_compute. repeat split; reflexivity. Qed.

End Storage.

(** ** Directory query *)

Section DirectoryQuery.

Lemma lo_Filter_from_filter {A} (p : A -> bool) (l : list A) i :
  lo_Filter_from i (fun x _ => p x) l = List.filter p l.
Proof.
  revert i; induction l as [|x l IH]; intros i; cbn; [reflexivity|].
  rewrite IH. reflexivity.
Qed.

Lemma isAliasFilename_spec file :
  isAliasFilename file = true <->
  exists a, file = a ++ ".pem" \/ file = a ++ ".key".
Proof.
  unfold isAliasFilename. rewrite orb_true_iff, !strings_HasSuffix_spec.
  split.
  - intros [[a H] | [a H]]; exists a; auto.
  - intros [a [H | H]]; [left | right]; exists a; exact H.
Qed.

(** On a name the filter lets through, [fileToAlias] does not panic and
    strips the suffix. *)
Lemma fileToAlias_strips a suffix :
  String.length suffix = 4%nat -> fileToAlias (a ++ suffix) = Ok a.
Proof.
  intros Hl. unfold fileToAlias. rewrite string_length_app, Hl.
  destruct (Nat.ltb_spec (String.length a + 4) 4); [lia|].
  f_equal. rewrite <- Hl, <- string_length_app. apply strip_suffix.
Qed.

Lemma fileToAlias_alias file :
  isAliasFilename file = true ->
  exists a, fileToAlias file = Ok a /\
            (file = a ++ ".pem" \/ file = a ++ ".key").
Proof.
  intros H. apply isAliasFilename_spec in H as [a [-> | ->]];
    exists a; (split; [now apply fileToAlias_strips | auto]).
Qed.

Lemma fileToAlias_iff file a :
  isAliasFilename file = true ->
  fileToAlias file = Ok a <-> file = a ++ ".pem" \/ file = a ++ ".key".
Proof.
  intros H. split.
  - intros Ha. destruct (fileToAlias_alias _ H) as (a' & Ha' & Hn).
    rewrite Ha in Ha'. now inversion Ha'; subst.
  - intros [-> | ->]; now apply fileToAlias_strips.
Qed.

(** [lo.Map] over the filtered entries returns, without a panic, the list
    of stripped names. *)
Lemma lo_Map_from_aliases (l : list DirEntry) i :
  Forall (fun e => isAliasFilename (Name e) = true) l ->
  exists names,
    lo_Map_from i (fun item _ => fileToAlias (Name item)) l = Ok names /\
    forall a, a ∈ names <->
      exists e, e ∈ l /\ (Name e = a ++ ".pem" \/ Name e = a ++ ".key").
Proof.
  revert i; induction l as [|e l IH]; intros i Hall.
  - exists []. split; [reflexivity|]. intros a. split.
    + intros H. inversion H.
    + intros (e & H & _). inversion H.
  - apply Forall_cons in Hall as [He Hl].
    destruct (fileToAlias_alias _ He) as (a0 & Ha0 & Hname).
    destruct (IH (S i) Hl) as (names & Hn & Hmem).
    exists (a0 :: names). split.
    + cbn. rewrite Ha0, Hn. reflexivity.
    + intros a. rewrite elem_of_cons, Hmem. split.
      * intros [-> | (e' & He' & Hn')].
        -- exists e. split; [left|]; auto.
        -- exists e'. split; [right|]; auto.
      * intros (e' & He' & Hn'). apply elem_of_cons in He' as [-> | He'].
        -- left. apply (fileToAlias_iff _ _ He) in Hn'. congruence.
        -- right. eauto.
Qed.

Lemma lo_Uniq_from_spec (seen : gset string) (l : list string) :
  NoDup (lo_Uniq_from seen l) /\
  forall a, a ∈ lo_Uniq_from seen l <-> a ∈ l /\ a ∉ seen.
Proof.
  revert seen; induction l as [|x l IH]; intros seen; cbn.
  - split; [constructor|]. intros a. split.
    + intros H; inversion H.
    + intros [H _]; inversion H.
  - destruct (decide (x ∈ seen)) as [Hin | Hnin].
    + destruct (IH seen) as [Hnd Hmem]. split; [exact Hnd|].
      intros a. rewrite Hmem, elem_of_cons. split; [tauto|].
      intros [[-> | H] Hs]; [contradiction | tauto].
    + destruct (IH ({[x]} ∪ seen)) as [Hnd Hmem]. split.
      * constructor; [|exact Hnd]. rewrite Hmem. intros [_ H]. apply H.
        apply elem_of_union_l, elem_of_singleton. reflexivity.
      * intros a. rewrite !elem_of_cons, Hmem, elem_of_union, elem_of_singleton.
        destruct (decide (a = x)) as [-> | Hne]; tauto.
Qed.

Lemma lo_Uniq_spec (l : list string) :
  NoDup (lo_Uniq l) /\ forall a, a ∈ lo_Uniq l <-> a ∈ l.
Proof.
  destruct (lo_Uniq_from_spec ∅ l) as [Hnd Hmem]. split; [exact Hnd|].
  intros a. unfold lo_Uniq. rewrite Hmem, elem_of_empty. tauto.
Qed.

Lemma os_ReadDir_fst_snd name w :
  os_ReadDir name w = (fst (os_ReadDir name w), log (EvReadDir name) w).
Proof.
  unfold os_ReadDir. cbn. destruct (w_files w !! name) as [[| |]|];
    reflexivity.
Qed.

(** C7: when the directory can be read, [List] returns a duplicate-free
    list whose members are exactly the names [a] such that the directory
    has an entry [a.pem] or an entry [a.key]; an alias with both files is
    therefore listed once. *)
Theorem List_exact cm w entries :
  fst (os_ReadDir (dir cm) w) = Ok entries ->
  exists aliases,
    fst (List cm w) = Ok aliases /\
    NoDup aliases /\
    (forall a, a ∈ aliases <->
       exists e, e ∈ entries /\
                 (Name e = a ++ ".pem" \/ Name e = a ++ ".key")) /\
    (forall a e1 e2, e1 ∈ entries -> e2 ∈ entries ->
       Name e1 = a ++ ".pem" -> Name e2 = a ++ ".key" ->
       List.length (List.filter (String.eqb a) aliases) = 1%nat).
Proof.
  intros Hread.
  set (kept := List.filter (fun e => isAliasFilename (Name e)) entries).
  assert (Hkept : Forall (fun e => isAliasFilename (Name e) = true) kept).
  { apply Forall_forall. intros e He. subst kept.
    apply list_elem_of_In, filter_In in He. tauto. }
  destruct (lo_Map_from_aliases kept 0 Hkept) as (names & Hnames & Hmem).
  destruct (lo_Uniq_spec names) as [Hnd Huniq].
  assert (Hin : forall a, a ∈ lo_Uniq names <->
            exists e, e ∈ entries /\
                      (Name e = a ++ ".pem" \/ Name e = a ++ ".key")).
  { intros a. rewrite Huniq, Hmem. split.
    - intros (e & He & Hn). exists e. split; [|exact Hn].
      subst kept. apply list_elem_of_In, filter_In in He as [He _].
      now apply list_elem_of_In.
    - intros (e & He & Hn). exists e. split; [|exact Hn].
      subst kept. apply list_elem_of_In, filter_In. split.
      + now apply list_elem_of_In.
      + apply isAliasFilename_spec. eauto. }
  exists (lo_Uniq names). split; [|split; [exact Hnd | split; [exact Hin|]]].
  - unfold List, bind. rewrite os_ReadDir_fst_snd, Hread.
    unfold lift, lo_Map, lo_Filter. rewrite lo_Filter_from_filter.
    fold kept. rewrite Hnames. reflexivity.
  - intros a e1 e2 He1 _ Hn1 _.
    assert (Ha : a ∈ lo_Uniq names) by (apply Hin; eauto).
    clear -Ha Hnd. induction Hnd as [|x l Hx Hl IH]; [inversion Ha|].
    cbn. destruct (String.eqb_spec a x) as [-> | Hne].
    + cbn. f_equal. clear -Hx. induction l as [|y l IH]; [reflexivity|].
      cbn. destruct (String.eqb_spec x y) as [-> | _].
      * exfalso. apply Hx. left.
      * apply IH. intros H. apply Hx. now right.
    + apply IH. apply elem_of_cons in Ha as [-> | Ha]; [contradiction | exact Ha].
Qed.

(** The store of the scenario lists its three aliases. *)
Lemma List_exact_witness :
  fst (os_ReadDir (dir Standin.cm) Standin.w3)
    = Ok (dir_entries (w_files Standin.w3) "/pki") /\
  exists aliases,
    fst (List Standin.cm Standin.w3) = Ok aliases /\
    NoDup aliases /\
    (forall a, a ∈ aliases <->
       exists e, e ∈ dir_entries (w_files Standin.w3) "/pki" /\
                 (Name e = a ++ ".pem" \/ Name e = a ++ ".key")) /\
    (forall a e1 e2,
       e1 ∈ dir_entries (w_files Standin.w3) "/pki" ->
       e2 ∈ dir_entries (w_files Standin.w3) "/pki" ->
       Name e1 = a ++ ".pem" -> Name e2 = a ++ ".key" ->
       List.length (List.filter (String.eqb a) aliases) = 1%nat).
Proof.
  split; [vm_compute; reflexivity|].
  apply (List_exact Standin.cm Standin.w3
           (dir_entries (w_files Standin.w3) "/pki")).
  vm_compute; reflexivity.
Defined.

(** A read error of the directory is what [List] returns. *)
Lemma List_read_error cm w err :
  fst (os_ReadDir (dir cm) w) = Err err -> fst (List cm w) = Err err.
Proof.
  intros H. unfold List, bind. rewrite os_ReadDir_fst_snd, H. reflexivity.
Qed.

Example List_examples :
  map Name (dir_entries (w_files Standin.w3) "/pki")
    = ["im.key"; "im.pem"; "root.key"; "root.pem"; "srv.key"; "srv.pem"] /\
  fst (List Standin.cm Standin.w3) = Ok ["im"; "root"; "srv"] /\
  fst (List (mkCertMgr "/nowhere") Standin.w3)
    = Err (PathError "open" "/nowhere" ENOENT).
Proof. vm_compute. repeat split; reflexivity. Qed.

End DirectoryQuery.

(** ** Effects of the calls on the log and on the store *)

Section Effects.
Context {lib : GoLib}.

Lemma silent_bind {A B} (c : M A) (k : A -> M B) :
  silent c -> (forall v, silent (k v)) -> silent (bind c k).
Proof.
  intros Hc Hk w. unfold bind. specialize (Hc w).
  destruct (c w) as [[v|e] w1]; cbn in *; [|exact Hc].
  rewrite (Hk v w1). exact Hc.
Qed.

Lemma readonly_bind {A B} (c : M A) (k : A -> M B) :
  readonly c -> (forall v, readonly (k v)) -> readonly (bind c k).
Proof.
  intros Hc Hk w. unfold bind. specialize (Hc w).
  destruct (c w) as [[v|e] w1]; cbn in *; [|exact Hc].
  rewrite (Hk v w1). exact Hc.
Qed.

Lemma silent_ret {A} (v : A) : silent (ret v).
Proof. intros w; reflexivity. Qed.
Lemma silent_fail {A} (e : error) : silent (@fail A e).
Proof. intros w; reflexivity. Qed.
Lemma silent_lift {A} (r : res A) : silent (lift r).
Proof. intros w; reflexivity. Qed.
Lemma readonly_ret {A} (v : A) : readonly (ret v).
Proof. intros w; reflexivity. Qed.
Lemma readonly_fail {A} (e : error) : readonly (@fail A e).
Proof. intros w; reflexivity. Qed.
Lemma readonly_lift {A} (r : res A) : readonly (lift r).
Proof. intros w; reflexivity. Qed.

Lemma os_ReadFile_eq name w :
  os_ReadFile name w = (readFile name w, log (EvReadFile name) w).
Proof.
  unfold readFile, os_ReadFile. cbn.
  destruct (w_files w !! name) as [[| |]|]; reflexivity.
Qed.

Lemma readFile_files name w1 w2 :
  w_files w1 = w_files w2 -> readFile name w1 = readFile name w2.
Proof.
  intros H. unfold readFile, os_ReadFile. cbn. rewrite H.
  destruct (w_files w2 !! name) as [[| |]|]; reflexivity.
Qed.

Lemma readFile_missing name w :
  w_files w !! name = None ->
  readFile name w = Err (PathError "open" name ENOENT).
Proof. intros H. unfold readFile, os_ReadFile. cbn. now rewrite H. Qed.

Lemma silent_os_ReadFile name : silent (os_ReadFile name).
Proof. intros w. now rewrite os_ReadFile_eq. Qed.
Lemma readonly_os_ReadFile name : readonly (os_ReadFile name).
Proof. intros w. now rewrite os_ReadFile_eq. Qed.

Lemma silent_os_WriteFile name data perm : silent (os_WriteFile name data perm).
Proof.
  intros w. unfold os_WriteFile. cbn.
  destruct (w_files w !! name) as [[| |]|]; reflexivity.
Qed.

Lemma silent_time_Now : silent time_Now.
Proof. intros w; reflexivity. Qed.
Lemma readonly_time_Now : readonly time_Now.
Proof. intros w; reflexivity. Qed.

Lemma silent_call_GenerateKey bits : silent (call_GenerateKey bits).
Proof.
  intros w. unfold call_GenerateKey. cbn.
  destruct (rsa_GenerateKey (w_rand w) bits); reflexivity.
Qed.
Lemma readonly_call_GenerateKey bits : readonly (call_GenerateKey bits).
Proof.
  intros w. unfold call_GenerateKey. cbn.
  destruct (rsa_GenerateKey (w_rand w) bits); reflexivity.
Qed.

Lemma call_CreateCertificate_signings template parent pub priv w :
  signings (w_trace (snd (call_CreateCertificate template parent pub priv w)))
  = (template, parent, pub, priv) :: signings (w_trace w).
Proof.
  unfold call_CreateCertificate. cbn.
  destruct (x509_CreateCertificate (w_rand w) template parent pub priv);
    reflexivity.
Qed.

Lemma silent_decodeBlock data ty err : silent (decodeBlock data ty err).
Proof.
  intros w. unfold decodeBlock. destruct (pem_Decode data) as [b|];
    [|reflexivity]. destruct (negb _); reflexivity.
Qed.
Lemma readonly_decodeBlock data ty err : readonly (decodeBlock data ty err).
Proof.
  intros w. unfold decodeBlock. destruct (pem_Decode data) as [b|];
    [|reflexivity]. destruct (negb _); reflexivity.
Qed.

Create HintDb effects.
Hint Resolve silent_ret silent_fail silent_lift readonly_ret readonly_fail
  readonly_lift silent_os_ReadFile readonly_os_ReadFile silent_os_WriteFile
  silent_time_Now readonly_time_Now silent_call_GenerateKey
  readonly_call_GenerateKey silent_decodeBlock readonly_decodeBlock : effects.

Ltac effects :=
  repeat first
    [ apply silent_bind; [|intros ?]
    | apply readonly_bind; [|intros ?]
    | solve [auto with effects] ].

Lemma silent_load cm alias : silent (load cm alias).
Proof. unfold load. effects. Qed.

Lemma readonly_load cm alias : readonly (load cm alias).
Proof. unfold load. effects. Qed.

Lemma silent_save cm cert key alias : silent (save cm cert key alias).
Proof. unfold save. effects. Qed.

End Effects.

(** ** The pair loader *)

Section Loader.
Context {lib : GoLib}.

Lemma decodeBlock_eq data ty err w :
  decodeBlock data ty err w =
  (if badBlock data ty then Err err
   else Ok (pem.mkBlock ty (blockBytes data)), w).
Proof.
  unfold decodeBlock, badBlock, blockBytes.
  destruct (pem_Decode data) as [[t b]|]; [|reflexivity]. cbn.
  destruct (String.eqb_spec t ty) as [-> | _]; reflexivity.
Qed.

(** The result of [load], check by check in program order. *)
Lemma load_fst cm alias w :
  fst (load cm alias w) =
  let certName := dir cm ++ "/" ++ alias ++ ".pem" in
  let keyName := dir cm ++ "/" ++ alias ++ ".key" in
  match readFile certName w with
  | Err e => Err e
  | Ok data =>
      if badBlock data typeCert then Err (ErrCantLoadCert certName)
      else
        match x509_ParseCertificate (blockBytes data) with
        | Err e => Err e
        | Ok cert =>
            match readFile keyName w with
            | Err e => Err e
            | Ok kdata =>
                if badBlock kdata typeRsaPrivateKey
                then Err (ErrCantLoadKey keyName)
                else
                  match x509_ParsePKCS1PrivateKey (blockBytes kdata) with
                  | Err e => Err e
                  | Ok pKey => Ok (mkPairHolder cert pKey)
                  end
            end
        end
  end.
Proof.
  cbn zeta. unfold load, bind. rewrite os_ReadFile_eq.
  destruct (readFile _ w) as [data|e]; [|reflexivity].
  rewrite decodeBlock_eq.
  destruct (badBlock data typeCert); [reflexivity|].
  unfold lift. cbn [pem.Bytes].
  destruct (x509_ParseCertificate (blockBytes data)) as [cert|e];
    [|reflexivity].
  rewrite os_ReadFile_eq.
  rewrite (readFile_files _ (log _ w) w) by reflexivity.
  destruct (readFile _ w) as [kdata|e]; [|reflexivity].
  rewrite decodeBlock_eq.
  destruct (badBlock kdata typeRsaPrivateKey); [reflexivity|].
  cbn [pem.Bytes].
  destruct (x509_ParsePKCS1PrivateKey (blockBytes kdata)); reflexivity.
Qed.

Lemma load_fst_files cm alias w1 w2 :
  w_files w1 = w_files w2 ->
  fst (load cm alias w1) = fst (load cm alias w2).
Proof.
  intros H. rewrite !load_fst. cbn zeta.
  now rewrite !(readFile_files _ w1 w2 H).
Qed.

(** C5, as the code has it: [load] makes its six checks in program order
    and returns the error of the first one that fails.  A bad block in
    either file makes it fail; a missing certificate file gives the
    not-found error of the read, and so does a missing key file once the
    certificate file has passed its three checks; malformed DER gives the
    parser's error once the checks before it have passed; the pair is
    returned exactly when all six checks pass. *)
Theorem load_checks_in_order cm alias w :
  let certName := dir cm ++ "/" ++ alias ++ ".pem" in
  let keyName := dir cm ++ "/" ++ alias ++ ".key" in
  let certOk data cert :=
    readFile certName w = Ok data /\ badBlock data typeCert = false /\
    x509_ParseCertificate (blockBytes data) = Ok cert in
  let keyOk kdata pKey :=
    readFile keyName w = Ok kdata /\
    badBlock kdata typeRsaPrivateKey = false /\
    x509_ParsePKCS1PrivateKey (blockBytes kdata) = Ok pKey in
  (* [Get] is [load] *)
  Get cm alias w = load cm alias w /\
  (* a bad certificate block *)
  (forall data, readFile certName w = Ok data ->
     badBlock data typeCert = true ->
     fst (load cm alias w) = Err (ErrCantLoadCert certName)) /\
  (* a bad key block *)
  (forall kdata, readFile keyName w = Ok kdata ->
     badBlock kdata typeRsaPrivateKey = true ->
     isOk (fst (load cm alias w)) = false) /\
  (forall data cert kdata, certOk data cert ->
     readFile keyName w = Ok kdata ->
     badBlock kdata typeRsaPrivateKey = true ->
     fst (load cm alias w) = Err (ErrCantLoadKey keyName)) /\
  (* a missing file *)
  (w_files w !! certName = None ->
     fst (load cm alias w) = Err (PathError "open" certName ENOENT)) /\
  (w_files w !! keyName = None -> isOk (fst (load cm alias w)) = false) /\
  (forall data cert, certOk data cert -> w_files w !! keyName = None ->
     fst (load cm alias w) = Err (PathError "open" keyName ENOENT)) /\
  (* malformed DER *)
  (forall data e, readFile certName w = Ok data ->
     badBlock data typeCert = false ->
     x509_ParseCertificate (blockBytes data) = Err e ->
     fst (load cm alias w) = Err e) /\
  (forall data cert kdata e, certOk data cert ->
     readFile keyName w = Ok kdata ->
     badBlock kdata typeRsaPrivateKey = false ->
     x509_ParsePKCS1PrivateKey (blockBytes kdata) = Err e ->
     fst (load cm alias w) = Err e) /\
  (* the pair *)
  (forall p, fst (load cm alias w) = Ok p <->
     exists data kdata, certOk data (Cert p) /\ keyOk kdata (Key p)).
Proof.
  intros certName keyName certOk keyOk.
  pose proof (load_fst cm alias w) as L. cbn zeta in L.
  fold certName keyName in L.
  split; [reflexivity|].
  repeat split.
  - intros data Hr Hb. now rewrite L, Hr, Hb.
  - intros kdata Hr Hb. rewrite L.
    destruct (readFile certName w) as [data|]; [|reflexivity].
    destruct (badBlock data typeCert); [reflexivity|].
    destruct (x509_ParseCertificate _); [|reflexivity].
    now rewrite Hr, Hb.
  - intros data cert kdata (Hr & Hb & Hp) Hk Hkb.
    now rewrite L, Hr, Hb, Hp, Hk, Hkb.
  - intros Hm. now rewrite L, (readFile_missing _ _ Hm).
  - intros Hm. rewrite L.
    destruct (readFile certName w) as [data|]; [|reflexivity].
    destruct (badBlock data typeCert); [reflexivity|].
    destruct (x509_ParseCertificate _); [|reflexivity].
    now rewrite (readFile_missing _ _ Hm).
  - intros data cert (Hr & Hb & Hp) Hm.
    now rewrite L, Hr, Hb, Hp, (readFile_missing _ _ Hm).
  - intros data e Hr Hb Hp. now rewrite L, Hr, Hb, Hp.
  - intros data cert kdata e (Hr & Hb & Hp) Hk Hkb Hkp.
    now rewrite L, Hr, Hb, Hp, Hk, Hkb, Hkp.
  - rewrite L. intros H.
    destruct (readFile certName w) as [data|]; [|discriminate].
    destruct (badBlock data typeCert) eqn:Hb; [discriminate|].
    destruct (x509_ParseCertificate _) as [cert|] eqn:Hp; [|discriminate].
    destruct (readFile keyName w) as [kdata|]; [|discriminate].
    destruct (badBlock kdata _) eqn:Hkb; [discriminate|].
    destruct (x509_ParsePKCS1PrivateKey _) as [pKey|] eqn:Hkp;
      [|discriminate].
    inversion H; subst; clear H. cbn.
    exists data, kdata. repeat split; assumption.
  - intros (data & kdata & (Hr & Hb & Hp) & (Hk & Hkb & Hkp)).
    rewrite L, Hr, Hb, Hp, Hk, Hkb, Hkp. now destruct p.
Qed.

End Loader.

(** The pair of the scenario's root CA loads: all six checks pass. *)
Lemma load_checks_in_order_witness :
  let p := mkPairHolder
             (x509.mkCertificate (Standin.cn "Root") pkix.empty 0 0 false 0
                                 false None [] [] [])
             (rsa.mkPrivateKey (rsa.mkPublicKey 3 65537) 1) in
  fst (load (lib := Standin.lib) Standin.cm "root" Standin.w3) = Ok p /\
  exists data kdata,
    (readFile "/pki/root.pem" Standin.w3 = Ok data /\
     badBlock (lib := Standin.lib) data typeCert = false /\
     @x509_ParseCertificate Standin.lib
       (blockBytes (lib := Standin.lib) data) = Ok (Cert p)) /\
    (readFile "/pki/root.key" Standin.w3 = Ok kdata /\
     badBlock (lib := Standin.lib) kdata typeRsaPrivateKey = false /\
     @x509_ParsePKCS1PrivateKey Standin.lib
       (blockBytes (lib := Standin.lib) kdata) = Ok (Key p)).
Proof.
  intros p.
  assert (Hload : fst (load (lib := Standin.lib) Standin.cm "root" Standin.w3)
                  = Ok p) by (vm_compute; reflexivity).
  split; [exact Hload|].
  destruct (load_checks_in_order (lib := Standin.lib) Standin.cm "root"
              Standin.w3) as (_ & _ & _ & _ & _ & _ & _ & _ & _ & Hpair).
  exact (proj1 (Hpair p) Hload).
Defined.

(** C5 as the specification words it fails: with the key file of [bad] missing and
    its certificate file holding no block, [load] returns the block error
    of the certificate file, which is not a not-found error. *)
Lemma load_missing_key_counterexample :
  w_files Standin.wBad !! "/pki/bad.key" = None /\
  fst (load (lib := Standin.lib) Standin.cm "bad" Standin.wBad)
    = Err (ErrCantLoadCert "/pki/bad.pem") /\
  os_IsNotExist (ErrCantLoadCert "/pki/bad.pem") = false.
Proof. vm_compute. repeat split; reflexivity. Qed.

(** ** The validation rules *)

Section Validation.
Context {lib : GoLib}.

(** The error of the first rule that fails, for the rule set of [op]. *)
Lemma check_rules op cd :
  check cd
    (match op with
     | OpRootCA => [requireSubject; requireAlias; validAtLeastYears 1]
     | _ => [requireSubject; requireAlias; requireParentAlias;
             validAtLeastYears 1]
     end) =
  if (String.length (pkix_Name_String (Subject cd)) =? 0)%nat
  then Err ErrSubjectMissing
  else if (String.length (Alias cd) =? 0)%nat then Err ErrAliasMissing
  else if chained op && (String.length (ParentAlias cd) =? 0)%nat
       then Err ErrParentAliasMissing
  else if ValidYears cd <? 1
       then Err (ErrInvalidValidYears (ValidYears cd) 1)
  else Ok tt.
Proof.
  destruct op; cbn; unfold requireSubject, requireAlias, requireParentAlias,
    validAtLeastYears;
    destruct (String.length (pkix_Name_String (Subject cd)) =? 0)%nat;
    try reflexivity;
    destruct (String.length (Alias cd) =? 0)%nat; try reflexivity;
    try (destruct (String.length (ParentAlias cd) =? 0)%nat;
         try reflexivity);
    destruct (ValidYears cd <? 1); reflexivity.
Qed.

Lemma issue_unfold op cm cd w :
  issue op cm cd w =
  match check cd
          (match op with
           | OpRootCA => [requireSubject; requireAlias; validAtLeastYears 1]
           | _ => [requireSubject; requireAlias; requireParentAlias;
                   validAtLeastYears 1]
           end) with
  | Err e => (Err e, w)
  | Ok _ => create cm (setFlags (negb (chained op)) (issuesCA op) cd) w
  end.
Proof.
  destruct op; unfold issue, NewRootCA, NewIntermediateCA, NewLeaf, bind, lift;
    destruct (check cd _); reflexivity.
Qed.

(** The rules of an operation as one cascade, then [create]. *)
Lemma issue_cascade op cm cd w :
  issue op cm cd w =
    (if (String.length (pkix_Name_String (Subject cd)) =? 0)%nat
     then (Err ErrSubjectMissing, w)
     else if (String.length (Alias cd) =? 0)%nat
     then (Err ErrAliasMissing, w)
     else if chained op && (String.length (ParentAlias cd) =? 0)%nat
     then (Err ErrParentAliasMissing, w)
     else if ValidYears cd <? 1
     then (Err (ErrInvalidValidYears (ValidYears cd) 1), w)
     else create cm (setFlags (negb (chained op)) (issuesCA op) cd) w).
Proof.
  rewrite issue_unfold, check_rules.
  destruct (String.length (pkix_Name_String (Subject cd)) =? 0)%nat;
    [reflexivity|].
  destruct (String.length (Alias cd) =? 0)%nat; [reflexivity|].
  destruct (chained op && _); [reflexivity|].
  destruct (ValidYears cd <? 1); reflexivity.
Qed.

(** C10: each issuance operation applies its rules in the order subject,
    alias, parent alias (intermediate CA and leaf only), years; the first
    rule that fails gives the error and nothing else runs ([w] is returned
    as it was); [create] runs when all pass.  So a descriptor with an empty
    subject string and an empty alias gets the subject error. *)
Theorem validation_order op cm cd w :
  issue op cm cd w =
    (if (String.length (pkix_Name_String (Subject cd)) =? 0)%nat
     then (Err ErrSubjectMissing, w)
     else if (String.length (Alias cd) =? 0)%nat
     then (Err ErrAliasMissing, w)
     else if chained op && (String.length (ParentAlias cd) =? 0)%nat
     then (Err ErrParentAliasMissing, w)
     else if ValidYears cd <? 1
     then (Err (ErrInvalidValidYears (ValidYears cd) 1), w)
     else create cm (setFlags (negb (chained op)) (issuesCA op) cd) w) /\
  (pkix_Name_String (Subject cd) = "" -> Alias cd = "" ->
   issue op cm cd w = (Err ErrSubjectMissing, w) /\
   issue op cm cd w <> (Err ErrAliasMissing, w)).
Proof.
  pose proof (issue_cascade op cm cd w) as Heq.
  split; [exact Heq|].
  intros Hs Ha. rewrite Heq, Hs. cbn. split; [reflexivity | discriminate].
Qed.

(** C3, as the code has it: on a descriptor with an empty alias [NewLeaf]
    returns a missing-field error and the world as it was (no file written,
    no key generated, nothing signed, no call logged); the error is the
    alias error when the subject string is not empty and the subject error
    when it is. *)
Theorem NewLeaf_empty_alias cm cd w :
  Alias cd = "" ->
  exists err,
    NewLeaf cm cd w = (Err err, w) /\
    isMissingFieldError err = true /\
    (pkix_Name_String (Subject cd) <> "" -> err = ErrAliasMissing) /\
    (pkix_Name_String (Subject cd) = "" -> err = ErrSubjectMissing).
Proof.
  intros Ha.
  pose proof (issue_cascade OpLeaf cm cd w) as Heq. cbn [issue] in Heq.
  rewrite Heq, Ha. cbn [String.length Nat.eqb].
  destruct (pkix_Name_String (Subject cd)) as [|c s] eqn:Hs; cbn.
  - exists ErrSubjectMissing. repeat split; congruence.
  - exists ErrAliasMissing. repeat split; congruence.
Qed.

End Validation.

(** A leaf request with a subject and no alias. *)
Lemma NewLeaf_empty_alias_witness :
  Alias Standin.cdNoAlias = "" /\
  exists err,
    NewLeaf (lib := Standin.lib) Standin.cm Standin.cdNoAlias Standin.w1
      = (Err err, Standin.w1) /\
    isMissingFieldError err = true /\
    (@pkix_Name_String Standin.lib (Subject Standin.cdNoAlias) <> "" ->
     err = ErrAliasMissing) /\
    (@pkix_Name_String Standin.lib (Subject Standin.cdNoAlias) = "" ->
     err = ErrSubjectMissing).
Proof.
  split; [reflexivity|].
  apply (NewLeaf_empty_alias (lib := Standin.lib) Standin.cm
           Standin.cdNoAlias Standin.w1).
  reflexivity.
Defined.

(** C3 as the specification words it fails: a leaf request with neither subject nor
    alias gets the subject error, not the alias error. *)
Lemma NewLeaf_empty_alias_counterexample :
  Alias Standin.cdBlank = "" /\
  fst (NewLeaf (lib := Standin.lib) Standin.cm Standin.cdBlank Standin.w1)
    = Err ErrSubjectMissing /\
  fst (NewLeaf (lib := Standin.lib) Standin.cm Standin.cdBlank Standin.w1)
    <> Err ErrAliasMissing.
Proof.
  assert (H : fst (NewLeaf (lib := Standin.lib) Standin.cm Standin.cdBlank
                     Standin.w1) = Err ErrSubjectMissing)
    by (vm_compute; reflexivity).
  split; [reflexivity|]. split; [exact H|]. rewrite H. discriminate.
Qed.

(** The three operations on the blank descriptor. *)
Lemma validation_order_witness :
  @pkix_Name_String Standin.lib (Subject Standin.cdBlank) = "" /\
  Alias Standin.cdBlank = "" /\
  issue (lib := Standin.lib) OpRootCA Standin.cm Standin.cdBlank Standin.w0
    = (Err ErrSubjectMissing, Standin.w0).
Proof.
  split; [reflexivity|]. split; [reflexivity|].
  apply (proj2 (validation_order (lib := Standin.lib) OpRootCA Standin.cm
                  Standin.cdBlank Standin.w0)); reflexivity.
Defined.

(** ** The issuance engine *)

Section Issuance.
Context {lib : GoLib}.

Lemma time_Now_inv w t w1 :
  time_Now w = (Ok t, w1) ->
  w_files w1 = w_files w /\ signings (w_trace w1) = signings (w_trace w).
Proof. intros [= _ <-]. split; reflexivity. Qed.

(** What a successful [create] signed: one certificate, built from the
    descriptor as the code builds [newCert]. *)
Lemma create_Ok cm cd w w' :
  create cm cd w = (Ok tt, w') ->
  exists tmpl parent pub priv,
    signings (w_trace w') = (tmpl, parent, pub, priv) :: signings (w_trace w) /\
    x509.Subject tmpl = Subject cd /\
    x509.IsCA tmpl = IsCA cd /\
    x509.KeyUsage tmpl = getKeyUsage cd /\
    x509.BasicConstraintsValid tmpl = true /\
    x509.SerialNumber tmpl = Some (if Serial cd =? 0 then 0 else Serial cd) /\
    x509.ExtKeyUsages tmpl =
      (if IsCA cd then []
       else [x509.ExtKeyUsageClientAuth; x509.ExtKeyUsageServerAuth]) /\
    x509.DNSNames tmpl = (if IsCA cd then [] else DNSSan cd) /\
    x509.IPAddresses tmpl = (if IsCA cd then [] else IPSan cd) /\
    (if SelfSigned cd
     then x509.Issuer tmpl = Issuer cd /\ parent = tmpl
     else exists ch,
         fst (load cm (ParentAlias cd) w) = Ok ch /\
         x509.Issuer tmpl = x509.Subject (Cert ch) /\
         parent = Cert ch /\ priv = Key ch).
Proof.
  unfold create. intros H.
  apply bind_Ok_inv in H as (t1 & wa & Ht1 & H).
  apply bind_Ok_inv in H as (t2 & wb & Ht2 & H).
  apply time_Now_inv in Ht1 as [Hfa Hsa].
  apply time_Now_inv in Ht2 as [Hfb Hsb].
  apply bind_Ok_inv in H as ([ch tmpl0] & wc & Hch & H).
  cbn [fst snd] in H.
  apply bind_Ok_inv in H as (newKey & wd & Hkey & H).
  apply bind_Ok_inv in H as ([parentCert privateKey] & we & Hsigner & H).
  cbn [fst snd] in H.
  apply bind_Ok_inv in H as (certBytes & wf & Hsign & Hsave).
  match type of Hsign with
  | call_CreateCertificate ?a ?b ?c ?d _ = _ =>
      pose proof (call_CreateCertificate_signings a b c d we) as Hs1
  end.
  rewrite Hsign in Hs1. cbn [snd] in Hs1.
  pose proof (silent_save cm certBytes
                (x509_MarshalPKCS1PrivateKey newKey) (Alias cd) wf) as Hs2.
  rewrite Hsave in Hs2. cbn [snd] in Hs2.
  pose proof (silent_call_GenerateKey (KeySize cd) wc) as Hs3.
  rewrite Hkey in Hs3. cbn [snd] in Hs3.
  destruct (SelfSigned cd) eqn:Hself; cbn [negb] in Hch.
  - (* self-signed *)
    injection Hch as <- <- <-. injection Hsigner as <- <- <-.
    eexists _, _, _, _. split.
    { rewrite Hs2, Hs1, Hs3, Hsb, Hsa. reflexivity. }
    destruct (IsCA cd), (Serial cd =? 0); cbn; repeat split; reflexivity.
  - (* chained to the parent *)
    apply bind_Ok_inv in Hch as (h & wl & Hload & Hret).
    injection Hret as <- <- <-.
    injection Hsigner as <- <- <-.
    pose proof (silent_load cm (ParentAlias cd) wb) as Hs4.
    rewrite Hload in Hs4. cbn [snd] in Hs4.
    eexists _, _, _, _. split.
    { rewrite Hs2, Hs1, Hs3, Hs4, Hsb, Hsa. reflexivity. }
    assert (Hl : fst (load cm (ParentAlias cd) w) = Ok h).
    { rewrite <- (load_fst_files cm (ParentAlias cd) wb w) by congruence.
      now rewrite Hload. }
    destruct (IsCA cd), (Serial cd =? 0); cbn; repeat split;
      try reflexivity; exists h; repeat split; assumption.
Qed.

(** C1: a successful [NewIntermediateCA] or [NewLeaf] signs one
    certificate, and its issuer is the subject of the certificate [load]
    returns for the parent alias, whatever the descriptor's [Issuer] holds;
    a successful [NewRootCA] signs one certificate whose issuer is the
    descriptor's [Issuer]. *)
Theorem issuer_from_parent op cm cd w w' :
  issue op cm cd w = (Ok tt, w') ->
  exists tmpl,
    signed_templates (w_trace w') = tmpl :: signed_templates (w_trace w) /\
    match op with
    | OpRootCA => x509.Issuer tmpl = Issuer cd
    | _ => exists ch,
        ParentAlias cd <> "" /\
        fst (load cm (ParentAlias cd) w) = Ok ch /\
        x509.Issuer tmpl = x509.Subject (Cert ch)
    end.
Proof.
  intros H. pose proof (issue_cascade op cm cd w) as Heq.
  rewrite Heq in H. clear Heq.
  destruct (String.length (pkix_Name_String (Subject cd)) =? 0)%nat;
    [discriminate|].
  destruct (String.length (Alias cd) =? 0)%nat; [discriminate|].
  destruct (chained op && (String.length (ParentAlias cd) =? 0)%nat)
    eqn:Hpar; [discriminate|].
  destruct (ValidYears cd <? 1); [discriminate|].
  apply create_Ok in H
    as (tmpl & parent & pub & priv & Hs & _ & _ & _ & _ & _ & _ & _ & _ & Hi).
  exists tmpl. split.
  { unfold signed_templates. rewrite Hs. reflexivity. }
  destruct op; cbn in Hi, Hpar.
  - tauto.
  - destruct Hi as (ch & Hl & Hiss & _). exists ch.
    repeat split; try assumption. intros E. rewrite E in Hpar. discriminate.
  - destruct Hi as (ch & Hl & Hiss & _). exists ch.
    repeat split; try assumption. intros E. rewrite E in Hpar. discriminate.
Qed.

(** The key usage of [getKeyUsage], bit by bit. *)
Lemma getKeyUsage_bits cd i :
  Z.testbit (getKeyUsage cd) i = true <->
  if IsCA cd then i = 5 \/ i = 6 else i = 3 \/ i = 0.
Proof.
  unfold getKeyUsage.
  destruct (IsCA cd); rewrite Z.lor_spec, orb_true_iff;
    unfold x509.KeyUsageCertSign, x509.KeyUsageCRLSign,
      x509.KeyUsageDataEncipherment, x509.KeyUsageDigitalSignature;
    rewrite !Z.shiftl_1_l; split.
  - intros [H | H].
    + left. destruct (Z.eq_dec i 5) as [->|Hn]; [reflexivity|].
      rewrite Z.pow2_bits_false in H by congruence. discriminate.
    + right. destruct (Z.eq_dec i 6) as [->|Hn]; [reflexivity|].
      rewrite Z.pow2_bits_false in H by congruence. discriminate.
  - intros [-> | ->]; [left | right]; reflexivity.
  - intros [H | H].
    + left. destruct (Z.eq_dec i 3) as [->|Hn]; [reflexivity|].
      rewrite Z.pow2_bits_false in H by congruence. discriminate.
    + right. destruct (Z.eq_dec i 0) as [->|Hn]; [reflexivity|].
      rewrite Z.pow2_bits_false in H by congruence. discriminate.
  - intros [-> | ->]; [left | right]; reflexivity.
Qed.

(** C2: the certificate a successful operation signs has, for a CA
    ([NewRootCA], [NewIntermediateCA]), exactly the key usage bits of
    certificate signing and CRL signing, no extended key usage and no DNS
    or IP names; for a leaf ([NewLeaf]), exactly the bits of data
    encipherment and digital signature, the extended key usages client
    authentication and server authentication, and the DNS and IP names of
    the descriptor. *)
Theorem key_usage_policy op cm cd w w' :
  issue op cm cd w = (Ok tt, w') ->
  exists tmpl,
    signed_templates (w_trace w') = tmpl :: signed_templates (w_trace w) /\
    x509.IsCA tmpl = issuesCA op /\
    if issuesCA op then
      x509.KeyUsage tmpl = Z.lor x509.KeyUsageCertSign x509.KeyUsageCRLSign /\
      (forall i, Z.testbit (x509.KeyUsage tmpl) i = true <-> i = 5 \/ i = 6) /\
      x509.ExtKeyUsages tmpl = [] /\
      x509.DNSNames tmpl = [] /\
      x509.IPAddresses tmpl = []
    else
      x509.KeyUsage tmpl =
        Z.lor x509.KeyUsageDataEncipherment x509.KeyUsageDigitalSignature /\
      (forall i, Z.testbit (x509.KeyUsage tmpl) i = true <-> i = 3 \/ i = 0) /\
      x509.ExtKeyUsages tmpl =
        [x509.ExtKeyUsageClientAuth; x509.ExtKeyUsageServerAuth] /\
      x509.DNSNames tmpl = DNSSan cd /\
      x509.IPAddresses tmpl = IPSan cd.
Proof.
  intros H. pose proof (issue_cascade op cm cd w) as Heq.
  rewrite Heq in H. clear Heq.
  destruct (String.length (pkix_Name_String (Subject cd)) =? 0)%nat;
    [discriminate|].
  destruct (String.length (Alias cd) =? 0)%nat; [discriminate|].
  destruct (chained op && (String.length (ParentAlias cd) =? 0)%nat);
    [discriminate|].
  destruct (ValidYears cd <? 1); [discriminate|].
  apply create_Ok in H
    as (tmpl & parent & pub & priv & Hs & _ & Hca & Hku & _ & _ & Heku & Hdns
        & Hip & _).
  exists tmpl. split.
  { unfold signed_templates. rewrite Hs. reflexivity. }
  cbn [IsCA DNSSan IPSan setFlags] in Hca, Heku, Hdns, Hip.
  split; [exact Hca|].
  assert (Hbits := getKeyUsage_bits
            (setFlags (negb (chained op)) (issuesCA op) cd)).
  rewrite <- Hku in Hbits. cbn [IsCA setFlags] in Hbits.
  unfold getKeyUsage in Hku. cbn [IsCA setFlags] in Hku.
  destruct (issuesCA op); repeat split; try assumption; apply Hbits.
Qed.

Lemma signs_only_silent {A} P (c : M A) : silent c -> signs_only P c.
Proof.
  intros Hc w. exists []. split; [|constructor].
  unfold signed_templates. now rewrite Hc.
Qed.

Lemma signs_only_bind {A B} P (c : M A) (k : A -> M B) :
  signs_only P c -> (forall v, signs_only P (k v)) -> signs_only P (bind c k).
Proof.
  intros Hc Hk w. unfold bind. destruct (Hc w) as (n1 & E1 & F1).
  destruct (c w) as [[v|e] w1]; cbn [snd] in *.
  - destruct (Hk v w1) as (n2 & E2 & F2). exists (n2 ++ n1)%list. split.
    + rewrite E2, E1. apply app_assoc.
    + apply Forall_app. split; assumption.
  - exists n1. split; assumption.
Qed.

Lemma signs_only_call P template parent pub priv :
  P template ->
  signs_only P (call_CreateCertificate template parent pub priv).
Proof.
  intros HP w. exists [template]. split.
  - unfold signed_templates.
    rewrite call_CreateCertificate_signings. reflexivity.
  - constructor; [exact HP | constructor].
Qed.

(** Whatever happens after it, the one signing call of [create] is made
    on a certificate with the serial number of the descriptor. *)
Lemma create_serial cm cd :
  signs_only (fun tmpl => x509.SerialNumber tmpl = Some (serialOf cd))
             (create cm cd).
Proof.
  unfold create.
  apply signs_only_bind; [apply signs_only_silent, silent_time_Now|].
  intros notBefore.
  apply signs_only_bind; [apply signs_only_silent, silent_time_Now|].
  intros now.
  apply signs_only_bind.
  { apply signs_only_silent. destruct (SelfSigned cd); cbn [negb].
    - apply silent_ret.
    - apply silent_bind; [apply silent_load | intros ch; apply silent_ret]. }
  intros [ch tmpl0]. cbn [fst snd].
  apply signs_only_bind;
    [apply signs_only_silent, silent_call_GenerateKey|].
  intros newKey.
  apply signs_only_bind.
  { apply signs_only_silent. destruct (SelfSigned cd); [apply silent_ret|].
    destruct ch; [apply silent_ret | apply silent_fail]. }
  intros [parentCert privateKey]. cbn [fst snd].
  apply signs_only_bind; [|intros certBytes;
                           apply signs_only_silent, silent_save].
  apply signs_only_call. unfold serialOf.
  destruct (IsCA cd), (Serial cd =? 0); reflexivity.
Qed.

(** C4: in every issuance, successful or not, each certificate that is
    signed carries the serial number of the descriptor when that is not
    zero, and zero otherwise, a value in which the random source has no
    part; a successful issuance signs exactly one certificate. *)
Theorem serial_from_descriptor op cm cd w :
  exists new,
    signed_templates (w_trace (snd (issue op cm cd w)))
      = (new ++ signed_templates (w_trace w))%list /\
    Forall (fun tmpl =>
              x509.SerialNumber tmpl = Some (serialOf cd) /\
              (Serial cd <> 0 -> x509.SerialNumber tmpl = Some (Serial cd)) /\
              (Serial cd = 0 -> x509.SerialNumber tmpl = Some 0)) new /\
    (fst (issue op cm cd w) = Ok tt -> List.length new = 1%nat).
Proof.
  assert (Hforall : forall new,
    Forall (fun tmpl => x509.SerialNumber tmpl = Some (serialOf cd)) new ->
    Forall (fun tmpl =>
              x509.SerialNumber tmpl = Some (serialOf cd) /\
              (Serial cd <> 0 -> x509.SerialNumber tmpl = Some (Serial cd)) /\
              (Serial cd = 0 -> x509.SerialNumber tmpl = Some 0)) new).
  { intros new H. eapply Forall_impl; [exact H|]. cbn beta.
    intros tmpl Hs. rewrite Hs.
    unfold serialOf. repeat split.
    - intros Hn. destruct (Z.eqb_spec (Serial cd) 0); [contradiction|].
      reflexivity.
    - intros ->. reflexivity. }
  pose proof (issue_cascade op cm cd w) as Heq. rewrite Heq. clear Heq.
  assert (Hnone : forall e : error, exists new,
    signed_templates (w_trace (snd (@Err unit e, w)))
      = (new ++ signed_templates (w_trace w))%list /\
    Forall (fun tmpl =>
              x509.SerialNumber tmpl = Some (serialOf cd) /\
              (Serial cd <> 0 -> x509.SerialNumber tmpl = Some (Serial cd)) /\
              (Serial cd = 0 -> x509.SerialNumber tmpl = Some 0)) new /\
    (fst (@Err unit e, w) = Ok tt -> List.length new = 1%nat)).
  { intros e. exists []. repeat split; [constructor | discriminate]. }
  destruct (String.length (pkix_Name_String (Subject cd)) =? 0)%nat;
    [apply Hnone|].
  destruct (String.length (Alias cd) =? 0)%nat; [apply Hnone|].
  destruct (chained op && (String.length (ParentAlias cd) =? 0)%nat);
    [apply Hnone|].
  destruct (ValidYears cd <? 1); [apply Hnone|].
  set (cd' := setFlags (negb (chained op)) (issuesCA op) cd).
  destruct (create_serial cm cd' w) as (new & Hnew & Hser).
  exists new. split; [exact Hnew|]. split; [apply Hforall; exact Hser|].
  intros Hok. apply run_Ok_tt in Hok.
  apply create_Ok in Hok as (tmpl & parent & pub & priv & Hs & _).
  unfold signed_templates in Hnew. rewrite Hs in Hnew. cbn [map] in Hnew.
  apply (f_equal (@List.length _)) in Hnew.
  rewrite List.length_app in Hnew. cbn [List.length] in Hnew. lia.
Qed.

End Issuance.

(** The intermediate CA of the scenario: its descriptor names somebody
    else as issuer, the certificate signed has the root's subject. *)
Lemma issuer_from_parent_witness :
  let w' := snd (issue (lib := Standin.lib) OpIntermediateCA Standin.cm
                   Standin.cdIm Standin.w1) in
  issue (lib := Standin.lib) OpIntermediateCA Standin.cm Standin.cdIm
        Standin.w1 = (Ok tt, w') /\
  exists tmpl,
    signed_templates (w_trace w')
      = tmpl :: signed_templates (w_trace Standin.w1) /\
    exists ch,
      ParentAlias Standin.cdIm <> "" /\
      fst (load (lib := Standin.lib) Standin.cm (ParentAlias Standin.cdIm)
             Standin.w1) = Ok ch /\
      x509.Issuer tmpl = x509.Subject (Cert ch).
Proof.
  intros w'.
  assert (H0 : fst (issue (lib := Standin.lib) OpIntermediateCA Standin.cm
                      Standin.cdIm Standin.w1) = Ok tt)
    by (vm_compute; reflexivity).
  pose proof (run_Ok_tt _ _ H0) as H.
  split; [exact H|].
  exact (issuer_from_parent (lib := Standin.lib) OpIntermediateCA Standin.cm
           Standin.cdIm Standin.w1 w' H).
Defined.

Example issuers_of_the_scenario :
  map x509.Issuer (signed_templates (w_trace Standin.w3))
    = [Standin.cn "Intermediate"; Standin.cn "Root"; Standin.cn "Root"] /\
  map x509.Subject (signed_templates (w_trace Standin.w3))
    = [Standin.cn "srv"; Standin.cn "Intermediate"; Standin.cn "Root"].
Proof. vm_compute. split; reflexivity. Qed.

(** The leaf of the scenario. *)
Lemma key_usage_policy_witness :
  let w' := snd (issue (lib := Standin.lib) OpLeaf Standin.cm Standin.cdLeaf
                   Standin.w2) in
  issue (lib := Standin.lib) OpLeaf Standin.cm Standin.cdLeaf Standin.w2
    = (Ok tt, w') /\
  exists tmpl,
    signed_templates (w_trace w')
      = tmpl :: signed_templates (w_trace Standin.w2) /\
    x509.IsCA tmpl = false /\
    x509.KeyUsage tmpl =
      Z.lor x509.KeyUsageDataEncipherment x509.KeyUsageDigitalSignature /\
    (forall i, Z.testbit (x509.KeyUsage tmpl) i = true <-> i = 3 \/ i = 0) /\
    x509.ExtKeyUsages tmpl =
      [x509.ExtKeyUsageClientAuth; x509.ExtKeyUsageServerAuth] /\
    x509.DNSNames tmpl = ["srv.example.com"] /\
    x509.IPAddresses tmpl = [[x7f; x00; x00; x01]].
Proof.
  intros w'.
  assert (H0 : fst (issue (lib := Standin.lib) OpLeaf Standin.cm
                      Standin.cdLeaf Standin.w2) = Ok tt)
    by (vm_compute; reflexivity).
  pose proof (run_Ok_tt _ _ H0) as H.
  split; [exact H|].
  exact (key_usage_policy (lib := Standin.lib) OpLeaf Standin.cm
           Standin.cdLeaf Standin.w2 w' H).
Defined.

Example key_usage_of_the_scenario :
  map (fun c => (x509.IsCA c, x509.KeyUsage c, x509.ExtKeyUsages c,
                 x509.DNSNames c))
      (signed_templates (w_trace Standin.w3))
  = [ (false, 9, [x509.ExtKeyUsageClientAuth; x509.ExtKeyUsageServerAuth],
       ["srv.example.com"]);
      (true, 96, [], []);
      (true, 96, [], []) ].
Proof. vm_compute. reflexivity. Qed.

(** The intermediate CA of the scenario asks for serial 42; the root CA
    and the leaf leave it unset. *)
Example serials_of_the_scenario :
  map x509.SerialNumber (signed_templates (w_trace Standin.w3))
    = [Some 0; Some 42; Some 0].
Proof. vm_compute. reflexivity. Qed.

(** ** The pair saver *)

Section Saver.
Context {lib : GoLib}.




End Saver.


Example modes_of_the_scenario :
  w_files Standin.w3 !! "/pki/srv.pem"
    = Some (NFile (octal 6 4 0) (list_byte_of_string "CERTIFICATE
srv")) /\
  w_files Standin.w3 !! "/pki/srv.key"
    = Some (NFile (octal 4 0 0) (list_byte_of_string "RSA PRIVATE KEY
key")) /\
  map (fun x => (fst (fst x), snd x)) (writes (w_trace Standin.w3))
    = [("/pki/srv.key", 256); ("/pki/srv.pem", 416);
       ("/pki/im.key", 256); ("/pki/im.pem", 416);
       ("/pki/root.key", 256); ("/pki/root.pem", 416)].
Proof. vm_compute. repeat split; reflexivity. Qed.

(** * More of the package, verified *)

(** ** Paths and file names *)

Section Names.




Lemma aliasToFile_entry cm alias private :
  aliasToFile cm alias private =
  (dir cm ++ "/" ++ alias) ++ (if private then ".key" else ".pem").
Proof.
  unfold aliasToFile. destruct private; rewrite <- !string_app_assoc_r;
    reflexivity.
Qed.

(** X2: [fileToAlias] undoes the suffix [aliasToFile] adds, on the entry
    name and on the whole path, and [isAliasFilename] accepts both; it
    panics exactly on names shorter than four bytes, none of which
    [isAliasFilename] accepts. *)
Theorem fileToAlias_inverts cm (alias : string) (private : bool)
    (file : string) :
  let suffix := if private then ".key" else ".pem" in
  (isAliasFilename (alias ++ suffix) = true /\
   fileToAlias (alias ++ suffix) = Ok alias) /\
  (isAliasFilename (aliasToFile cm alias private) = true /\
   fileToAlias (aliasToFile cm alias private) = Ok (dir cm ++ "/" ++ alias)) /\
  (fileToAlias file = Err (RuntimePanic "slice bounds out of range") <->
   (String.length file < 4)%nat) /\
  (isAliasFilename file = true -> (4 <= String.length file)%nat /\
                                  isOk (fileToAlias file) = true).
Proof.
  intros suffix.
  assert (Hany : forall a, isAliasFilename (a ++ suffix) = true /\
                           fileToAlias (a ++ suffix) = Ok a).
  { intros a. split.
    - apply isAliasFilename_spec. exists a. subst suffix.
      destruct private; auto.
    - apply fileToAlias_strips. subst suffix. now destruct private. }
  split; [apply Hany|]. split.
  { rewrite aliasToFile_entry. apply Hany. }
  split.
  - unfold fileToAlias. destruct (Nat.ltb_spec (String.length file) 4).
    + split; [intros _; assumption | reflexivity].
    + split; [discriminate | lia].
  - intros H. destruct (fileToAlias_alias _ H) as (a & Ha & Hn).
    split; [|now rewrite Ha].
    destruct Hn as [-> | ->]; rewrite string_length_app; cbn; lia.
Qed.

End Names.

(** ** The rule chain *)

Section RuleChain.

Lemma check_app data l1 l2 :
  check data (l1 ++ l2) =
  match check data l1 with
  | Err err => Err err
  | Ok _ => check data l2
  end.
Proof.
  induction l1 as [|f l1 IH]; cbn; [reflexivity|].
  destruct (f data); [exact IH | reflexivity].
Qed.

(** X3: for any list of rules, [check] returns nil exactly when every rule
    does, and returns an error exactly when it is the error of a rule all
    of whose predecessors return nil: the first failure, with the rules
    after it not consulted. *)
Theorem check_first_failure data (checks : list checkFunc) :
  (check data checks = Ok tt <->
   Forall (fun checkFn => checkFn data = Ok tt) checks) /\
  (forall err, check data checks = Err err <->
     exists pre checkFn post,
       checks = (pre ++ checkFn :: post)%list /\
       Forall (fun f => f data = Ok tt) pre /\
       checkFn data = Err err).
Proof.
  induction checks as [|f l [IHok IHerr]]; cbn.
  - split; [split; [constructor | reflexivity]|].
    intros err. split; [discriminate|].
    intros (pre & g & post & H & _). now destruct pre.
  - split.
    + rewrite Forall_cons. destruct (f data) as [[]|e].
      * rewrite IHok. tauto.
      * split; [discriminate | intros [H _]; discriminate].
    + intros err. destruct (f data) as [[]|e] eqn:Hf.
      * rewrite IHerr. split.
        -- intros (pre & g & post & -> & Hpre & Hg).
           exists (f :: pre), g, post. repeat split; [|exact Hg].
           constructor; assumption.
        -- intros (pre & g & post & H & Hpre & Hg).
           destruct pre as [|f' pre]; cbn in H.
           ++ injection H as -> _. congruence.
           ++ injection H as -> ->. exists pre, g, post.
              apply Forall_cons in Hpre as [_ Hpre]. auto.
      * split.
        -- intros [= ->]. exists [], f, l. repeat split; [constructor | exact Hf].
        -- intros (pre & g & post & H & Hpre & Hg).
           destruct pre as [|f' pre]; cbn in H.
           ++ injection H as -> _. congruence.
           ++ injection H as -> ->. apply Forall_cons in Hpre as [Hf' _].
              congruence.
Qed.

End RuleChain.

(** ** Operations that only read *)

Section Inert.
Context {lib : GoLib}.

Lemma only_read_refl w : only_read w w.
Proof. repeat split. Qed.

Lemma only_read_trans w1 w2 w3 :
  only_read w1 w2 -> only_read w2 w3 -> only_read w1 w3.
Proof.
  unfold only_read.
  intros (A1 & A2 & A3 & A4 & A5 & A6 & A7) (B1 & B2 & B3 & B4 & B5 & B6 & B7).
  repeat split; congruence.
Qed.

Lemma inert_bind {A B} (c : M A) (k : A -> M B) :
  inert c -> (forall v, inert (k v)) -> inert (bind c k).
Proof.
  intros Hc Hk w. unfold bind. specialize (Hc w).
  destruct (c w) as [[v|e] w1]; cbn [snd] in *; [|exact Hc].
  eapply only_read_trans; [exact Hc | apply Hk].
Qed.

Lemma inert_ret {A} (v : A) : inert (ret v).
Proof. intros w. apply only_read_refl. Qed.
Lemma inert_fail {A} (e : error) : inert (@fail A e).
Proof. intros w. apply only_read_refl. Qed.
Lemma inert_lift {A} (r : res A) : inert (lift r).
Proof. intros w. apply only_read_refl. Qed.

Lemma inert_os_Stat name : inert (os_Stat name).
Proof.
  intros w. unfold os_Stat. cbn.
  destruct (w_files w !! name) as [[| |]|]; repeat split.
Qed.

Lemma inert_os_ReadFile name : inert (os_ReadFile name).
Proof. intros w. rewrite os_ReadFile_eq. repeat split. Qed.

Lemma inert_os_ReadDir name : inert (os_ReadDir name).
Proof. intros w. rewrite os_ReadDir_fst_snd. repeat split. Qed.

Lemma inert_time_Now : inert time_Now.
Proof. intros w. repeat split. Qed.

Lemma inert_decodeBlock data ty err : inert (decodeBlock data ty err).
Proof. intros w. rewrite decodeBlock_eq. apply only_read_refl. Qed.

Lemma inert_load cm alias : inert (load cm alias).
Proof.
  unfold load.
  repeat first
    [ apply inert_bind; [|intros ?]
    | apply inert_os_ReadFile | apply inert_decodeBlock
    | apply inert_lift | apply inert_ret ].
Qed.

Lemma inert_List cm : inert (List cm).
Proof.
  unfold List.
  repeat first
    [ apply inert_bind; [|intros ?]
    | apply inert_os_ReadDir | apply inert_lift | apply inert_ret ].
Qed.

Lemma inert_doesAliasFileExist cm alias private :
  inert (doesAliasFileExist cm alias private).
Proof.
  intros w. unfold doesAliasFileExist.
  pose proof (inert_os_Stat (aliasToFile cm alias private) w) as H.
  destruct (os_Stat _ w) as [[[]|e] w1]; exact H.
Qed.

(** X4: the operations that query the store ([doesAliasFileExist], [Get],
    [List]) and the [show] command only read: whatever they return, the
    store, the mask and the random state are as before, and no write,
    removal, key generation or signing was made. *)
Theorem queries_only_read cm alias private d w :
  only_read w (snd (doesAliasFileExist cm alias private w)) /\
  only_read w (snd (Get cm alias w)) /\
  only_read w (snd (List cm w)) /\
  only_read w (snd (ShowCmd.show d w)).
Proof.
  split; [apply inert_doesAliasFileExist|].
  split; [apply inert_load|]. split; [apply inert_List|].
  unfold ShowCmd.show.
  apply (inert_bind (Get _ _) (fun _ => ret tt));
    [apply inert_load | intros ?; apply inert_ret].
Qed.

End Inert.

(** ** Deletion: what it touches and what it leaves *)

Section Deletion.
Context {lib : GoLib}.

Lemma os_Remove_trace name w :
  w_trace (snd (os_Remove name w)) = EvRemove name :: w_trace w.
Proof.
  unfold os_Remove. cbn.
  destruct (w_files w !! name) as [[| |]|]; try reflexivity.
  destruct (has_children (w_files w) name); reflexivity.
Qed.

(** The world after [Delete]: one or two removals, nothing else. *)
Lemma Delete_snd cm alias w :
  let key := aliasToFile cm alias true in
  let cert := aliasToFile cm alias false in
  let w1 := snd (os_Remove key w) in
  snd (Delete cm alias w) =
    if tolerated (fst (os_Remove key w)) then snd (os_Remove cert w1) else w1.
Proof.
  cbn zeta. rewrite Delete_unfold. cbn zeta.
  destruct (tolerated (fst (os_Remove (aliasToFile cm alias true) w)));
    [|reflexivity].
  destruct (tolerated (fst (os_Remove (aliasToFile cm alias false) _)));
    reflexivity.
Qed.

Lemma os_Remove_lookup name name' w :
  w_files (snd (os_Remove name w)) !! name' = w_files w !! name' \/
  (name' = name /\ w_files (snd (os_Remove name w)) !! name' = None).
Proof.
  rewrite os_Remove_snd_files.
  destruct (isOk (fst (os_Remove name w))); [|now left].
  destruct (decide (name' = name)) as [-> | Hne].
  - right. split; [reflexivity | apply lookup_delete_eq].
  - left. now apply lookup_delete_ne.
Qed.

(** X5: whatever it returns, [Delete] changes the store at the two paths
    of the alias only, and there it can only remove; it attempts the
    removal of the key file first and at most the two removals, and makes
    no write, key generation or signing. *)
Theorem Delete_frame cm alias w :
  let key := aliasToFile cm alias true in
  let cert := aliasToFile cm alias false in
  let w' := snd (Delete cm alias w) in
  (forall name, name <> key -> name <> cert ->
     w_files w' !! name = w_files w !! name) /\
  (forall name, w_files w' !! name = w_files w !! name \/
                w_files w' !! name = None) /\
  (w_trace w' = EvRemove key :: w_trace w \/
   w_trace w' = EvRemove cert :: EvRemove key :: w_trace w) /\
  (w_trace w' = EvRemove key :: w_trace w ->
   tolerated (fst (os_Remove key w)) = false).
Proof.
  intros key cert w'. subst w'. rewrite Delete_snd. fold key cert.
  set (w1 := snd (os_Remove key w)).
  assert (Hl1 := fun n => os_Remove_lookup key n w). fold w1 in Hl1.
  assert (Hl2 := fun n => os_Remove_lookup cert n w1).
  assert (Ht1 := os_Remove_trace key w). fold w1 in Ht1.
  assert (Ht2 := os_Remove_trace cert w1).
  destruct (tolerated (fst (os_Remove key w))).
  - repeat split.
    + intros name Hk Hc.
      destruct (Hl2 name) as [-> | [? _]]; [|contradiction].
      destruct (Hl1 name) as [-> | [? _]]; [reflexivity | contradiction].
    + intros name. destruct (Hl2 name) as [-> | [_ ->]]; [|now right].
      destruct (Hl1 name) as [-> | [_ ->]]; auto.
    + right. now rewrite Ht2, Ht1.
    + rewrite Ht2, Ht1. intros H. exfalso.
      apply (f_equal (@List.length _)) in H. cbn in H. lia.
  - repeat split.
    + intros name Hk _.
      destruct (Hl1 name) as [-> | [? _]]; [reflexivity | contradiction].
    + intros name. destruct (Hl1 name) as [-> | [_ ->]]; auto.
    + now left.
Qed.

Lemma gone_Stat name w :
  gone (w_files w) name ->
  fst (os_Stat name w) = Err (PathError "stat" name ENOENT).
Proof. unfold gone, os_Stat. cbn. intros [-> | ->]; reflexivity. Qed.

Lemma gone_exists cm alias private w :
  gone (w_files w) (aliasToFile cm alias private) ->
  fst (doesAliasFileExist cm alias private w) = false.
Proof.
  intros Hg. unfold doesAliasFileExist.
  pose proof (gone_Stat _ _ Hg) as Hs.
  destruct (os_Stat _ w) as [r w1]. cbn in Hs. subst r. reflexivity.
Qed.

Lemma gone_readFile name w :
  gone (w_files w) name ->
  readFile name w = Err (PathError "open" name ENOENT).
Proof. unfold gone, readFile, os_ReadFile. cbn. intros [-> | ->]; reflexivity. Qed.

Lemma Delete_Ok_gone cm alias w :
  fst (Delete cm alias w) = Ok tt ->
  gone (w_files (snd (Delete cm alias w))) (aliasToFile cm alias true) /\
  gone (w_files (snd (Delete cm alias w))) (aliasToFile cm alias false).
Proof.
  rewrite Delete_snd. rewrite Delete_unfold. cbn zeta.
  destruct (tolerated (fst (os_Remove (aliasToFile cm alias true) w))) eqn:H1.
  - destruct (tolerated (fst (os_Remove (aliasToFile cm alias false) _)))
      eqn:H2.
    + intros _. split.
      * apply os_Remove_keeps_gone. now apply os_Remove_tolerated.
      * now apply os_Remove_tolerated.
    + intros H. rewrite H in H2. discriminate.
  - intros H. rewrite H in H1. discriminate.
Qed.

(** X6: after a [Delete] that returned nil, neither file of the alias
    exists for [doesAliasFileExist], [Get] of the alias fails with the
    not-found error of its certificate file, and a new [Delete] returns
    nil. *)
Theorem Delete_then_absent cm alias w :
  fst (Delete cm alias w) = Ok tt ->
  let w' := snd (Delete cm alias w) in
  fst (doesAliasFileExist cm alias true w') = false /\
  fst (doesAliasFileExist cm alias false w') = false /\
  fst (Get cm alias w') =
    Err (PathError "open" (aliasToFile cm alias false) ENOENT) /\
  fst (Delete cm alias w') = Ok tt.
Proof.
  intros H w'. destruct (Delete_Ok_gone cm alias w H) as [Hk Hc].
  fold w' in Hk, Hc.
  split; [now apply gone_exists|]. split; [now apply gone_exists|].
  split.
  - unfold Get. rewrite load_fst. cbn zeta.
    change (dir cm ++ "/" ++ alias ++ ".pem") with (aliasToFile cm alias false).
    now rewrite (gone_readFile _ _ Hc).
  - now apply Delete_gone.
Qed.

(** X20: the [remove] command removes nothing for an empty alias (the
    world stays as it is and the alias error is returned, where [Delete]
    itself would address the files [.key] and [.pem] of the directory);
    for another alias it changes the store at the two paths of the alias
    only, and when it returns nil neither file exists any more. *)
Theorem remove_command d w :
  let cm := New (RemoveCmd.dir d) in
  let r := cobra_Execute RemoveCmd.NewCommand d w in
  (RemoveCmd.alias d = "" -> r = (Err ErrAliasMissing, w)) /\
  (forall name,
     name <> aliasToFile cm (RemoveCmd.alias d) true ->
     name <> aliasToFile cm (RemoveCmd.alias d) false ->
     w_files (snd r) !! name = w_files w !! name) /\
  (fst r = Ok tt ->
   RemoveCmd.alias d <> "" /\
   fst (doesAliasFileExist cm (RemoveCmd.alias d) true (snd r)) = false /\
   fst (doesAliasFileExist cm (RemoveCmd.alias d) false (snd r)) = false).
Proof.
  cbn zeta.
  unfold cobra_Execute, RemoveCmd.NewCommand, RemoveCmd.validate.
  cbn [PreRunE RunE].
  destruct (RemoveCmd.alias d) as [|c s] eqn:Ha; cbn [String.length Nat.eqb].
  - split; [reflexivity|]. split; [reflexivity|]. discriminate.
  - unfold RemoveCmd.remove. rewrite Ha.
    set (cm := New (RemoveCmd.dir d)). set (alias := String c s).
    split; [discriminate|]. split.
    + intros name Hk Hc. rewrite Delete_snd. cbn zeta.
      set (w1 := snd (os_Remove (aliasToFile cm alias true) w)).
      assert (H1 : w_files w1 !! name = w_files w !! name).
      { destruct (os_Remove_lookup (aliasToFile cm alias true) name w)
          as [H | [H _]]; [exact H | contradiction]. }
      destruct (tolerated _); [|exact H1].
      destruct (os_Remove_lookup (aliasToFile cm alias false) name w1)
        as [H | [H _]]; [congruence | contradiction].
    + intros Hok. split; [discriminate|].
      destruct (Delete_Ok_gone cm alias w Hok) as [Hk Hc].
      split; now apply gone_exists.
Qed.

End Deletion.

(** Deleting the leaf of the scenario. *)
Lemma Delete_then_absent_witness :
  let w' := snd (Delete Standin.cm "srv" Standin.w3) in
  fst (Delete Standin.cm "srv" Standin.w3) = Ok tt /\
  fst (doesAliasFileExist Standin.cm "srv" true w') = false /\
  fst (doesAliasFileExist Standin.cm "srv" false w') = false /\
  fst (Get (lib := Standin.lib) Standin.cm "srv" w') =
    Err (PathError "open" (aliasToFile Standin.cm "srv" false) ENOENT) /\
  fst (Delete Standin.cm "srv" w') = Ok tt.
Proof.
  intros w'.
  assert (H : fst (Delete Standin.cm "srv" Standin.w3) = Ok tt)
    by (vm_compute; reflexivity).
  split; [exact H|].
  exact (Delete_then_absent (lib := Standin.lib) Standin.cm "srv" Standin.w3 H).
Defined.

(** ** Saving: order of the writes, and reading back *)

Section SaveLoad.
Context {lib : GoLib}.

Lemma os_WriteFile_cases name data perm w :
  let w1 := snd (os_WriteFile name data perm w) in
  w_trace w1 = EvWriteFile name data perm :: w_trace w /\
  w_umask w1 = w_umask w /\ w_rand w1 = w_rand w /\
  ((fst (os_WriteFile name data perm w) = Ok tt /\
    exists mode, w_files w1 = <[name := NFile mode data]> (w_files w)) \/
   (exists e, fst (os_WriteFile name data perm w) = Err e /\
              w_files w1 = w_files w)).
Proof.
  unfold os_WriteFile. cbn.
  destruct (w_files w !! name) as [[mode old| |e]|]; cbn;
    repeat split; eauto.
Qed.

(** [save], step by step. *)
Lemma save_unfold cm cert key alias w :
  save cm cert key alias w =
  match pem_Encode (pem.mkBlock typeCert cert) with
  | Err e => (Err e, w)
  | Ok certPem =>
      match pem_Encode (pem.mkBlock typeRsaPrivateKey key) with
      | Err e => (Err e, w)
      | Ok keyPem =>
          let s1 := os_WriteFile (aliasToFile cm alias false) certPem
                      (octal 6 4 0) w in
          match fst s1 with
          | Err e => (Err e, snd s1)
          | Ok _ => os_WriteFile (aliasToFile cm alias true) keyPem
                      (octal 4 0 0) (snd s1)
          end
      end
  end.
Proof.
  unfold save, bind, lift.
  destruct (pem_Encode (pem.mkBlock typeCert cert)); [|reflexivity].
  destruct (pem_Encode (pem.mkBlock typeRsaPrivateKey key)); [|reflexivity].
  cbn zeta. destruct (os_WriteFile _ _ _ w) as [[[]|e] w1]; reflexivity.
Qed.


(** What a successful [save] leaves at the two paths. *)
Lemma save_Ok_files cm cert key alias w w' :
  save cm cert key alias w = (Ok tt, w') ->
  exists certPem keyPem mode1 mode2,
    pem_Encode (pem.mkBlock typeCert cert) = Ok certPem /\
    pem_Encode (pem.mkBlock typeRsaPrivateKey key) = Ok keyPem /\
    w_files w' =
      <[aliasToFile cm alias true := NFile mode2 keyPem]>
        (<[aliasToFile cm alias false := NFile mode1 certPem]> (w_files w)) /\
    w_trace w' =
      EvWriteFile (aliasToFile cm alias true) keyPem (octal 4 0 0)
      :: EvWriteFile (aliasToFile cm alias false) certPem (octal 6 4 0)
      :: w_trace w /\
    w_rand w' = w_rand w /\ w_umask w' = w_umask w.
Proof.
  rewrite save_unfold.
  destruct (pem_Encode (pem.mkBlock typeCert cert)) as [certPem|];
    [|discriminate].
  destruct (pem_Encode (pem.mkBlock typeRsaPrivateKey key)) as [keyPem|];
    [|discriminate].
  cbn zeta.
  destruct (os_WriteFile_cases (aliasToFile cm alias false) certPem
              (octal 6 4 0) w) as (Ht1 & Hu1 & Hr1 & Hc1).
  set (w1 := snd (os_WriteFile (aliasToFile cm alias false) certPem
                    (octal 6 4 0) w)) in *.
  destruct Hc1 as [[Hok1 [mode1 Hf1]] | [e1 [He1 _]]];
    [rewrite Hok1 | rewrite He1; discriminate].
  destruct (os_WriteFile_cases (aliasToFile cm alias true) keyPem
              (octal 4 0 0) w1) as (Ht2 & Hu2 & Hr2 & Hc2).
  intros H.
  destruct Hc2 as [[Hok2 [mode2 Hf2]] | [e2 [He2 _]]];
    [|rewrite H in He2; discriminate].
  rewrite H in Ht2, Hu2, Hr2, Hf2. cbn [snd] in *.
  exists certPem, keyPem, mode1, mode2. repeat split; try congruence.
Qed.

Lemma load_of_files cm alias w certPem keyPem mode1 mode2 cert key :
  w_files w !! aliasToFile cm alias false = Some (NFile mode1 certPem) ->
  w_files w !! aliasToFile cm alias true = Some (NFile mode2 keyPem) ->
  pem_Decode certPem = Some (pem.mkBlock typeCert cert) ->
  pem_Decode keyPem = Some (pem.mkBlock typeRsaPrivateKey key) ->
  fst (load cm alias w) =
    match x509_ParseCertificate cert with
    | Err e => Err e
    | Ok c =>
        match x509_ParsePKCS1PrivateKey key with
        | Err e => Err e
        | Ok k => Ok (mkPairHolder c k)
        end
    end.
Proof.
  intros Hc Hk Hdc Hdk. rewrite load_fst. cbn zeta.
  change (dir cm ++ "/" ++ alias ++ ".pem") with (aliasToFile cm alias false).
  change (dir cm ++ "/" ++ alias ++ ".key") with (aliasToFile cm alias true).
  unfold readFile, os_ReadFile. cbn. rewrite Hc, Hk. cbn.
  unfold badBlock, blockBytes. rewrite Hdc, Hdk. cbn.
  reflexivity.
Qed.

(** X7: when the armor reads back what it wrote, a [load] after a
    successful [save] under the same alias returns what the two parsers
    make of the saved bytes, the certificate's parse error first: the
    paths and the block types of [save] are those [load] expects, also
    when the files existed before. *)
Theorem save_then_load cm cert key alias w w' :
  save cm cert key alias w = (Ok tt, w') ->
  pem_roundtrip typeCert -> pem_roundtrip typeRsaPrivateKey ->
  fst (load cm alias w') =
    match x509_ParseCertificate cert with
    | Err e => Err e
    | Ok c =>
        match x509_ParsePKCS1PrivateKey key with
        | Err e => Err e
        | Ok k => Ok (mkPairHolder c k)
        end
    end.
Proof.
  intros H Hrc Hrk.
  apply save_Ok_files in H
    as (certPem & keyPem & m1 & m2 & Hec & Hek & Hf & _).
  apply (load_of_files cm alias w' certPem keyPem m1 m2).
  - rewrite Hf, lookup_insert_ne by apply aliasToFile_key_ne_cert.
    apply lookup_insert_eq.
  - rewrite Hf. apply lookup_insert_eq.
  - now apply Hrc.
  - now apply Hrk.
Qed.

Lemma exists_of_file cm alias private w mode data :
  w_files w !! aliasToFile cm alias private = Some (NFile mode data) ->
  fst (doesAliasFileExist cm alias private w) = true.
Proof.
  intros H. unfold doesAliasFileExist, os_Stat. cbn. now rewrite H.
Qed.

(** X8: after a successful [save], both files of the alias exist for
    [doesAliasFileExist], and no other path of the store has changed. *)
Theorem save_then_exists cm cert key alias w w' :
  save cm cert key alias w = (Ok tt, w') ->
  fst (doesAliasFileExist cm alias true w') = true /\
  fst (doesAliasFileExist cm alias false w') = true /\
  (forall name, name <> aliasToFile cm alias true ->
                name <> aliasToFile cm alias false ->
                w_files w' !! name = w_files w !! name).
Proof.
  intros H.
  apply save_Ok_files in H
    as (certPem & keyPem & m1 & m2 & _ & _ & Hf & _).
  split; [|split].
  - apply (exists_of_file _ _ _ _ m2 keyPem). rewrite Hf.
    apply lookup_insert_eq.
  - apply (exists_of_file _ _ _ _ m1 certPem).
    rewrite Hf, lookup_insert_ne by apply aliasToFile_key_ne_cert.
    apply lookup_insert_eq.
  - intros name Hk Hc. rewrite Hf.
    rewrite !lookup_insert_ne by congruence. reflexivity.
Qed.

End SaveLoad.

Lemma Standin_pem_roundtrip ty :
  ty = typeCert \/ ty = typeRsaPrivateKey ->
  pem_roundtrip (lib := Standin.lib) ty.
Proof.
  intros [-> | ->] bytes data; cbn; intros [= <-]; reflexivity.
Qed.

(** Saving over the pair of the scenario's leaf, and loading it. *)
Lemma save_then_load_witness :
  let w' := snd (save (lib := Standin.lib) Standin.cm [x41] [x42] "srv"
                   Standin.w3) in
  save (lib := Standin.lib) Standin.cm [x41] [x42] "srv" Standin.w3
    = (Ok tt, w') /\
  pem_roundtrip (lib := Standin.lib) typeCert /\
  pem_roundtrip (lib := Standin.lib) typeRsaPrivateKey /\
  fst (load (lib := Standin.lib) Standin.cm "srv" w') =
    Ok (mkPairHolder
          (x509.mkCertificate (Standin.cn "A") pkix.empty 0 0 false 0 false
                              None [] [] [])
          (rsa.mkPrivateKey (rsa.mkPublicKey 1 65537) 1)).
Proof.
  intros w'.
  assert (H0 : fst (save (lib := Standin.lib) Standin.cm [x41] [x42] "srv"
                      Standin.w3) = Ok tt) by (vm_compute; reflexivity).
  pose proof (run_Ok_tt _ _ H0) as H.
  split; [exact H|].
  split; [apply Standin_pem_roundtrip; now left|].
  split; [apply Standin_pem_roundtrip; now right|].
  exact (save_then_load (lib := Standin.lib) Standin.cm [x41] [x42] "srv"
           Standin.w3 w' H (Standin_pem_roundtrip _ (or_introl eq_refl))
           (Standin_pem_roundtrip _ (or_intror eq_refl))).
Defined.

Lemma save_then_exists_witness :
  let w' := snd (save (lib := Standin.lib) Standin.cm [x41] [x42] "new"
                   Standin.w3) in
  save (lib := Standin.lib) Standin.cm [x41] [x42] "new" Standin.w3
    = (Ok tt, w') /\
  fst (doesAliasFileExist Standin.cm "new" true w') = true /\
  fst (doesAliasFileExist Standin.cm "new" false w') = true /\
  (forall name, name <> aliasToFile Standin.cm "new" true ->
                name <> aliasToFile Standin.cm "new" false ->
                w_files w' !! name = w_files Standin.w3 !! name).
Proof.
  intros w'.
  assert (H0 : fst (save (lib := Standin.lib) Standin.cm [x41] [x42] "new"
                      Standin.w3) = Ok tt) by (vm_compute; reflexivity).
  pose proof (run_Ok_tt _ _ H0) as H.
  split; [exact H|].
  exact (save_then_exists (lib := Standin.lib) Standin.cm [x41] [x42] "new"
           Standin.w3 w' H).
Defined.


(** ** Issuance: failures, frames, the signer *)

Section IssuanceSteps.
Context {lib : GoLib}.

Lemma call_GenerateKey_cases bits w :
  let s := call_GenerateKey bits w in
  fst s = fst (rsa_GenerateKey (w_rand w) bits) /\
  w_rand (snd s) = snd (rsa_GenerateKey (w_rand w) bits) /\
  w_files (snd s) = w_files w /\ w_umask (snd s) = w_umask w /\
  w_trace (snd s) = EvGenerateKey bits :: w_trace w.
Proof.
  unfold call_GenerateKey. cbn.
  destruct (rsa_GenerateKey (w_rand w) bits); repeat split.
Qed.

Lemma call_CreateCertificate_cases template parent pub priv w :
  let s := call_CreateCertificate template parent pub priv w in
  fst s = fst (x509_CreateCertificate (w_rand w) template parent pub priv) /\
  w_rand (snd s)
    = snd (x509_CreateCertificate (w_rand w) template parent pub priv) /\
  w_files (snd s) = w_files w /\ w_umask (snd s) = w_umask w /\
  w_trace (snd s) = EvCreateCertificate template parent pub priv :: w_trace w.
Proof.
  unfold call_CreateCertificate. cbn.
  destruct (x509_CreateCertificate (w_rand w) template parent pub priv);
    repeat split.
Qed.

(** How [create] can end: before the signing call, at the signing call,
    or in [save]. *)
Lemma create_cases cm cd w r w' :
  create cm cd w = (r, w') ->
  (isOk r = false /\ w_files w' = w_files w /\ w_umask w' = w_umask w /\
   writes (w_trace w') = writes (w_trace w) /\
   signings (w_trace w') = signings (w_trace w)) \/
  (exists tmpl parent pub priv ws,
     w_files ws = w_files w /\ w_umask ws = w_umask w /\
     writes (w_trace ws) = writes (w_trace w) /\
     signings (w_trace ws) = (tmpl, parent, pub, priv) :: signings (w_trace w) /\
     ((isOk r = false /\ w' = ws) \/
      exists certBytes keyBytes,
        save cm certBytes keyBytes (Alias cd) ws = (r, w'))).
Proof.
  unfold create. intros H.
  apply bind_inv in H as [(t1 & wa & Ht1 & H) | (e & He & _)];
    [|discriminate].
  apply bind_inv in H as [(t2 & wb & Ht2 & H) | (e & He & _)];
    [|discriminate].
  injection Ht1 as _ <-. injection Ht2 as _ <-.
  set (wb := tick (log EvNow (tick (log EvNow w)))) in *.
  assert (Hb : only_read w wb) by (repeat split).
  apply bind_inv in H as [([ch tmpl0] & wc & Hch & H) | (e & He & ->)].
  2:{ (* the parent does not load *)
    left. destruct (SelfSigned cd); cbn [negb] in He; [discriminate|].
    apply bind_inv in He as [(h & wl & _ & Hr) | (e' & Hl & _)];
      [discriminate|].
    pose proof (inert_load cm (ParentAlias cd) wb) as Hi.
    rewrite Hl in Hi. cbn [snd] in Hi.
    destruct (only_read_trans _ _ _ Hb Hi) as (? & ? & ? & ? & ? & ? & ?).
    repeat split; assumption. }
  assert (Hc : only_read w wc).
  { destruct (SelfSigned cd); cbn [negb] in Hch.
    - injection Hch as _ _ <-. exact Hb.
    - apply bind_inv in Hch as [(h & wl & Hl & Hr) | (e' & _ & ?)];
        [|discriminate].
      injection Hr as _ _ <-.
      pose proof (inert_load cm (ParentAlias cd) wb) as Hi.
      rewrite Hl in Hi. exact (only_read_trans _ _ _ Hb Hi). }
  clear Hch Hb. cbn [fst snd] in H.
  destruct Hc as (Hf & Hu & Hr & Hw & _ & _ & Hs).
  destruct (call_GenerateKey_cases (KeySize cd) wc)
    as (_ & _ & Hkf & Hku & Hkt).
  apply bind_inv in H as [(newKey & wd & Hkey & H) | (e & He & ->)].
  2:{ left. rewrite He in Hkf, Hku, Hkt. cbn [snd] in *.
      rewrite Hkt. cbn [writes signings]. repeat split; congruence. }
  rewrite Hkey in Hkf, Hku, Hkt. cbn [snd] in *.
  apply bind_inv in H as [([parentCert privateKey] & we & Hsg & H)
                         | (e & He & ->)].
  2:{ left. assert (w' = wd) as ->.
      { destruct (SelfSigned cd); [discriminate|].
        destruct ch; [discriminate | now injection He]. }
      rewrite Hkt. cbn [writes signings]. repeat split; congruence. }
  assert (we = wd) as ->.
  { destruct (SelfSigned cd); [now injection Hsg|].
    destruct ch; [now injection Hsg | discriminate]. }
  cbn [fst snd] in H.
  right.
  match type of H with
  | bind (call_CreateCertificate ?a ?b ?c ?d) _ _ = _ =>
      destruct (call_CreateCertificate_cases a b c d wd)
        as (_ & _ & Hcf & Hcu & Hct);
      exists a, b, c, d
  end.
  apply bind_inv in H as [(certBytes & ws & Hsign & H) | (e & He & ->)].
  - rewrite Hsign in Hcf, Hcu, Hct. cbn [snd] in *. exists ws.
    split; [congruence|]. split; [congruence|].
    split; [rewrite Hct, Hkt; cbn [writes]; congruence|].
    split; [rewrite Hct, Hkt; cbn [signings]; congruence|].
    right. eauto.
  - rewrite He in Hcf, Hcu, Hct. cbn [snd] in *. exists w'.
    split; [congruence|]. split; [congruence|].
    split; [rewrite Hct, Hkt; cbn [writes]; congruence|].
    split; [rewrite Hct, Hkt; cbn [signings]; congruence|].
    left. split; reflexivity.
Qed.

(** [save] changes the store at its two paths only, and signs nothing. *)
Lemma save_frame cm cert key alias w :
  let w' := snd (save cm cert key alias w) in
  (forall name, name <> aliasToFile cm alias true ->
                name <> aliasToFile cm alias false ->
                w_files w' !! name = w_files w !! name) /\
  (writes (w_trace w') = writes (w_trace w) -> w_files w' = w_files w).
Proof.
  cbn zeta. rewrite save_unfold.
  destruct (pem_Encode (pem.mkBlock typeCert cert)) as [certPem|];
    [|split; reflexivity].
  destruct (pem_Encode (pem.mkBlock typeRsaPrivateKey key)) as [keyPem|];
    [|split; reflexivity].
  cbn zeta.
  destruct (os_WriteFile_cases (aliasToFile cm alias false) certPem
              (octal 6 4 0) w) as (Ht1 & _ & _ & Hc1).
  set (w1 := snd (os_WriteFile (aliasToFile cm alias false) certPem
                    (octal 6 4 0) w)) in *.
  destruct (os_WriteFile_cases (aliasToFile cm alias true) keyPem
              (octal 4 0 0) w1) as (Ht2 & _ & _ & Hc2).
  set (w2 := snd (os_WriteFile (aliasToFile cm alias true) keyPem
                    (octal 4 0 0) w1)) in *.
  assert (Hl1 : forall name, name <> aliasToFile cm alias false ->
                  w_files w1 !! name = w_files w !! name).
  { intros name Hn. destruct Hc1 as [[_ [m ->]] | [e [_ ->]]];
      [now apply lookup_insert_ne | reflexivity]. }
  assert (Hl2 : forall name, name <> aliasToFile cm alias true ->
                  w_files w2 !! name = w_files w1 !! name).
  { intros name Hn. destruct Hc2 as [[_ [m ->]] | [e [_ ->]]];
      [now apply lookup_insert_ne | reflexivity]. }
  destruct (fst (os_WriteFile (aliasToFile cm alias false) certPem
                   (octal 6 4 0) w)) as [[]|e1]; cbn [snd]; fold w1.
  - fold w2. split.
    + intros name Hk Hc. rewrite Hl2, Hl1 by assumption. reflexivity.
    + rewrite Ht2, Ht1. cbn [writes]. intros H. exfalso.
      apply (f_equal (@List.length _)) in H. cbn in H. lia.
  - split.
    + intros name _ Hc. now apply Hl1.
    + rewrite Ht1. cbn [writes]. intros H. exfalso.
      apply (f_equal (@List.length _)) in H. cbn in H. lia.
Qed.

Lemma list_cons_neq {A} (x : A) (l : list A) : x :: l <> l.
Proof.
  intros H. apply (f_equal (@List.length _)) in H. cbn in H. lia.
Qed.

(** X10: whatever it returns, an issuance operation changes the store at
    the two paths of the descriptor's alias only. *)
Theorem issue_frame op cm cd w name :
  name <> aliasToFile cm (Alias cd) true ->
  name <> aliasToFile cm (Alias cd) false ->
  w_files (snd (issue op cm cd w)) !! name = w_files w !! name.
Proof.
  intros Hk Hc. rewrite issue_cascade.
  destruct (String.length (pkix_Name_String (Subject cd)) =? 0)%nat;
    [reflexivity|].
  destruct (String.length (Alias cd) =? 0)%nat; [reflexivity|].
  destruct (chained op && _); [reflexivity|].
  destruct (ValidYears cd <? 1); [reflexivity|].
  set (cd' := setFlags (negb (chained op)) (issuesCA op) cd).
  destruct (create cm cd' w) as [r w'] eqn:Hcr. cbn [snd].
  apply create_cases in Hcr
    as [(_ & Hf & _) | (tmpl & parent & pub & priv & ws & Hf & _ & _ & _ & Hend)].
  - now rewrite Hf.
  - destruct Hend as [[_ ->] | (certBytes & keyBytes & Hsave)];
      [now rewrite Hf|].
    destruct (save_frame cm certBytes keyBytes (Alias cd') ws) as [Hfr _].
    rewrite Hsave in Hfr. cbn [snd] in Hfr.
    rewrite (Hfr name Hk Hc), Hf. reflexivity.
Qed.

(** X12: an issuance operation that signed no certificate, because a rule,
    the load of the parent or the key generation failed, wrote nothing:
    the store is as before and no write was attempted. *)
Theorem issue_unsigned_writes_nothing op cm cd w :
  let w' := snd (issue op cm cd w) in
  signed_templates (w_trace w') = signed_templates (w_trace w) ->
  isOk (fst (issue op cm cd w)) = false /\
  w_files w' = w_files w /\
  writes (w_trace w') = writes (w_trace w).
Proof.
  cbn zeta. rewrite issue_cascade.
  destruct (String.length (pkix_Name_String (Subject cd)) =? 0)%nat;
    [repeat split|].
  destruct (String.length (Alias cd) =? 0)%nat; [repeat split|].
  destruct (chained op && _); [repeat split|].
  destruct (ValidYears cd <? 1); [repeat split|].
  set (cd' := setFlags (negb (chained op)) (issuesCA op) cd).
  destruct (create cm cd' w) as [r w'] eqn:Hcr. cbn [fst snd].
  unfold signed_templates. intros Hs.
  apply create_cases in Hcr
    as [(Hr & Hf & _ & Hw & _)
       | (tmpl & parent & pub & priv & ws & Hf & _ & Hw & Hsg & Hend)].
  - repeat split; assumption.
  - exfalso.
    assert (Hs' : signings (w_trace w') = signings (w_trace ws)).
    { destruct Hend as [[_ ->] | (certBytes & keyBytes & Hsave)];
        [reflexivity|].
      pose proof (silent_save cm certBytes keyBytes (Alias cd') ws) as Hq.
      now rewrite Hsave in Hq. }
    rewrite Hs', Hsg in Hs. cbn [map] in Hs.
    exact (list_cons_neq _ _ Hs).
Qed.

End IssuanceSteps.

(** A leaf whose parent does not exist: nothing is signed or written. *)
Lemma issue_unsigned_writes_nothing_witness :
  let cd := mkCertData 2048 1 [] [] "orphan" "nobody" false false pkix.empty
                       (Standin.cn "orphan") 0 in
  let w' := snd (issue (lib := Standin.lib) OpLeaf Standin.cm cd Standin.w3) in
  signed_templates (w_trace w') = signed_templates (w_trace Standin.w3) /\
  fst (issue (lib := Standin.lib) OpLeaf Standin.cm cd Standin.w3)
    = Err (PathError "open" "/pki/nobody.pem" ENOENT) /\
  isOk (fst (issue (lib := Standin.lib) OpLeaf Standin.cm cd Standin.w3))
    = false /\
  w_files w' = w_files Standin.w3 /\
  writes (w_trace w') = writes (w_trace Standin.w3).
Proof.
  intros cd w'.
  assert (H : signed_templates (w_trace w')
              = signed_templates (w_trace Standin.w3))
    by (vm_compute; reflexivity).
  split; [exact H|]. split; [vm_compute; reflexivity|].
  exact (issue_unsigned_writes_nothing (lib := Standin.lib) OpLeaf Standin.cm
           cd Standin.w3 H).
Defined.

Lemma issue_frame_witness :
  let w' := snd (issue (lib := Standin.lib) OpLeaf Standin.cm Standin.cdLeaf
                   Standin.w2) in
  "/pki/root.key" <> aliasToFile Standin.cm (Alias Standin.cdLeaf) true /\
  "/pki/root.key" <> aliasToFile Standin.cm (Alias Standin.cdLeaf) false /\
  w_files w' !! "/pki/root.key" = w_files Standin.w2 !! "/pki/root.key".
Proof.
  intros w'.
  assert (H1 : "/pki/root.key"
               <> aliasToFile Standin.cm (Alias Standin.cdLeaf) true)
    by (vm_compute; discriminate).
  assert (H2 : "/pki/root.key"
               <> aliasToFile Standin.cm (Alias Standin.cdLeaf) false)
    by (vm_compute; discriminate).
  split; [exact H1|]. split; [exact H2|].
  exact (issue_frame (lib := Standin.lib) OpLeaf Standin.cm Standin.cdLeaf
           Standin.w2 "/pki/root.key" H1 H2).
Defined.

Section IssuanceSuccess.
Context {lib : GoLib}.

(** A successful [create], step by step. *)
Lemma create_Ok_steps cm cd w w' :
  create cm cd w = (Ok tt, w') ->
  exists tmpl parent priv newKey rnd1 certBytes rnd2 ws,
    rsa_GenerateKey (w_rand w) (KeySize cd) = (Ok newKey, rnd1) /\
    x509.Subject tmpl = Subject cd /\
    x509.NotBefore tmpl = w_clock w (w_ticks w) /\
    x509.NotAfter tmpl =
      time_AddDate (w_clock w (S (w_ticks w))) (ValidYears cd) 0 0 /\
    x509.IsCA tmpl = IsCA cd /\
    x509.BasicConstraintsValid tmpl = true /\
    (if SelfSigned cd then parent = tmpl /\ priv = newKey
     else exists ch, fst (load cm (ParentAlias cd) w) = Ok ch /\
                     parent = Cert ch /\ priv = Key ch) /\
    x509_CreateCertificate rnd1 tmpl parent (rsa.Public newKey) priv
      = (Ok certBytes, rnd2) /\
    w_files ws = w_files w /\ w_umask ws = w_umask w /\
    writes (w_trace ws) = writes (w_trace w) /\
    keygens (w_trace ws) = KeySize cd :: keygens (w_trace w) /\
    signings (w_trace ws)
      = (tmpl, parent, rsa.Public newKey, priv) :: signings (w_trace w) /\
    save cm certBytes (x509_MarshalPKCS1PrivateKey newKey) (Alias cd) ws
      = (Ok tt, w').
Proof.
  unfold create. intros H.
  apply bind_Ok_inv in H as (t1 & wa & Ht1 & H).
  apply bind_Ok_inv in H as (t2 & wb & Ht2 & H).
  injection Ht1 as <- <-. injection Ht2 as <- <-.
  set (wb := tick (log EvNow (tick (log EvNow w)))) in *.
  assert (Hb : only_read w wb) by (repeat split).
  apply bind_Ok_inv in H as ([ch tmpl0] & wc & Hch & H).
  cbn [fst snd] in H.
  apply bind_Ok_inv in H as (newKey & wd & Hkey & H).
  apply bind_Ok_inv in H as ([parentCert privateKey] & we & Hsigner & H).
  cbn [fst snd] in H.
  apply bind_Ok_inv in H as (certBytes & ws & Hsign & Hsave).
  destruct (call_GenerateKey_cases (KeySize cd) wc)
    as (Hk1 & Hk2 & Hkf & Hku & Hkt).
  rewrite Hkey in Hk1, Hk2, Hkf, Hku, Hkt. cbn [fst snd] in *.
  match type of Hsign with
  | call_CreateCertificate ?a ?b ?c ?d ?x = _ =>
      destruct (call_CreateCertificate_cases a b c d x)
        as (Hc1 & Hc2 & Hcf & Hcu & Hct)
  end.
  rewrite Hsign in Hc1, Hc2, Hcf, Hcu, Hct. cbn [fst snd] in *.
  assert (Hc : only_read w wc /\
               (if SelfSigned cd
                then ch = None /\ x509.Issuer tmpl0 = Issuer cd
                else exists h, ch = Some h /\
                               fst (load cm (ParentAlias cd) w) = Ok h) /\
               x509.Subject tmpl0 = Subject cd /\
               x509.NotBefore tmpl0 = w_clock w (w_ticks w) /\
               x509.NotAfter tmpl0 =
                 time_AddDate (w_clock w (S (w_ticks w))) (ValidYears cd) 0 0 /\
               x509.IsCA tmpl0 = IsCA cd /\
               x509.BasicConstraintsValid tmpl0 = true).
  { destruct (SelfSigned cd); cbn [negb] in Hch.
    - injection Hch as <- <- <-. repeat split.
    - apply bind_Ok_inv in Hch as (h & wl & Hl & Hr).
      injection Hr as <- <- <-.
      pose proof (inert_load cm (ParentAlias cd) wb) as Hi.
      rewrite Hl in Hi. cbn [snd] in Hi.
      split; [exact (only_read_trans _ _ _ Hb Hi)|].
      split; [|repeat split].
      exists h. split; [reflexivity|].
      rewrite <- (load_fst_files cm (ParentAlias cd) wb w) by reflexivity.
      now rewrite Hl. }
  destruct Hc as ((Hf & Hu & Hr & Hw & _ & Hg & Hs) & Hpar & Hsub & Hnb
                  & Hna & Hca & Hbc).
  assert (Hrk : rsa_GenerateKey (w_rand w) (KeySize cd)
                = (Ok newKey, w_rand wd)).
  { rewrite <- Hr. destruct (rsa_GenerateKey (w_rand wc) (KeySize cd)).
    cbn in Hk1, Hk2. congruence. }
  assert (Hwe : we = wd /\
                if SelfSigned cd
                then privateKey = newKey
                else exists h, fst (load cm (ParentAlias cd) w) = Ok h /\
                               parentCert = Cert h /\ privateKey = Key h).
  { destruct (SelfSigned cd).
    - injection Hsigner as E1 E2 E3. split; congruence.
    - destruct Hpar as (h & -> & Hl). injection Hsigner as <- <- <-.
      split; [reflexivity|]. exists h. repeat split. exact Hl. }
  destruct Hwe as [-> Hpriv].
  match type of Hsign with
  | call_CreateCertificate ?a ?b ?c ?d _ = _ =>
      exists a, b, d, newKey, (w_rand wd), certBytes, (w_rand ws), ws
  end.
  split; [exact Hrk|].
  split; [destruct (IsCA cd), (Serial cd =? 0); exact Hsub|].
  split; [destruct (IsCA cd), (Serial cd =? 0); exact Hnb|].
  split; [destruct (IsCA cd), (Serial cd =? 0); exact Hna|].
  split; [destruct (IsCA cd), (Serial cd =? 0); exact Hca|].
  split; [destruct (IsCA cd), (Serial cd =? 0); exact Hbc|].
  split.
  { destruct (SelfSigned cd).
    - injection Hsigner as <- _. split; [reflexivity | exact Hpriv].
    - exact Hpriv. }
  split.
  { destruct (x509_CreateCertificate (w_rand wd) _ _ _ _).
    cbn in Hc1, Hc2. congruence. }
  split; [congruence|]. split; [congruence|].
  split; [rewrite Hct, Hkt; cbn [writes]; congruence|].
  split; [rewrite Hct, Hkt; cbn [keygens]; congruence|].
  split; [rewrite Hct, Hkt; cbn [signings]; congruence|].
  exact Hsave.
Qed.

(** The rules passed when an operation succeeded. *)
Lemma issue_Ok_create op cm cd w w' :
  issue op cm cd w = (Ok tt, w') ->
  create cm (setFlags (negb (chained op)) (issuesCA op) cd) w = (Ok tt, w') /\
  1 <= ValidYears cd.
Proof.
  rewrite issue_cascade.
  destruct (String.length (pkix_Name_String (Subject cd)) =? 0)%nat;
    [discriminate|].
  destruct (String.length (Alias cd) =? 0)%nat; [discriminate|].
  destruct (chained op && _); [discriminate|].
  destruct (Z.ltb_spec (ValidYears cd) 1) as [Hlt | Hge]; [discriminate|].
  intros Hcr. split; [exact Hcr | lia].
Qed.

(** X13: a successful operation generates one key, of the size the
    descriptor asks for, from the random state it was given; it certifies
    the public half of that key and saves that key under the alias.  A root
    CA is signed with that same key, as its own parent; an intermediate
    CA or a leaf is signed with the private key of the pair loaded for the
    parent alias, under the parent's certificate. *)
Theorem issue_signer op cm cd w w' :
  issue op cm cd w = (Ok tt, w') ->
  exists tmpl parent priv newKey rnd1 keyPem mode,
    rsa_GenerateKey (w_rand w) (KeySize cd) = (Ok newKey, rnd1) /\
    keygens (w_trace w') = KeySize cd :: keygens (w_trace w) /\
    signings (w_trace w')
      = (tmpl, parent, rsa.Public newKey, priv) :: signings (w_trace w) /\
    match op with
    | OpRootCA => parent = tmpl /\ priv = newKey
    | _ => exists ch, fst (load cm (ParentAlias cd) w) = Ok ch /\
                      parent = Cert ch /\ priv = Key ch
    end /\
    pem_Encode (pem.mkBlock typeRsaPrivateKey
                  (x509_MarshalPKCS1PrivateKey newKey)) = Ok keyPem /\
    w_files w' !! aliasToFile cm (Alias cd) true = Some (NFile mode keyPem).
Proof.
  intros H. apply issue_Ok_create in H as [H _].
  apply create_Ok_steps in H
    as (tmpl & parent & priv & newKey & rnd1 & certBytes & rnd2 & ws & Hk & _
        & _ & _ & _ & _ & Hsig & _ & _ & _ & _ & Hg & Hs & Hsave).
  cbn [KeySize Alias ParentAlias SelfSigned setFlags] in *.
  apply save_Ok_files in Hsave
    as (certPem & keyPem & m1 & m2 & _ & Hek & Hf & Ht & _).
  exists tmpl, parent, priv, newKey, rnd1, keyPem, m2.
  split; [exact Hk|].
  split; [rewrite Ht; cbn [keygens]; exact Hg|].
  split; [rewrite Ht; cbn [signings]; exact Hs|].
  split; [destruct op; exact Hsig|].
  split; [exact Hek|]. rewrite Hf. apply lookup_insert_eq.
Qed.

(** X15: the certificate a successful operation signs has the subject of
    the descriptor, holds from the first reading of the clock until the
    second reading moved by the descriptor's years (at least one), has
    valid basic constraints, and is a CA certificate exactly for the two CA
    operations. *)
Theorem issue_validity op cm cd w w' :
  issue op cm cd w = (Ok tt, w') ->
  exists tmpl,
    signed_templates (w_trace w') = tmpl :: signed_templates (w_trace w) /\
    x509.Subject tmpl = Subject cd /\
    x509.NotBefore tmpl = w_clock w (w_ticks w) /\
    x509.NotAfter tmpl =
      time_AddDate (w_clock w (S (w_ticks w))) (ValidYears cd) 0 0 /\
    1 <= ValidYears cd /\
    x509.BasicConstraintsValid tmpl = true /\
    x509.IsCA tmpl = issuesCA op.
Proof.
  intros H. apply issue_Ok_create in H as [H Hy].
  apply create_Ok_steps in H
    as (tmpl & parent & priv & newKey & rnd1 & certBytes & rnd2 & ws & _
        & Hsub & Hnb & Hna & Hca & Hbc & _ & _ & _ & _ & _ & _ & Hs & Hsave).
  cbn [Subject ValidYears IsCA Alias setFlags] in *.
  pose proof (silent_save cm certBytes (x509_MarshalPKCS1PrivateKey newKey)
                (Alias cd) ws) as Hq.
  rewrite Hsave in Hq. cbn [snd] in Hq.
  exists tmpl. unfold signed_templates. rewrite Hq, Hs.
  repeat split; assumption.
Qed.

(** X16: when the armor reads back what it wrote, [Get] of the alias
    after a successful operation returns what the two parsers make of the
    bytes the signing call returned and of the encoding of the generated
    key. *)
Theorem issue_then_Get op cm cd w w' :
  issue op cm cd w = (Ok tt, w') ->
  pem_roundtrip typeCert -> pem_roundtrip typeRsaPrivateKey ->
  exists tmpl parent priv newKey rnd1 certBytes rnd2,
    rsa_GenerateKey (w_rand w) (KeySize cd) = (Ok newKey, rnd1) /\
    signings (w_trace w')
      = (tmpl, parent, rsa.Public newKey, priv) :: signings (w_trace w) /\
    x509_CreateCertificate rnd1 tmpl parent (rsa.Public newKey) priv
      = (Ok certBytes, rnd2) /\
    fst (Get cm (Alias cd) w') =
      match x509_ParseCertificate certBytes with
      | Err e => Err e
      | Ok c =>
          match x509_ParsePKCS1PrivateKey
                  (x509_MarshalPKCS1PrivateKey newKey) with
          | Err e => Err e
          | Ok k => Ok (mkPairHolder c k)
          end
      end.
Proof.
  intros H Hrc Hrk. apply issue_Ok_create in H as [H _].
  apply create_Ok_steps in H
    as (tmpl & parent & priv & newKey & rnd1 & certBytes & rnd2 & ws & Hk & _
        & _ & _ & _ & _ & _ & Hcc & _ & _ & _ & _ & Hs & Hsave).
  cbn [KeySize Alias setFlags] in *.
  pose proof (silent_save cm certBytes (x509_MarshalPKCS1PrivateKey newKey)
                (Alias cd) ws) as Hq.
  rewrite Hsave in Hq. cbn [snd] in Hq.
  exists tmpl, parent, priv, newKey, rnd1, certBytes, rnd2.
  split; [exact Hk|]. split; [now rewrite Hq|]. split; [exact Hcc|].
  apply save_Ok_files in Hsave
    as (certPem & keyPem & m1 & m2 & Hec & Hek & Hf & _).
  unfold Get. apply (load_of_files cm _ w' certPem keyPem m1 m2).
  - rewrite Hf, lookup_insert_ne by apply aliasToFile_key_ne_cert.
    apply lookup_insert_eq.
  - rewrite Hf. apply lookup_insert_eq.
  - now apply Hrc.
  - now apply Hrk.
Qed.

(** X14: the operations do not trust the flags of the descriptor: with
    any values of [SelfSigned] and [IsCA] an operation does what it does
    on the descriptor as given. *)
Theorem issue_ignores_flags op cm cd selfSigned isCA w :
  issue op cm (setFlags selfSigned isCA cd) w = issue op cm cd w.
Proof.
  rewrite !issue_cascade. reflexivity.
Qed.

(** X11: when the rules pass and the pair of the parent alias does not
    load, an intermediate CA or leaf operation returns the error of the
    load as it is, having generated no key, signed nothing and written
    nothing. *)
Theorem issue_parent_failure op cm cd w e :
  chained op = true ->
  pkix_Name_String (Subject cd) <> "" -> Alias cd <> "" ->
  ParentAlias cd <> "" -> 1 <= ValidYears cd ->
  fst (load cm (ParentAlias cd) w) = Err e ->
  let w' := snd (issue op cm cd w) in
  fst (issue op cm cd w) = Err e /\
  only_read w w'.
Proof.
  intros Hop Hs Ha Hp Hy Hl. cbn zeta. rewrite issue_cascade.
  destruct (pkix_Name_String (Subject cd)) as [|c1 s1]; [contradiction|].
  destruct (Alias cd) as [|c2 s2] eqn:Halias; [contradiction|].
  destruct (ParentAlias cd) as [|c3 s3] eqn:Hparent; [contradiction|].
  rewrite Hop. cbn [String.length Nat.eqb andb].
  destruct (Z.ltb_spec (ValidYears cd) 1); [lia|].
  set (cd' := setFlags (negb true) (issuesCA op) cd).
  destruct (create cm cd' w) as [r w'] eqn:Hcr. cbn [fst snd].
  unfold create in Hcr.
  apply bind_inv in Hcr as [(t1 & wa & Ht1 & H1) | (e' & He & _)];
    [|discriminate].
  apply bind_inv in H1 as [(t2 & wb & Ht2 & H2) | (e' & He & _)];
    [|discriminate].
  injection Ht1 as _ <-. injection Ht2 as _ <-.
  set (wb := tick (log EvNow (tick (log EvNow w)))) in *.
  assert (Hb : only_read w wb) by (repeat split).
  assert (Hlb : fst (load cm (ParentAlias cd') wb) = Err e).
  { rewrite (load_fst_files cm _ wb w) by reflexivity.
    cbn [ParentAlias cd' setFlags]. now rewrite Hparent. }
  pose proof (inert_load cm (ParentAlias cd') wb) as Hi.
  apply bind_inv in H2 as [(x & wc & Hx & _) | (e' & He & ->)].
  - exfalso. cbn [SelfSigned cd' setFlags negb] in Hx.
    apply bind_Ok_inv in Hx as (h & wl & Hload & _).
    rewrite Hload in Hlb. discriminate.
  - cbn [SelfSigned cd' setFlags negb] in He.
    apply bind_inv in He as [(h & wl & Hload & Hr) | (e'' & Hload & [= ->])];
      [discriminate|].
    rewrite Hload in Hlb, Hi. cbn [fst snd] in *.
    split; [congruence|]. exact (only_read_trans _ _ _ Hb Hi).
Qed.

End IssuanceSuccess.

(** The intermediate CA of the scenario is signed with the root's key. *)
Lemma issue_signer_witness :
  let w' := snd (issue (lib := Standin.lib) OpIntermediateCA Standin.cm
                   Standin.cdIm Standin.w1) in
  issue (lib := Standin.lib) OpIntermediateCA Standin.cm Standin.cdIm
        Standin.w1 = (Ok tt, w') /\
  exists tmpl parent priv newKey rnd1 keyPem mode,
    @rsa_GenerateKey Standin.lib (w_rand Standin.w1) (KeySize Standin.cdIm)
      = (Ok newKey, rnd1) /\
    keygens (w_trace w')
      = KeySize Standin.cdIm :: keygens (w_trace Standin.w1) /\
    signings (w_trace w')
      = (tmpl, parent, rsa.Public newKey, priv)
        :: signings (w_trace Standin.w1) /\
    (exists ch,
        fst (load (lib := Standin.lib) Standin.cm
               (ParentAlias Standin.cdIm) Standin.w1) = Ok ch /\
        parent = Cert ch /\ priv = Key ch) /\
    @pem_Encode Standin.lib
      (pem.mkBlock typeRsaPrivateKey
         (@x509_MarshalPKCS1PrivateKey Standin.lib newKey)) = Ok keyPem /\
    w_files w' !! aliasToFile Standin.cm (Alias Standin.cdIm) true
      = Some (NFile mode keyPem).
Proof.
  intros w'.
  assert (H0 : fst (issue (lib := Standin.lib) OpIntermediateCA Standin.cm
                      Standin.cdIm Standin.w1) = Ok tt)
    by (vm_compute; reflexivity).
  pose proof (run_Ok_tt _ _ H0) as H.
  split; [exact H|].
  exact (issue_signer (lib := Standin.lib) OpIntermediateCA Standin.cm
           Standin.cdIm Standin.w1 w' H).
Defined.

(** The root CA of the scenario: ten years from the second reading. *)
Lemma issue_validity_witness :
  let w' := snd (issue (lib := Standin.lib) OpRootCA Standin.cm
                   Standin.cdRoot Standin.w0) in
  issue (lib := Standin.lib) OpRootCA Standin.cm Standin.cdRoot Standin.w0
    = (Ok tt, w') /\
  exists tmpl,
    signed_templates (w_trace w')
      = tmpl :: signed_templates (w_trace Standin.w0) /\
    x509.Subject tmpl = Subject Standin.cdRoot /\
    x509.NotBefore tmpl = w_clock Standin.w0 (w_ticks Standin.w0) /\
    x509.NotAfter tmpl =
      @time_AddDate Standin.lib
        (w_clock Standin.w0 (S (w_ticks Standin.w0)))
        (ValidYears Standin.cdRoot) 0 0 /\
    1 <= ValidYears Standin.cdRoot /\
    x509.BasicConstraintsValid tmpl = true /\
    x509.IsCA tmpl = true.
Proof.
  intros w'.
  assert (H0 : fst (issue (lib := Standin.lib) OpRootCA Standin.cm
                      Standin.cdRoot Standin.w0) = Ok tt)
    by (vm_compute; reflexivity).
  pose proof (run_Ok_tt _ _ H0) as H.
  split; [exact H|].
  exact (issue_validity (lib := Standin.lib) OpRootCA Standin.cm
           Standin.cdRoot Standin.w0 w' H).
Defined.

(** The leaf of the scenario, read back. *)
Lemma issue_then_Get_witness :
  let w' := snd (issue (lib := Standin.lib) OpLeaf Standin.cm Standin.cdLeaf
                   Standin.w2) in
  issue (lib := Standin.lib) OpLeaf Standin.cm Standin.cdLeaf Standin.w2
    = (Ok tt, w') /\
  pem_roundtrip (lib := Standin.lib) typeCert /\
  pem_roundtrip (lib := Standin.lib) typeRsaPrivateKey /\
  exists tmpl parent priv newKey rnd1 certBytes rnd2,
    @rsa_GenerateKey Standin.lib (w_rand Standin.w2) (KeySize Standin.cdLeaf)
      = (Ok newKey, rnd1) /\
    signings (w_trace w')
      = (tmpl, parent, rsa.Public newKey, priv)
        :: signings (w_trace Standin.w2) /\
    @x509_CreateCertificate Standin.lib rnd1 tmpl parent (rsa.Public newKey)
      priv = (Ok certBytes, rnd2) /\
    fst (Get (lib := Standin.lib) Standin.cm (Alias Standin.cdLeaf) w') =
      match @x509_ParseCertificate Standin.lib certBytes with
      | Err e => Err e
      | Ok c =>
          match @x509_ParsePKCS1PrivateKey Standin.lib
                  (@x509_MarshalPKCS1PrivateKey Standin.lib newKey) with
          | Err e => Err e
          | Ok k => Ok (mkPairHolder c k)
          end
      end.
Proof.
  intros w'.
  assert (H0 : fst (issue (lib := Standin.lib) OpLeaf Standin.cm
                      Standin.cdLeaf Standin.w2) = Ok tt)
    by (vm_compute; reflexivity).
  pose proof (run_Ok_tt _ _ H0) as H.
  split; [exact H|].
  split; [apply Standin_pem_roundtrip; now left|].
  split; [apply Standin_pem_roundtrip; now right|].
  exact (issue_then_Get (lib := Standin.lib) OpLeaf Standin.cm
           Standin.cdLeaf Standin.w2 w' H
           (Standin_pem_roundtrip _ (or_introl eq_refl))
           (Standin_pem_roundtrip _ (or_intror eq_refl))).
Defined.

Example Get_of_the_scenario :
  fst (Get (lib := Standin.lib) Standin.cm "srv" Standin.w3)
    = Ok (mkPairHolder
            (x509.mkCertificate (Standin.cn "srv") pkix.empty 0 0 false 0
                                false None [] [] [])
            (rsa.mkPrivateKey (rsa.mkPublicKey 3 65537) 1)).
Proof. vm_compute. reflexivity. Qed.

(** A leaf whose parent does not exist. *)
Lemma issue_parent_failure_witness :
  let e := PathError "open" "/pki/nobody.pem" ENOENT in
  let w' := snd (issue (lib := Standin.lib) OpLeaf Standin.cm
                   Standin.cdOrphan Standin.w3) in
  fst (load (lib := Standin.lib) Standin.cm (ParentAlias Standin.cdOrphan)
         Standin.w3) = Err e /\
  fst (issue (lib := Standin.lib) OpLeaf Standin.cm Standin.cdOrphan
         Standin.w3) = Err e /\
  only_read Standin.w3 w'.
Proof.
  intros e w'.
  assert (Hl : fst (load (lib := Standin.lib) Standin.cm
                      (ParentAlias Standin.cdOrphan) Standin.w3) = Err e)
    by (vm_compute; reflexivity).
  split; [exact Hl|].
  apply (issue_parent_failure (lib := Standin.lib) OpLeaf Standin.cm
           Standin.cdOrphan Standin.w3 e).
  - reflexivity.
  - vm_compute. discriminate.
  - vm_compute. discriminate.
  - vm_compute. discriminate.
  - vm_compute. discriminate.
  - exact Hl.
Defined.

(** ** Listing after issuing *)

Section ListAfter.
Context {lib : GoLib}.

Lemma insert_entry_perm e l : insert_entry e l ≡ₚ e :: l.
Proof.
  induction l as [|x l IH]; cbn; [reflexivity|].
  destruct (String.leb (Name e) (Name x)); [reflexivity|].
  rewrite IH. apply Permutation_swap.
Qed.

Lemma sorted_entries_perm l : foldr insert_entry [] l ≡ₚ l.
Proof.
  induction l as [|x l IH]; cbn; [reflexivity|].
  rewrite insert_entry_perm. now rewrite IH.
Qed.

(** The entries of a directory are the paths of the store right below
    it. *)
Lemma elem_of_dir_entries files d e :
  e ∈ dir_entries files d <->
  exists p nd, files !! p = Some nd /\ child_of d p = Some (Name e) /\
               IsDir e = node_is_dir nd.
Proof.
  unfold dir_entries. rewrite sorted_entries_perm, list_elem_of_omap.
  split.
  - intros ([p nd] & Hin & Hf). apply elem_of_map_to_list in Hin.
    cbn [fst snd] in Hf. destruct (child_of d p) as [n|] eqn:Hc;
      [|discriminate].
    injection Hf as <-. exists p, nd. repeat split; assumption.
  - intros (p & nd & Hl & Hc & Hd). exists (p, nd). split.
    + now apply elem_of_map_to_list.
    + cbn [fst snd]. rewrite Hc. destruct e as [n b]. cbn in *. now subst.
Qed.

Lemma string_contains_app c a b :
  string_contains c (a ++ b) = string_contains c a || string_contains c b.
Proof.
  induction a as [|x a IH]; [reflexivity|].
  change (String x a ++ b) with (String x (a ++ b)). cbn.
  rewrite IH. now rewrite orb_assoc.
Qed.

Lemma child_of_entry d n :
  string_contains "/" n = false -> n <> "" ->
  child_of d (d ++ "/" ++ n) = Some n.
Proof.
  intros Hc Hn. unfold child_of, strings_HasPrefix. cbv zeta.
  rewrite (string_app_assoc_r d "/" n). set (pre := d ++ "/").
  rewrite substring_app_l, String.eqb_refl. cbv beta iota.
  rewrite (string_length_app pre n).
  replace (String.length pre + String.length n - String.length pre)%nat
    with (String.length n) by lia.
  rewrite substring_app_r, Hc.
  destruct (String.eqb_spec n ""); [contradiction | reflexivity].
Qed.

Lemma child_of_aliasToFile cm alias private :
  string_contains "/" alias = false ->
  child_of (dir cm) (aliasToFile cm alias private)
  = Some (alias ++ (if private then ".key" else ".pem")).
Proof.
  intros Hc. unfold aliasToFile.
  replace (alias ++ "." ++ (if private then "key" else "pem"))
    with (alias ++ (if private then ".key" else ".pem"))
    by (destruct private; reflexivity).
  apply child_of_entry.
  - rewrite string_contains_app, Hc. now destruct private.
  - intros H. apply (f_equal String.length) in H.
    rewrite string_length_app in H. destruct private; cbn in H; lia.
Qed.

Lemma dir_ne_aliasToFile cm alias private :
  dir cm <> aliasToFile cm alias private.
Proof.
  unfold aliasToFile. intros H. apply (f_equal String.length) in H.
  rewrite !string_length_app in H. cbn in H. lia.
Qed.

Lemma os_ReadDir_dir d w :
  w_files w !! d = Some NDir ->
  fst (os_ReadDir d w) = Ok (dir_entries (w_files w) d).
Proof. intros H. unfold os_ReadDir. cbn. now rewrite H. Qed.

(** The aliases [List] returns for given entries. *)
Lemma List_Ok cm w entries :
  fst (os_ReadDir (dir cm) w) = Ok entries ->
  exists aliases,
    fst (List cm w) = Ok aliases /\ NoDup aliases /\
    forall a, a ∈ aliases <->
      exists e, e ∈ entries /\ (Name e = a ++ ".pem" \/ Name e = a ++ ".key").
Proof.
  intros Hread.
  set (kept := List.filter (fun e => isAliasFilename (Name e)) entries).
  assert (Hkept : Forall (fun e => isAliasFilename (Name e) = true) kept).
  { apply Forall_forall. intros e He. subst kept.
    apply list_elem_of_In, filter_In in He. tauto. }
  destruct (lo_Map_from_aliases kept 0 Hkept) as (names & Hnames & Hmem).
  destruct (lo_Uniq_spec names) as [Hnd Huniq].
  exists (lo_Uniq names). split; [|split; [exact Hnd|]].
  - unfold List, bind. rewrite os_ReadDir_fst_snd, Hread.
    unfold lift, lo_Map, lo_Filter. rewrite lo_Filter_from_filter.
    fold kept. rewrite Hnames. reflexivity.
  - intros a. rewrite Huniq, Hmem. split.
    + intros (e & He & Hn). exists e. split; [|exact Hn].
      subst kept. apply list_elem_of_In, filter_In in He as [He _].
      now apply list_elem_of_In.
    + intros (e & He & Hn). exists e. split; [|exact Hn].
      subst kept. apply list_elem_of_In, filter_In. split.
      * now apply list_elem_of_In.
      * apply isAliasFilename_spec. eauto.
Qed.

(** The store after a successful operation. *)
Lemma issue_Ok_files op cm cd w w' :
  issue op cm cd w = (Ok tt, w') ->
  exists certPem keyPem mode1 mode2,
    w_files w' =
      <[aliasToFile cm (Alias cd) true := NFile mode2 keyPem]>
        (<[aliasToFile cm (Alias cd) false := NFile mode1 certPem]>
           (w_files w)).
Proof.
  intros H. apply issue_Ok_create in H as [H _].
  apply create_Ok_steps in H
    as (tmpl & parent & priv & newKey & rnd1 & certBytes & rnd2 & ws & _ & _
        & _ & _ & _ & _ & _ & _ & Hf & _ & _ & _ & _ & Hsave).
  cbn [Alias setFlags] in Hsave.
  apply save_Ok_files in Hsave
    as (certPem & keyPem & m1 & m2 & _ & _ & Hf' & _).
  exists certPem, keyPem, m1, m2. now rewrite Hf', Hf.
Qed.

(** X17: in a store directory, after a successful operation on an alias
    without a slash, [List] succeeds and returns the alias, once, together
    with every alias it returned before. *)
Theorem List_after_issue op cm cd w w' :
  issue op cm cd w = (Ok tt, w') ->
  w_files w !! dir cm = Some NDir ->
  string_contains "/" (Alias cd) = false ->
  exists aliases,
    fst (List cm w') = Ok aliases /\
    NoDup aliases /\
    Alias cd ∈ aliases /\
    (forall before a, fst (List cm w) = Ok before -> a ∈ before ->
                      a ∈ aliases).
Proof.
  intros H Hdir Hslash.
  apply issue_Ok_files in H as (certPem & keyPem & m1 & m2 & Hf).
  set (key := aliasToFile cm (Alias cd) true) in *.
  set (cert := aliasToFile cm (Alias cd) false) in *.
  assert (Hdir' : w_files w' !! dir cm = Some NDir).
  { rewrite Hf, !lookup_insert_ne by (apply not_eq_sym, dir_ne_aliasToFile).
    exact Hdir. }
  destruct (List_Ok cm w' _ (os_ReadDir_dir _ _ Hdir'))
    as (aliases & Hl & Hnd & Hmem).
  exists aliases. split; [exact Hl|]. split; [exact Hnd|]. split.
  - apply Hmem. exists (mkDirEntry (Alias cd ++ ".pem") false). split; [|now left].
    apply elem_of_dir_entries. exists cert, (NFile m1 certPem).
    split; [|split; [|reflexivity]].
    + rewrite Hf, lookup_insert_ne by apply aliasToFile_key_ne_cert.
      apply lookup_insert_eq.
    + subst cert. now rewrite child_of_aliasToFile.
  - intros before a Hbefore Ha.
    destruct (List_Ok cm w _ (os_ReadDir_dir _ _ Hdir))
      as (aliases0 & Hl0 & _ & Hmem0).
    rewrite Hl0 in Hbefore. injection Hbefore as <-.
    apply Hmem0 in Ha as (e & He & Hn). apply Hmem.
    apply elem_of_dir_entries in He as (p & nd & Hp & Hc & _).
    assert (Hp' : exists nd', w_files w' !! p = Some nd').
    { rewrite Hf. destruct (decide (p = key)) as [-> | Hk].
      - rewrite lookup_insert_eq. eauto.
      - rewrite lookup_insert_ne by congruence.
        destruct (decide (p = cert)) as [-> | Hce].
        + rewrite lookup_insert_eq. eauto.
        + rewrite lookup_insert_ne by congruence. eauto. }
    destruct Hp' as [nd' Hp'].
    exists (mkDirEntry (Name e) (node_is_dir nd')). split; [|exact Hn].
    apply elem_of_dir_entries. exists p, nd'. repeat split; assumption.
Qed.

End ListAfter.

Lemma List_after_issue_witness :
  let w' := snd (issue (lib := Standin.lib) OpLeaf Standin.cm Standin.cdLeaf
                   Standin.w2) in
  issue (lib := Standin.lib) OpLeaf Standin.cm Standin.cdLeaf Standin.w2
    = (Ok tt, w') /\
  w_files Standin.w2 !! dir Standin.cm = Some NDir /\
  string_contains "/" (Alias Standin.cdLeaf) = false /\
  exists aliases,
    fst (List Standin.cm w') = Ok aliases /\
    NoDup aliases /\
    Alias Standin.cdLeaf ∈ aliases /\
    (forall before a, fst (List Standin.cm Standin.w2) = Ok before ->
                      a ∈ before -> a ∈ aliases).
Proof.
  intros w'.
  assert (H0 : fst (issue (lib := Standin.lib) OpLeaf Standin.cm
                      Standin.cdLeaf Standin.w2) = Ok tt)
    by (vm_compute; reflexivity).
  pose proof (run_Ok_tt _ _ H0) as H.
  assert (Hd : w_files Standin.w2 !! dir Standin.cm = Some NDir)
    by (vm_compute; reflexivity).
  assert (Hs : string_contains "/" (Alias Standin.cdLeaf) = false)
    by reflexivity.
  split; [exact H|]. split; [exact Hd|]. split; [exact Hs|].
  exact (List_after_issue (lib := Standin.lib) OpLeaf Standin.cm
           Standin.cdLeaf Standin.w2 w' H Hd Hs).
Defined.

(** ** pkg/show: the labels of the usages *)

Section ShowLabels.

Lemma lo_FilterMap_from_omap {A B} (g : A -> B * bool) (l : list A) i :
  lo_FilterMap_from i (fun x _ => g x) l =
  omap (fun x => if snd (g x) then Some (fst (g x)) else None) l.
Proof.
  revert i; induction l as [|x l IH]; intros i; cbn; [reflexivity|].
  destruct (g x) as [y []]; cbn; now rewrite IH.
Qed.

(** [item & ku == item] for the one-bit [item = 1 << k]. *)
Lemma land_bit_eqb k ku :
  0 <= k -> (Z.land (Z.shiftl 1 k) ku =? Z.shiftl 1 k) = Z.testbit ku k.
Proof.
  intros Hk. rewrite Z.shiftl_1_l. destruct (Z.testbit ku k) eqn:Hb.
  - apply Z.eqb_eq, Z.bits_inj'. intros n Hn. rewrite Z.land_spec.
    destruct (Z.eq_dec n k) as [-> | Hne].
    + now rewrite Hb, andb_true_r.
    + now rewrite Z.pow2_bits_false by congruence.
  - apply Z.eqb_neq. intros Heq.
    apply (f_equal (fun z => Z.testbit z k)) in Heq.
    rewrite Z.land_spec, Z.pow2_bits_true, Hb in Heq by exact Hk.
    discriminate.
Qed.

Lemma kuMap_keys keys :
  lo_Keys ShowCmd.kuMap keys ->
  keys ≡ₚ [x509.KeyUsageDigitalSignature; x509.KeyUsageDataEncipherment;
           x509.KeyUsageCertSign; x509.KeyUsageCRLSign].
Proof.
  unfold lo_Keys, ShowCmd.kuMap. intros ->.
  rewrite !map_to_list_insert by (vm_compute; reflexivity).
  rewrite map_to_list_singleton. reflexivity.
Qed.

Lemma ekuMap_keys keys :
  lo_Keys ShowCmd.ekuMap keys ->
  keys ≡ₚ [x509.ExtKeyUsageClientAuth; x509.ExtKeyUsageServerAuth;
           x509.ExtKeyUsageCodeSigning; x509.ExtKeyUsageTimeStamping;
           x509.ExtKeyUsageEmailProtection; x509.ExtKeyUsageAny].
Proof.
  unfold lo_Keys, ShowCmd.ekuMap. intros ->.
  rewrite !map_to_list_insert by (vm_compute; reflexivity).
  rewrite map_to_list_singleton. reflexivity.
Qed.

Lemma keyUsageLabels_perm keys holder :
  lo_Keys ShowCmd.kuMap keys ->
  let ku := x509.KeyUsage (Cert holder) in
  ShowCmd.keyUsageLabels keys holder ≡ₚ
    ((if Z.testbit ku 0 then ["KeyUsageDigitalSignature"] else []) ++
     (if Z.testbit ku 3 then ["KeyUsageDataEncipherment"] else []) ++
     (if Z.testbit ku 5 then ["KeyUsageCertSign"] else []) ++
     (if Z.testbit ku 6 then ["KeyUsageCRLSign"] else []))%list.
Proof.
  intros Hkeys ku. apply kuMap_keys in Hkeys.
  unfold ShowCmd.keyUsageLabels, lo_FilterMap. fold ku.
  rewrite (lo_FilterMap_from_omap
             (fun item => if Z.land item ku =? item
                          then (default "" (ShowCmd.kuMap !! item), true)
                          else ("", false))).
  rewrite Hkeys. cbn [omap list_omap].
  unfold x509.KeyUsageDigitalSignature, x509.KeyUsageDataEncipherment,
    x509.KeyUsageCertSign, x509.KeyUsageCRLSign.
  rewrite !land_bit_eqb by lia.
  destruct (Z.testbit ku 0), (Z.testbit ku 3), (Z.testbit ku 5),
    (Z.testbit ku 6); vm_compute; reflexivity.
Qed.

(** X21: whatever the order in which the keys of [kuMap] come, the labels
    of ["Key usage"] are, up to order and each once, those of the bits set
    among digital signature (0), data encipherment (3), certificate signing
    (5) and CRL signing (6); any other bit of the key usage is not
    shown. *)
Theorem keyUsageLabels_bits keys holder :
  lo_Keys ShowCmd.kuMap keys ->
  let ku := x509.KeyUsage (Cert holder) in
  ShowCmd.keyUsageLabels keys holder ≡ₚ
    ((if Z.testbit ku 0 then ["KeyUsageDigitalSignature"] else []) ++
     (if Z.testbit ku 3 then ["KeyUsageDataEncipherment"] else []) ++
     (if Z.testbit ku 5 then ["KeyUsageCertSign"] else []) ++
     (if Z.testbit ku 6 then ["KeyUsageCRLSign"] else []))%list /\
  ShowCmd.props_KeyUsage keys holder
    = strings_Join (ShowCmd.keyUsageLabels keys holder) ",".
Proof.
  intros Hkeys ku. split; [now apply keyUsageLabels_perm | reflexivity].
Qed.

Lemma extKeyUsageLabels_perm keys holder :
  lo_Keys ShowCmd.ekuMap keys ->
  let has := lo_Contains (x509.ExtKeyUsages (Cert holder)) in
  ShowCmd.extKeyUsageLabels keys holder ≡ₚ
    ((if has x509.ExtKeyUsageClientAuth then ["ExtKeyUsageClientAuth"]
      else []) ++
     (if has x509.ExtKeyUsageServerAuth then ["ExtKeyUsageServerAuth"]
      else []) ++
     (if has x509.ExtKeyUsageCodeSigning then ["ExtKeyUsageCodeSigning"]
      else []) ++
     (if has x509.ExtKeyUsageTimeStamping then ["ExtKeyUsageTimeStamping"]
      else []) ++
     (if has x509.ExtKeyUsageEmailProtection
      then ["ExtKeyUsageEmailProtection"] else []) ++
     (if has x509.ExtKeyUsageAny then ["ExtKeyUsageAny"] else []))%list.
Proof.
  intros Hkeys has. apply ekuMap_keys in Hkeys.
  unfold ShowCmd.extKeyUsageLabels, lo_FilterMap. fold has.
  rewrite (lo_FilterMap_from_omap
             (fun item => if has item
                          then (default "" (ShowCmd.ekuMap !! item), true)
                          else ("", false))).
  rewrite Hkeys. cbn [omap list_omap].
  destruct (has x509.ExtKeyUsageClientAuth),
    (has x509.ExtKeyUsageServerAuth), (has x509.ExtKeyUsageCodeSigning),
    (has x509.ExtKeyUsageTimeStamping),
    (has x509.ExtKeyUsageEmailProtection), (has x509.ExtKeyUsageAny);
    vm_compute; reflexivity.
Qed.

Lemma lo_Contains_spec {A} `{EqDecision A} (l : list A) x :
  lo_Contains l x = true <-> x ∈ l.
Proof.
  induction l as [|y l IH]; cbn.
  - split; [discriminate | intros H; inversion H].
  - rewrite elem_of_cons. destruct (decide (y = x)) as [-> | Hne].
    + split; auto.
    + rewrite IH. split; [auto | intros [-> | H]; [contradiction | exact H]].
Qed.

(** X23: whatever the order in which the keys of [ekuMap] come, the
    labels of ["Ext. key usage"] are, up to order, the labels of the
    extended key usages the certificate lists, each once however often the
    certificate lists it. *)
Theorem extKeyUsageLabels_members keys holder :
  lo_Keys ShowCmd.ekuMap keys ->
  NoDup (ShowCmd.extKeyUsageLabels keys holder) /\
  (forall label, label ∈ ShowCmd.extKeyUsageLabels keys holder <->
     exists item, item ∈ x509.ExtKeyUsages (Cert holder) /\
                  ShowCmd.ekuMap !! item = Some label).
Proof.
  intros Hkeys. pose proof (extKeyUsageLabels_perm keys holder Hkeys) as Hp.
  cbn zeta in Hp.
  assert (Hc := fun x => lo_Contains_spec (x509.ExtKeyUsages (Cert holder)) x).
  split.
  - rewrite Hp.
    destruct (lo_Contains _ x509.ExtKeyUsageClientAuth),
      (lo_Contains _ x509.ExtKeyUsageServerAuth),
      (lo_Contains _ x509.ExtKeyUsageCodeSigning),
      (lo_Contains _ x509.ExtKeyUsageTimeStamping),
      (lo_Contains _ x509.ExtKeyUsageEmailProtection),
      (lo_Contains _ x509.ExtKeyUsageAny);
      cbn [app]; apply (bool_decide_unpack (NoDup _)); vm_compute; exact I.
  - intros label. rewrite Hp. split.
    + rewrite !elem_of_app. intros H.
      repeat match type of H with
             | _ \/ _ => destruct H as [H | H]
             end;
        match type of H with
        | _ ∈ (if lo_Contains _ ?u then _ else _) =>
            destruct (lo_Contains _ u) eqn:Hu;
              [apply list_elem_of_singleton in H as ->; exists u;
               split; [now apply Hc | vm_compute; reflexivity]
              | inversion H]
        end.
    + intros (item & Hin & Hl). apply Hc in Hin.
      rewrite !elem_of_app.
      destruct item; rewrite Hin;
        vm_compute in Hl; injection Hl as <-;
        rewrite !list_elem_of_singleton; tauto.
Qed.

(** X22: for a certificate with the usages [create] gives, ["Key usage"]
    shows the two labels of a CA, or the two of a leaf, and
    ["Ext. key usage"] shows nothing for a CA and the labels of client and
    server authentication for a leaf. *)
Theorem labels_of_issued keys ekeys holder cd :
  lo_Keys ShowCmd.kuMap keys -> lo_Keys ShowCmd.ekuMap ekeys ->
  x509.KeyUsage (Cert holder) = getKeyUsage cd ->
  x509.ExtKeyUsages (Cert holder) =
    (if IsCA cd then []
     else [x509.ExtKeyUsageClientAuth; x509.ExtKeyUsageServerAuth]) ->
  if IsCA cd then
    ShowCmd.keyUsageLabels keys holder
      ≡ₚ ["KeyUsageCertSign"; "KeyUsageCRLSign"] /\
    ShowCmd.props_ExtKeyUsage ekeys holder = ""
  else
    ShowCmd.keyUsageLabels keys holder
      ≡ₚ ["KeyUsageDigitalSignature"; "KeyUsageDataEncipherment"] /\
    ShowCmd.extKeyUsageLabels ekeys holder
      ≡ₚ ["ExtKeyUsageClientAuth"; "ExtKeyUsageServerAuth"].
Proof.
  intros Hk Hek Hku Heku.
  pose proof (keyUsageLabels_perm keys holder Hk) as Hp.
  pose proof (extKeyUsageLabels_perm ekeys holder Hek) as Hep.
  cbn zeta in Hp, Hep. rewrite Hku in Hp. rewrite Heku in Hep.
  unfold getKeyUsage in Hp. destruct (IsCA cd).
  - split; [exact Hp|].
    unfold ShowCmd.props_ExtKeyUsage.
    cbn in Hep. apply Permutation_nil_r in Hep. now rewrite Hep.
  - split; [exact Hp | exact Hep].
Qed.

End ShowLabels.

Lemma lo_Keys_map_to_list {K V} `{Countable K} (m : gmap K V) :
  lo_Keys m (map_to_list m).*1.
Proof. unfold lo_Keys. reflexivity. Qed.

(** A certificate with key encipherment (bit 2) beside a leaf's usages:
    the third usage has no label. *)
Lemma keyUsageLabels_bits_witness :
  let holder :=
    mkPairHolder
      (x509.mkCertificate pkix.empty pkix.empty 0 0 false 13 true None [] []
                          [])
      (rsa.mkPrivateKey (rsa.mkPublicKey 3 65537) 1) in
  let keys := (map_to_list ShowCmd.kuMap).*1 in
  lo_Keys ShowCmd.kuMap keys /\
  ShowCmd.keyUsageLabels keys holder
    ≡ₚ ["KeyUsageDigitalSignature"; "KeyUsageDataEncipherment"] /\
  ShowCmd.props_KeyUsage keys holder
    = strings_Join (ShowCmd.keyUsageLabels keys holder) ",".
Proof.
  intros holder keys. split; [apply lo_Keys_map_to_list|].
  exact (keyUsageLabels_bits keys holder (lo_Keys_map_to_list _)).
Defined.

(** A certificate that lists server authentication twice. *)
Lemma extKeyUsageLabels_members_witness :
  let holder :=
    mkPairHolder
      (x509.mkCertificate pkix.empty pkix.empty 0 0 false 0 true None
         [x509.ExtKeyUsageServerAuth; x509.ExtKeyUsageServerAuth] [] [])
      (rsa.mkPrivateKey (rsa.mkPublicKey 3 65537) 1) in
  let keys := (map_to_list ShowCmd.ekuMap).*1 in
  lo_Keys ShowCmd.ekuMap keys /\
  NoDup (ShowCmd.extKeyUsageLabels keys holder) /\
  (forall label, label ∈ ShowCmd.extKeyUsageLabels keys holder <->
     exists item, item ∈ x509.ExtKeyUsages (Cert holder) /\
                  ShowCmd.ekuMap !! item = Some label).
Proof.
  intros holder keys. split; [apply lo_Keys_map_to_list|].
  exact (extKeyUsageLabels_members keys holder (lo_Keys_map_to_list _)).
Defined.

Example labels_examples :
  ShowCmd.extKeyUsageLabels (map_to_list ShowCmd.ekuMap).*1
    (mkPairHolder
       (x509.mkCertificate pkix.empty pkix.empty 0 0 false 0 true None
          [x509.ExtKeyUsageServerAuth; x509.ExtKeyUsageServerAuth] [] [])
       (rsa.mkPrivateKey (rsa.mkPublicKey 3 65537) 1))
    = ["ExtKeyUsageServerAuth"] /\
  ShowCmd.props_KeyUsage [64; 1; 32; 8]
    (mkPairHolder
       (x509.mkCertificate pkix.empty pkix.empty 0 0 true 96 true None [] []
                           [])
       (rsa.mkPrivateKey (rsa.mkPublicKey 3 65537) 1))
    = "KeyUsageCRLSign,KeyUsageCertSign".
Proof. vm_compute. split; reflexivity. Qed.

(** The leaf of the scenario, as its certificate was built. *)
Lemma labels_of_issued_witness :
  let holder :=
    mkPairHolder
      (x509.mkCertificate (Standin.cn "srv") (Standin.cn "Intermediate") 0 0
         false (getKeyUsage (setFlags false false Standin.cdLeaf)) true
         (Some 0) [x509.ExtKeyUsageClientAuth; x509.ExtKeyUsageServerAuth]
         ["srv.example.com"] [])
      (rsa.mkPrivateKey (rsa.mkPublicKey 3 65537) 1) in
  let keys := (map_to_list ShowCmd.kuMap).*1 in
  let ekeys := (map_to_list ShowCmd.ekuMap).*1 in
  lo_Keys ShowCmd.kuMap keys /\ lo_Keys ShowCmd.ekuMap ekeys /\
  ShowCmd.keyUsageLabels keys holder
    ≡ₚ ["KeyUsageDigitalSignature"; "KeyUsageDataEncipherment"] /\
  ShowCmd.extKeyUsageLabels ekeys holder
    ≡ₚ ["ExtKeyUsageClientAuth"; "ExtKeyUsageServerAuth"].
Proof.
  intros holder keys ekeys.
  split; [apply lo_Keys_map_to_list|]. split; [apply lo_Keys_map_to_list|].
  exact (labels_of_issued keys ekeys holder
           (setFlags false false Standin.cdLeaf)
           (lo_Keys_map_to_list _) (lo_Keys_map_to_list _) eq_refl eq_refl).
Defined.

(** ** pkg/create: the commands *)

Section CreateCommands.
Context {lib : GoLib}.


(** X19: a successful [create leaf] command generates a key of the size of
    the [bits] flag; the certificate it signs is no CA certificate and has
    the subject, the DNS names and the IP addresses of the flags, and the
    issuer of the pair loaded for the [parent] flag; the pair is stored
    under the [alias] flag in the directory of the flags. *)
Theorem leaf_command d w w' :
  cobra_Execute CreateCmd.newLeafSubCommand d w = (Ok tt, w') ->
  let c := CreateCmd.leafCommon d in
  let cm := New (CreateCmd.dir c) in
  exists tmpl ch,
    signed_templates (w_trace w') = tmpl :: signed_templates (w_trace w) /\
    keygens (w_trace w') = CreateCmd.bits c :: keygens (w_trace w) /\
    x509.IsCA tmpl = false /\
    x509.Subject tmpl = CreateCmd.subject c /\
    x509.DNSNames tmpl = CreateCmd.dnsSan d /\
    x509.IPAddresses tmpl = CreateCmd.ipSan d /\
    fst (load cm (CreateCmd.parent c) w) = Ok ch /\
    x509.Issuer tmpl = x509.Subject (Cert ch) /\
    fst (doesAliasFileExist cm (CreateCmd.alias c) false w') = true /\
    fst (doesAliasFileExist cm (CreateCmd.alias c) true w') = true.
Proof.
  unfold cobra_Execute, CreateCmd.newLeafSubCommand, noPreRunE.
  cbn [PreRunE RunE]. intros H. cbv zeta.
  destruct d as [[alias parent years subject issuer bits dir serial] ips dns].
  cbn [CreateCmd.leafCommon CreateCmd.bits CreateCmd.subject CreateCmd.dnsSan
       CreateCmd.ipSan CreateCmd.parent CreateCmd.alias CreateCmd.dir
       CreateCmd.validYears CreateCmd.issuer CreateCmd.serial] in *.
  change (issue OpLeaf (New dir)
            (mkCertData bits years ips dns alias parent false false issuer
                        subject serial) w = (Ok tt, w')) in H.
  apply issue_Ok_create in H as [H _].
  pose proof (create_Ok _ _ _ _ H)
    as (tmpl & p & pub & priv & Hs & Hsub & Hca & _ & _ & _ & _ & Hdns & Hip
        & Hi).
  cbn in Hsub, Hca, Hdns, Hip, Hi. destruct Hi as (ch & Hl & Hiss & _).
  apply create_Ok_steps in H
    as (tmpl' & parent' & priv' & newKey & rnd1 & certBytes & rnd2 & ws & _
        & _ & _ & _ & _ & _ & _ & _ & _ & _ & _ & Hg & _ & Hsave).
  cbn [KeySize Alias setFlags] in Hg, Hsave.
  apply save_Ok_files in Hsave
    as (certPem & keyPem & m1 & m2 & _ & _ & Hf & Ht & _).
  exists tmpl, ch. unfold signed_templates. rewrite Hs.
  split; [reflexivity|].
  split; [rewrite Ht; cbn [keygens]; exact Hg|].
  repeat split; try assumption.
  - apply (exists_of_file _ _ _ _ m1 certPem).
    rewrite Hf, lookup_insert_ne by apply aliasToFile_key_ne_cert.
    apply lookup_insert_eq.
  - apply (exists_of_file _ _ _ _ m2 keyPem). rewrite Hf.
    apply lookup_insert_eq.
Qed.

End CreateCommands.


Lemma leaf_command_witness :
  let w' := snd (cobra_Execute
                   (CreateCmd.newLeafSubCommand (lib := Standin.lib))
                   Standin.leafFlags Standin.w2) in
  cobra_Execute (CreateCmd.newLeafSubCommand (lib := Standin.lib))
    Standin.leafFlags Standin.w2 = (Ok tt, w') /\
  exists tmpl ch,
    signed_templates (w_trace w')
      = tmpl :: signed_templates (w_trace Standin.w2) /\
    keygens (w_trace w') = 2048 :: keygens (w_trace Standin.w2) /\
    x509.IsCA tmpl = false /\
    x509.Subject tmpl = Standin.cn "srv" /\
    x509.DNSNames tmpl = ["srv.example.com"] /\
    x509.IPAddresses tmpl = [[x7f; x00; x00; x01]] /\
    fst (load (lib := Standin.lib) (New "/pki") "im" Standin.w2) = Ok ch /\
    x509.Issuer tmpl = x509.Subject (Cert ch) /\
    fst (doesAliasFileExist (New "/pki") "srv" false w') = true /\
    fst (doesAliasFileExist (New "/pki") "srv" true w') = true.
Proof.
  intros w'.
  assert (H0 : fst (cobra_Execute
                      (CreateCmd.newLeafSubCommand (lib := Standin.lib))
                      Standin.leafFlags Standin.w2) = Ok tt)
    by (vm_compute; reflexivity).
  pose proof (run_Ok_tt _ _ H0) as H.
  split; [exact H|].
  exact (leaf_command (lib := Standin.lib) Standin.leafFlags Standin.w2 w' H).
Defined.

(** ** pkg/list: the command *)

Section ListCommandProofs.
Context {lib : GoLib} {text : GoText}.

Lemma listLoop_spec cm ents w :
  forall tbl w0, w_files w0 = w_files w ->
    fst (ListCmd.listLoop cm ents tbl w0) =
      match sequence_res (map (fun a => fst (Get cm a w)) ents) with
      | Err e => Err e
      | Ok hs =>
          Ok (mkTable (tableHeader tbl)
                      (tableRows tbl ++ map ListCmd.pairRow hs))
      end /\
    only_read w0 (snd (ListCmd.listLoop cm ents tbl w0)).
Proof.
  induction ents as [|a ents IH]; intros tbl w0 Hw.
  - cbn. rewrite app_nil_r. destruct tbl. split; [reflexivity|].
    apply only_read_refl.
  - cbn [ListCmd.listLoop map sequence_res]. unfold bind, Get.
    pose proof (inert_load cm a w0) as Hi.
    pose proof (load_fst_files cm a w0 w Hw) as Hl.
    destruct (load cm a w0) as [[h|e] w1]; cbn [fst snd] in *; rewrite <- Hl.
    + destruct (IH (ListCmd.tableAppend tbl (ListCmd.pairRow h)) w1)
        as [IH1 IH2].
      { destruct Hi as (Hf & _). congruence. }
      split; [|exact (only_read_trans _ _ _ Hi IH2)].
      rewrite IH1. unfold Get.
      destruct (sequence_res _) as [hs|e]; [|reflexivity].
      cbn. now rewrite <- app_assoc.
    + split; [reflexivity | exact Hi].
Qed.

(** The result of [list]: the error of [List], or the first error of a
    [Get], or what the rendering of the whole table returns. *)
Lemma list_spec d w :
  let cm := New (ListCmd.dir d) in
  fst (ListCmd.list d w) =
    match fst (List cm w) with
    | Err e => Err e
    | Ok ents =>
        match sequence_res (map (fun a => fst (Get cm a w)) ents) with
        | Err e => Err e
        | Ok hs =>
            tablewriter_Render
              (mkTable ["Subject"; "Issuer"; "Valid to"]
                       (map ListCmd.pairRow hs))
        end
    end /\
  only_read w (snd (ListCmd.list d w)).
Proof.
  cbn zeta. unfold ListCmd.list, bind.
  pose proof (inert_List (New (ListCmd.dir d)) w) as Hi.
  destruct (List (New (ListCmd.dir d)) w) as [[ents|e] w1];
    cbn [fst snd] in *; [|split; [reflexivity | exact Hi]].
  destruct (listLoop_spec (New (ListCmd.dir d)) ents w
              (mkTable ["Subject"; "Issuer"; "Valid to"] []) w1)
    as [H1 H2].
  { now destruct Hi. }
  destruct (ListCmd.listLoop _ ents _ w1) as [[tbl|e] w2];
    cbn [fst snd] in *.
  - split; [|exact (only_read_trans _ _ _ Hi H2)].
    destruct (sequence_res _) as [hs|]; [|discriminate].
    injection H1 as ->. reflexivity.
  - split; [|exact (only_read_trans _ _ _ Hi H2)].
    destruct (sequence_res _) as [hs|]; [discriminate|]. congruence.
Qed.

Lemma sequence_res_Ok {A} (l : list (res A)) vs :
  Forall2 (fun r v => r = Ok v) l vs -> sequence_res l = Ok vs.
Proof.
  induction 1 as [|r v l vs -> _ IH]; cbn; [reflexivity|]. now rewrite IH.
Qed.

Lemma sequence_res_Err {A} (l : list (res A)) :
  Exists (fun r => isOk r = false) l ->
  exists pre e post,
    l = (pre ++ Err e :: post)%list /\ Forall (fun r => isOk r = true) pre /\
    sequence_res l = Err e.
Proof.
  induction l as [|r l IH]; intros H; [inversion H|].
  destruct r as [v|e].
  - apply Exists_cons in H as [H | H]; [discriminate|].
    destruct (IH H) as (pre & e & post & -> & Hpre & Hs).
    exists (Ok v :: pre), e, post. split; [reflexivity|].
    split; [constructor; [reflexivity | exact Hpre]|].
    cbn. now rewrite Hs.
  - exists [], e, l. repeat split. constructor.
Qed.

(** X25: when every alias [List] returns loads, the [list] command
    renders one table with a row per alias, in the order of [List]: the
    subject, the issuer and the end of validity of its certificate; it
    returns what the rendering returns, and only reads the store. *)
Theorem list_renders_all d w ents hs :
  let cm := New (ListCmd.dir d) in
  fst (List cm w) = Ok ents ->
  Forall2 (fun a h => fst (Get cm a w) = Ok h) ents hs ->
  fst (ListCmd.list d w) =
    tablewriter_Render
      (mkTable ["Subject"; "Issuer"; "Valid to"]
         (map (fun h => [ pkix_Name_String (x509.Subject (Cert h));
                          pkix_Name_String (x509.Issuer (Cert h));
                          time_Time_String (x509.NotAfter (Cert h)) ]) hs)) /\
  only_read w (snd (ListCmd.list d w)).
Proof.
  intros cm Hl Hall. destruct (list_spec d w) as [Hs Hr]. cbn zeta in Hs.
  fold cm in Hs. split; [|exact Hr].
  rewrite Hs, Hl.
  rewrite (sequence_res_Ok _ hs); [reflexivity|].
  clear -Hall. induction Hall; cbn; constructor; assumption.
Qed.

(** X24: when some alias [List] returns does not load, for instance an
    alias with a key file and no certificate file, the [list] command
    returns the error of the first such alias, and renders nothing: the
    renderer has no part in the result. *)
Theorem list_stops_at_unloadable d w ents :
  let cm := New (ListCmd.dir d) in
  fst (List cm w) = Ok ents ->
  Exists (fun a => isOk (fst (Get cm a w)) = false) ents ->
  exists pre a post e,
    ents = (pre ++ a :: post)%list /\
    Forall (fun b => isOk (fst (Get cm b w)) = true) pre /\
    fst (Get cm a w) = Err e /\
    fst (ListCmd.list d w) = Err e.
Proof.
  intros cm Hl Hex. destruct (list_spec d w) as [Hs _]. cbn zeta in Hs.
  fold cm in Hs. rewrite Hl in Hs.
  destruct (sequence_res_Err (map (fun a => fst (Get cm a w)) ents))
    as (pre & e & post & Hsplit & Hpre & Hseq).
  { apply Exists_fmap. exact Hex. }
  rewrite Hseq in Hs.
  apply fmap_app_inv in Hsplit as (pre' & rest & -> & Hrest & ->).
  symmetry in Hrest. apply fmap_cons_inv in Hrest as (a & post' & Ha & -> & ->).
  exists pre', a, post'. exists e. repeat split.
  - apply Forall_fmap in Hpre. exact Hpre.
  - symmetry. exact Ha.
  - exact Hs.
Qed.

End ListCommandProofs.

(** Listing the store of the scenario. *)
Lemma list_renders_all_witness :
  let d := ListCmd.mkListData "/pki" in
  let cm := New (ListCmd.dir d) in
  let ents := ["im"; "root"; "srv"] in
  let hs := [Standin.stored "Intermediate"; Standin.stored "Root";
             Standin.stored "srv"] in
  fst (List cm Standin.w3) = Ok ents /\
  Forall2 (fun a h => fst (Get (lib := Standin.lib) cm a Standin.w3) = Ok h)
          ents hs /\
  fst (ListCmd.list (lib := Standin.lib) (text := Standin.text) d Standin.w3)
    = @tablewriter_Render Standin.text
        (mkTable ["Subject"; "Issuer"; "Valid to"]
           (map (fun h =>
                   [ @pkix_Name_String Standin.lib (x509.Subject (Cert h));
                     @pkix_Name_String Standin.lib (x509.Issuer (Cert h));
                     @time_Time_String Standin.text (x509.NotAfter (Cert h)) ])
                hs)) /\
  only_read Standin.w3
    (snd (ListCmd.list (lib := Standin.lib) (text := Standin.text) d
            Standin.w3)).
Proof.
  intros d cm ents hs.
  assert (Hl : fst (List cm Standin.w3) = Ok ents)
    by (vm_compute; reflexivity).
  assert (Hall : Forall2 (fun a h => fst (Get (lib := Standin.lib) cm a
                                            Standin.w3) = Ok h) ents hs)
    by (repeat constructor; vm_compute; reflexivity).
  split; [exact Hl|]. split; [exact Hall|].
  exact (list_renders_all (lib := Standin.lib) (text := Standin.text) d
           Standin.w3 ents hs Hl Hall).
Defined.

(** A stray key file makes the listing fail. *)
Lemma list_stops_at_unloadable_witness :
  let d := ListCmd.mkListData "/pki" in
  let cm := New (ListCmd.dir d) in
  let ents := ["im"; "root"; "srv"; "stray"] in
  fst (List cm Standin.wStray) = Ok ents /\
  Exists (fun a => isOk (fst (Get (lib := Standin.lib) cm a Standin.wStray))
                   = false) ents /\
  exists pre a post e,
    ents = (pre ++ a :: post)%list /\
    Forall (fun b => isOk (fst (Get (lib := Standin.lib) cm b Standin.wStray))
                     = true) pre /\
    fst (Get (lib := Standin.lib) cm a Standin.wStray) = Err e /\
    fst (ListCmd.list (lib := Standin.lib) (text := Standin.text) d
           Standin.wStray) = Err e.
Proof.
  intros d cm ents.
  assert (Hl : fst (List cm Standin.wStray) = Ok ents)
    by (vm_compute; reflexivity).
  assert (Hex : Exists (fun a => isOk (fst (Get (lib := Standin.lib) cm a
                                              Standin.wStray)) = false) ents).
  { do 3 apply Exists_cons_tl. apply Exists_cons_hd.
    vm_compute. reflexivity. }
  split; [exact Hl|]. split; [exact Hex|].
  exact (list_stops_at_unloadable (lib := Standin.lib) (text := Standin.text)
           d Standin.wStray ents Hl Hex).
Defined.

Example list_examples :
  fst (ListCmd.list (lib := Standin.lib) (text := Standin.text)
         (ListCmd.mkListData "/pki") Standin.wStray)
    = Err (PathError "open" "/pki/stray.pem" ENOENT) /\
  fst (ListCmd.list (lib := Standin.lib) (text := Standin.text)
         (ListCmd.mkListData "/pki") Standin.w3) = Ok tt /\
  fst (ListCmd.list (lib := Standin.lib) (text := Standin.text)
         (ListCmd.mkListData "/pki") Standin.w0)
    = Err (LibError "tablewriter" "no rows").
Proof. vm_compute. repeat split; reflexivity. Qed.

(** ** Listing after deleting *)

Section ListAfterDelete.
Context {lib : GoLib}.






End ListAfterDelete.

